(** * PromptOps: content store, deployment coordinator, cache synchronizer

    A shallow embedding of [promptops/core/versioning.py],
    [promptops/core/models.py], [promptops/deploy/engine.py] and the
    deployment endpoints of [promptops/api/app.py], followed by the
    properties of the design document that can be stated over it.

    The development goes on with the history endpoint, the commit, deploy
    and eval commands of [promptops/cli/commands.py],
    [promptops/eval/engine.py] and the scorers that
    [promptops/eval/scorers.py] builds by default, and with further
    properties read off the code.

    Conventions of the embedding:
    - a Python [str] is a Rocq [string] read as a sequence of code points
      below 256; a Python [int] is a [Z]; a Python [float] is a binary64
      [float];
    - a UUID is a [nat]; the value drawn by [uuid4()] and the clock read by
      [datetime.utcnow()] are inputs of the operation that draws them
      ([Ambient]), so every statement holds for whatever they return;
    - a table is the list of its rows in insertion order; the constraints
      declared in [models.py] (primary key, [unique=True] on [hash], the
      foreign keys) are checked by the functions that model [db.commit()];
    - a Python exception is a value of [exception]; code that may raise
      returns a [result]. *)

From Stdlib Require Import ZArith String Ascii List Bool Lia.
From Stdlib Require Import Floats.PrimFloat.
From Stdlib Require Floats.SpecFloat Floats.FloatOps Floats.FloatAxioms.
From stdpp Require Import gmap strings list pretty.

#[local] Set Warnings "-register-all".

(** ** Python values, exceptions and the library functions used *)

Module Py.

(** The JSON-like values that a prompt file and a metadata dict hold. *)
Inductive pyval : Type :=
| PNone
| PBool (b : bool)
| PInt (n : Z)
| PFloat (f : float)
| PStr (s : string)
| PList (l : list pyval).

(** [bool(v)], as used by [if not v]. *)
Definition truthy (v : pyval) : bool :=
  match v with
  | PNone => false
  | PBool b => b
  | PInt n => negb (n =? 0)%Z
  | PFloat f => negb (PrimFloat.eqb f 0%float)
  | PStr s => negb (String.eqb s "")
  | PList l => match l with [] => false | _ => true end
  end.

Inductive exception : Type :=
| ValueError (msg : string)
| AttributeError (msg : string)
| TypeError (msg : string)
| JSONDecodeError (msg : string)
| IntegrityError (msg : string)
| DataError (msg : string)
| RedisError (msg : string)
| HTTPException (status_code : Z) (detail : string).

Inductive result (A : Type) : Type :=
| Return (a : A)
| Raise (e : exception).
Arguments Return {A} a.
Arguments Raise {A} e.

Definition returned {A} (r : result A) : bool :=
  match r with Return _ => true | Raise _ => false end.

(** [str.strip()] with no argument: the characters below 256 for which
    [str.isspace()] holds are U+0009..U+000D, U+001C..U+0020, U+0085 and
    U+00A0. *)
Definition isspace (a : ascii) : bool :=
  let n := nat_of_ascii a in
  ((9 <=? n) && (n <=? 13)) || ((28 <=? n) && (n <=? 32))
  || (n =? 133) || (n =? 160).

Fixpoint lstrip (s : string) : string :=
  match s with
  | EmptyString => EmptyString
  | String a r => if isspace a then lstrip r else s
  end.

Definition rstrip (s : string) : string :=
  String.rev (lstrip (String.rev s)).

Definition strip (s : string) : string := rstrip (lstrip s).

Definition first_char (s : string) : option ascii :=
  match s with
  | EmptyString => None
  | String a _ => Some a
  end.

Fixpoint last_char (s : string) : option ascii :=
  match s with
  | EmptyString => None
  | String a r => match last_char r with Some c => Some c | None => Some a end
  end.

(** [s[:n]] for [n >= 0]. *)
Definition prefix (n : nat) (s : string) : string := String.substring 0 n s.

(** The two library functions that are not re-implemented: the SHA-256
    digest in hexadecimal and [float.__repr__]. *)
Class PyLib : Type := {
  sha256_hexdigest : string -> string;
  float_repr : float -> string
}.

(** *** [json.dumps] with its default [ensure_ascii=True] *)

Definition dquote : ascii := ascii_of_nat 34.

Definition hex_digit (n : nat) : ascii :=
  nth n (list_ascii_of_string "0123456789abcdef") "0"%char.

Definition json_escape_char (a : ascii) : string :=
  let n := nat_of_ascii a in
  if n =? 34 then String "\" (String dquote "")
  else if n =? 92 then "\\"
  else if n =? 10 then "\n"
  else if n =? 13 then "\r"
  else if n =? 9 then "\t"
  else if n =? 8 then "\b"
  else if n =? 12 then "\f"
  else if (32 <=? n) && (n <=? 126) then String a ""
  else "\u00" +:+ String (hex_digit (n / 16)) (String (hex_digit (n mod 16)) "").

Fixpoint json_escape (s : string) : string :=
  match s with
  | EmptyString => EmptyString
  | String a r => json_escape_char a +:+ json_escape r
  end.

Definition json_string (s : string) : string :=
  String dquote (json_escape s +:+ String dquote "").

Section Dumps.
Context {lib : PyLib}.

Fixpoint json_value (v : pyval) : string :=
  match v with
  | PNone => "null"
  | PBool true => "true"
  | PBool false => "false"
  | PInt n => pretty n
  | PFloat f => float_repr f
  | PStr s => json_string s
  | PList l => "[" +:+ String.concat ", " (map json_value l) +:+ "]"
  end.

(** [sort_keys=True]: the items of the dict ordered by key. *)
Fixpoint insert_item (kv : string * pyval) (l : list (string * pyval))
  : list (string * pyval) :=
  match l with
  | [] => [kv]
  | x :: r => if String.leb (fst kv) (fst x) then kv :: l
              else x :: insert_item kv r
  end.

Definition sort_items (d : list (string * pyval)) : list (string * pyval) :=
  foldr insert_item [] d.

Definition json_item (kv : string * pyval) : string :=
  json_string (fst kv) +:+ ": " +:+ json_value (snd kv).

(** [json.dumps(d, sort_keys=True)] for a dict [d] given by its items. *)
Definition json_dumps_sorted (d : list (string * pyval)) : string :=
  "{" +:+ String.concat ", " (map json_item (sort_items d)) +:+ "}".
End Dumps.

(** [type(v).__name__] *)
Definition type_name (v : pyval) : string :=
  match v with
  | PNone => "NoneType"
  | PBool _ => "bool"
  | PInt _ => "int"
  | PFloat _ => "float"
  | PStr _ => "str"
  | PList _ => "list"
  end.

(** [o.get(k, d)] on a dict. *)
Definition dict_get (m : gmap string pyval) (k : string) (d : pyval) : pyval :=
  default d (m !! k).

(** The float literal [0.7]. *)
Definition float_0_7 : float := 0x1.6666666666666p-1%float.

End Py.
Import Py.

(** ** [promptops/core/models.py] *)

Definition UUID : Type := nat.

(** What an operation reads from outside the database: the value of
    [uuid4()] given to the row it inserts and the clock. *)
Record Ambient : Type := {
  uuid4 : UUID;
  utcnow : Z
}.

Module PromptVersion.
(** A row of [prompt_versions]. [created_at], which no function reads or
    writes, is left out. *)
Record t : Type := mk {
  id : UUID;
  content : string;
  hash : string;
  parent_id : option UUID;
  author : string;
  timestamp : Z;
  tags : pyval;
  prompt_metadata : gmap string pyval
}.
End PromptVersion.

Module Deployment.
(** A row of [deployments]. *)
Record t : Type := mk {
  id : UUID;
  version_id : UUID;
  environment : string;
  deployed_at : Z;
  deployed_by : string;
  rollback_version_id : option UUID;
  is_active : bool
}.

Definition with_is_active (b : bool) (d : t) : t :=
  mk (id d) (version_id d) (environment d) (deployed_at d) (deployed_by d)
     (rollback_version_id d) b.
End Deployment.

(** What the driver and the server make of the values of a row when it is
    flushed, before the constraints declared in [models.py] are looked at:
    psycopg2 refuses a string that holds a NUL character with [ValueError];
    the server refuses with [DataError] a value that the type of its column
    cannot hold, as a JSON document with NaN or a string longer than its
    [VARCHAR(n)]. These checks are not re-implemented: every statement
    holds for whatever they accept. *)
Class Postgres : Type := {
  accept_version : PromptVersion.t -> result unit;
  accept_deployment : Deployment.t -> result unit
}.

(** [query.order_by(desc(key)).first()]: a row with the greatest key, the
    earliest inserted one among equals. *)
Fixpoint first_desc {A} (key : A -> Z) (rows : list A) : option A :=
  match rows with
  | [] => None
  | x :: r =>
      match first_desc key r with
      | Some y => if (key x <? key y)%Z then Some y else Some x
      | None => Some x
      end
  end.

(** ** [promptops/core/versioning.py] *)

Module Versioning.

Definition table : Type := list PromptVersion.t.

Record Path : Type := { path_str : string; stem : string }.

Record ParsedPrompt : Type := {
  parsed_content : string;
  parsed_metadata : gmap string pyval;
  parsed_tags : pyval
}.

Definition query_by_hash (db : table) (h : string) : option PromptVersion.t :=
  find (fun v => String.eqb (PromptVersion.hash v) h) db.

Definition query_by_id (db : table) (i : UUID) : option PromptVersion.t :=
  find (fun v => Nat.eqb (PromptVersion.id v) i) db.

(** [db.add(row); db.commit()] on [prompt_versions]: the insert is refused
    when the driver or the server does not accept the values of the row, when
    the primary key or the hash is taken, or when the parent is absent. *)
Definition insert_version {pg : Postgres} (row : PromptVersion.t) (db : table)
  : result table :=
  match accept_version row with
  | Raise e => Raise e
  | Return _ =>
      if existsb (fun v => Nat.eqb (PromptVersion.id v) (PromptVersion.id row)) db
      then Raise (IntegrityError "prompt_versions_pkey")
      else if existsb (fun v => String.eqb (PromptVersion.hash v)
                                  (PromptVersion.hash row)) db
      then Raise (IntegrityError "prompt_versions_hash_key")
      else match PromptVersion.parent_id row with
           | Some p =>
               if existsb (fun v => Nat.eqb (PromptVersion.id v) p) db
               then Return (db ++ [row])
               else Raise (IntegrityError "prompt_versions_parent_id_fkey")
           | None => Return (db ++ [row])
           end
  end.

Section WithLib.
Context {lib : PyLib} {pg : Postgres}.

Definition hashable (content : string) (metadata : gmap string pyval)
  : list (string * pyval) :=
  [ ("content", PStr content);
    ("model", dict_get metadata "model" (PStr ""));
    ("temperature", dict_get metadata "temperature" (PFloat float_0_7));
    ("version", dict_get metadata "version" (PStr "1.0.0")) ].

Definition compute_hash (content : string) (metadata : gmap string pyval)
  : string :=
  let stable_str := json_dumps_sorted (hashable content metadata) in
  sha256_hexdigest stable_str.

Definition create_version (amb : Ambient)
    (content : string) (metadata : gmap string pyval) (tags : pyval)
    (author message : string) (parent_id : option UUID) (db : table)
  : result PromptVersion.t * table :=
  let version_hash := compute_hash content metadata in
  match query_by_hash db version_hash with
  | Some existing => (Return existing, db)
  | None =>
      let full_metadata := <["commit_message" := PStr message]> metadata in
      let new_version :=
        PromptVersion.mk (uuid4 amb) content version_hash parent_id author
          (utcnow amb) tags full_metadata in
      match insert_version new_version db with
      | Return db' => (Return new_version, db')
      | Raise e => (Raise e, db)
      end
  end.
End WithLib.

(** What [yaml.safe_load] returned: a mapping (with strings as keys), or
    another value: [None] for an empty document, a sequence or a scalar. *)
Inductive Document : Type :=
| Mapping (data : gmap string pyval)
| Value (v : pyval).

Definition parse_prompt_file (file_path : Path) (data : Document)
  : result ParsedPrompt :=
  match data with
  | Value v =>
      if negb (truthy v)
      then Raise (ValueError ("Empty or invalid YAML file: " +:+ path_str file_path))
      else Raise (AttributeError
                    ("'" +:+ type_name v +:+ "' object has no attribute 'get'"))
  | Mapping data =>
      if (size data =? 0)%nat
      then Raise (ValueError ("Empty or invalid YAML file: " +:+ path_str file_path))
      else
        let content := dict_get data "content" (PStr "") in
        if negb (truthy content)
        then Raise (ValueError ("No 'content' field in " +:+ path_str file_path))
        else
          let metadata : gmap string pyval :=
            list_to_map
              [ ("name", dict_get data "name" (PStr (stem file_path)));
                ("version", dict_get data "version" (PStr "1.0.0"));
                ("model", dict_get data "model" (PStr "gpt-4"));
                ("temperature", dict_get data "temperature" (PFloat float_0_7));
                ("max_tokens", dict_get data "max_tokens" PNone);
                ("top_p", dict_get data "top_p" PNone) ] in
          let tags := dict_get data "tags" (PList []) in
          match content with
          | PStr s =>
              Return {| parsed_content := strip s;
                        parsed_metadata := metadata;
                        parsed_tags := tags |}
          | _ => Raise (AttributeError
                          ("'" +:+ type_name content
                           +:+ "' object has no attribute 'strip'"))
          end
  end.

Definition get_current_head (db : table) : option PromptVersion.t :=
  first_desc PromptVersion.timestamp db.

Definition get_version_by_hash (db : table) (version_hash : string)
  : option PromptVersion.t :=
  query_by_hash db version_hash.

(** The loop of [get_version_history]; [fuel] is [limit - count], the
    number of iterations the guard [count < limit] still allows. *)
Fixpoint walk_parents (db : table) (fuel : nat) (current : option PromptVersion.t)
  : list PromptVersion.t :=
  match current, fuel with
  | Some c, S fuel' =>
      c :: match PromptVersion.parent_id c with
           | Some p => walk_parents db fuel' (query_by_id db p)
           | None => []
           end
  | _, _ => []
  end.

Definition get_version_history (db : table) (limit : Z) (start_from : option UUID)
  : list PromptVersion.t :=
  let current :=
    match start_from with
    | Some i => query_by_id db i
    | None => get_current_head db
    end in
  walk_parents db (Z.to_nat limit) current.

End Versioning.


(** ** [promptops/deploy/engine.py] *)

Module Engine.

(** The Redis client as the engine uses it. [S] is the state of everything
    behind the client (server and network); every call may change it, and
    may return or raise. *)
Class RedisClient (S : Type) : Type := {
  redis_from_url : string -> S -> result unit * S;
  redis_ping : S -> result unit * S;
  redis_get : string -> S -> result (option string) * S;
  redis_setex : string -> Z -> string -> S -> result unit * S;
  redis_keys : string -> S -> result (list string) * S;
  redis_delete : list string -> S -> result Z * S
}.

(** The payload kept in the cache with its JSON codec: [json.loads] and
    [json.dumps(_, default=str)], either of which may raise. *)
Class JsonCodec (P : Type) : Type := {
  json_loads : string -> result P;
  json_dumps_default_str : P -> result string;
  payload_truthy : P -> bool
}.

Definition REDIS_URL : string := "redis://localhost:6379".

Record DeploymentEngine : Type := {
  redis_available : bool;
  redis_client : option string
}.

Section WithRedis.
Context {S : Type} {RC : RedisClient S} {P : Type} {JC : JsonCodec P}.

(** Computations that talk to Redis. *)
Definition M (A : Type) : Type := S -> result A * S.

Definition ret {A} (a : A) : M A := fun s => (Return a, s).

Definition bind {A B} (m : M A) (k : A -> M B) : M B :=
  fun s => match m s with
           | (Return a, s') => k a s'
           | (Raise e, s') => (Raise e, s')
           end.

Definition lift {A} (r : result A) : M A := fun s => (r, s).

(** [try: body / except Exception as e: handler]; every value of
    [exception] is an instance of [Exception]. The [print] calls of the
    handlers are not modelled. *)
Definition try_except {A} (body : M A) (handler : exception -> M A) : M A :=
  fun s => match body s with
           | (Return a, s') => (Return a, s')
           | (Raise e, s') => handler e s'
           end.

(** [DeploymentEngine.__init__] *)
Definition new_engine : M DeploymentEngine :=
  fun s =>
    match redis_from_url REDIS_URL s with
    | (Return _, s1) =>
        match redis_ping s1 with
        | (Return _, s2) =>
            (Return {| redis_available := true; redis_client := Some REDIS_URL |}, s2)
        | (Raise _, s2) =>
            (Return {| redis_available := false; redis_client := Some REDIS_URL |}, s2)
        end
    | (Raise _, s1) =>
        (Return {| redis_available := false; redis_client := None |}, s1)
    end.

Definition _get_cache_key (environment : string) (name : option string) : string :=
  match name with
  | Some n => if String.eqb n "" then "promptops:prompt:" +:+ environment +:+ ":default"
              else "promptops:prompt:" +:+ environment +:+ ":" +:+ n
  | None => "promptops:prompt:" +:+ environment +:+ ":default"
  end.

Definition get_from_cache (self : DeploymentEngine)
    (environment : string) (name : option string) : M (option P) :=
  if negb (redis_available self) then ret None
  else
    try_except
      (let key := _get_cache_key environment name in
       bind (redis_get key) (fun cached =>
         match cached with
         | Some c => if negb (String.eqb c "")
                     then bind (lift (json_loads c)) (fun v => ret (Some v))
                     else ret None
         | None => ret None
         end))
      (fun e => ret None).

Definition set_cache (self : DeploymentEngine)
    (environment : string) (prompt_data : P) (name : option string) (ttl : Z)
  : M unit :=
  if negb (redis_available self) then ret tt
  else
    try_except
      (let key := _get_cache_key environment name in
       bind (lift (json_dumps_default_str prompt_data)) (fun value =>
         redis_setex key ttl value))
      (fun e => ret tt).

Definition invalidate_cache (self : DeploymentEngine) (environment : string)
  : M unit :=
  if negb (redis_available self) then ret tt
  else
    try_except
      (let pattern := "promptops:prompt:" +:+ environment +:+ ":*" in
       bind (redis_keys pattern) (fun keys =>
         match keys with
         | [] => ret tt
         | _ => bind (redis_delete keys) (fun _ => ret tt)
         end))
      (fun e => ret tt).

End WithRedis.
End Engine.

(** ** [promptops/cli/commands.py]: the loop of [commit_command] *)

Module Cli.
Section WithLib.
Context {lib : PyLib} {pg : Postgres}.

(** One iteration: parse the staged file, take HEAD as parent, commit. *)
Definition commit_file (amb : Ambient) (file_path : Versioning.Path)
    (data : Versioning.Document) (author message : string)
    (db : Versioning.table) : result PromptVersion.t * Versioning.table :=
  match Versioning.parse_prompt_file file_path data with
  | Raise e => (Raise e, db)
  | Return parsed =>
      let current_head := Versioning.get_current_head db in
      let parent_id := option_map PromptVersion.id current_head in
      Versioning.create_version amb
        (Versioning.parsed_content parsed) (Versioning.parsed_metadata parsed)
        (Versioning.parsed_tags parsed) author message parent_id db
  end.

(** The loop over the staged files; the first exception ends it, and what
    earlier iterations committed stays committed. *)
Fixpoint commit_command
    (staged : list (Ambient * Versioning.Path * Versioning.Document))
    (author message : string) (db : Versioning.table)
  : result (list PromptVersion.t) * Versioning.table :=
  match staged with
  | [] => (Return [], db)
  | (amb, file_path, data) :: rest =>
      match commit_file amb file_path data author message db with
      | (Raise e, db') => (Raise e, db')
      | (Return version, db') =>
          match commit_command rest author message db' with
          | (Return versions, db'') => (Return (version :: versions), db'')
          | (Raise e, db'') => (Raise e, db'')
          end
      end
  end.

End WithLib.
End Cli.

(** ** [promptops/api/app.py] *)

Module App.

Record DeployRequest : Type := {
  version_hash : string;
  environment : string;
  deployed_by : string
}.

Record DeployResponse : Type := {
  success : bool;
  deployed_version_hash : string;
  deployed_environment : string;
  deployed_at : Z;
  message : string
}.

Record RollbackResponse : Type := {
  rollback_success : bool;
  rolled_back_from : string;
  rolled_back_to : string;
  rollback_environment : string;
  rollback_message : string
}.

(** The fields of [PromptResponse]. *)
Record PromptResponse : Type := {
  response_content : string;
  response_hash : string;
  response_version : pyval;
  response_model : pyval;
  response_temperature : pyval;
  response_metadata : gmap string pyval;
  response_tags : pyval;
  response_deployed_at : Z;
  response_environment : string
}.

(** The system of record and what lies behind the Redis client. *)
Record World (S : Type) : Type := {
  prompt_versions : Versioning.table;
  deployments : list Deployment.t;
  redis : S
}.
Arguments prompt_versions {S} w.
Arguments deployments {S} w.
Arguments redis {S} w.

Definition with_deployments {S} (rows : list Deployment.t) (w : World S) : World S :=
  {| prompt_versions := prompt_versions w; deployments := rows; redis := redis w |}.

Definition in_environment (environment : string) (d : Deployment.t) : bool :=
  String.eqb (Deployment.environment d) environment.

(** [filter(environment == e).filter(is_active == True)] *)
Definition active_in (environment : string) (d : Deployment.t) : bool :=
  in_environment environment d && Deployment.is_active d.

(** [filter(environment == e).filter(id != i)] *)
Definition other_in (environment : string) (i : UUID) (d : Deployment.t) : bool :=
  in_environment environment d && negb (Nat.eqb (Deployment.id d) i).

(** The UPDATE that the session flushes for a row whose [is_active] was
    assigned: by primary key. *)
Definition set_is_active (i : UUID) (b : bool) (rows : list Deployment.t)
  : list Deployment.t :=
  map (fun d => if Nat.eqb (Deployment.id d) i
                then Deployment.with_is_active b d else d) rows.

(** [for dep in current: dep.is_active = False] *)
Definition deactivate_all (environment : string) (rows : list Deployment.t)
  : list Deployment.t :=
  map (fun d => if active_in environment d
                then Deployment.with_is_active false d else d) rows.

(** [db.add(row); db.commit()] on [deployments]: the insert is refused when
    the driver or the server does not accept the values of the row (an
    environment longer than [VARCHAR(50)], say), when the primary key is
    taken, or when the version is absent. *)
Definition insert_deployment {pg : Postgres} (row : Deployment.t)
    (versions : Versioning.table) (rows : list Deployment.t)
  : result (list Deployment.t) :=
  match accept_deployment row with
  | Raise e => Raise e
  | Return _ =>
      if existsb (fun d => Nat.eqb (Deployment.id d) (Deployment.id row)) rows
      then Raise (IntegrityError "deployments_pkey")
      else if existsb (fun v => Nat.eqb (PromptVersion.id v)
                                  (Deployment.version_id row)) versions
      then Return (rows ++ [row])
      else Raise (IntegrityError "deployments_version_id_fkey")
  end.

(** [d.version.hash[:8]], through the relationship on [version_id]. *)
Definition version_hash8 (versions : Versioning.table) (d : Deployment.t)
  : result string :=
  match Versioning.query_by_id versions (Deployment.version_id d) with
  | Some v => Return (prefix 8 (PromptVersion.hash v))
  | None => Raise (AttributeError "'NoneType' object has no attribute 'hash'")
  end.

(** What pydantic does when [PromptResponse(...)] is called with the given
    keyword arguments: it returns the model, its fields possibly coerced, or
    raises [ValidationError] when an argument does not fit the type of its
    field, as a [version] that is a number or a [model] that is [None] in the
    metadata of the version. The validation is not re-implemented. *)
Class Pydantic : Type := {
  validate_prompt_response : PromptResponse -> result PromptResponse
}.

Section WithRedis.
Context {S : Type} {RC : Engine.RedisClient S} {P : Type} {JC : Engine.JsonCodec P}
  {PV : Pydantic} {pg : Postgres}.
Variable response_dict : PromptResponse -> P.

(** Computations of a request handler. *)
Definition Handler (A : Type) : Type := World S -> result A * World S.

Definition retH {A} (a : A) : Handler A := fun w => (Return a, w).

Definition bindH {A B} (m : Handler A) (k : A -> Handler B) : Handler B :=
  fun w => match m w with
           | (Return a, w') => k a w'
           | (Raise e, w') => (Raise e, w')
           end.

Definition raiseH {A} (e : exception) : Handler A := fun w => (Raise e, w).

Definition cache {A} (m : Engine.M A) : Handler A :=
  fun w => let (r, s') := m (redis w) in
           (r, {| prompt_versions := prompt_versions w;
                  deployments := deployments w; redis := s' |}).

Definition deploy_version (amb : Ambient) (request : DeployRequest)
  : Handler DeployResponse :=
  fun w =>
    match Versioning.get_version_by_hash (prompt_versions w) (version_hash request) with
    | None =>
        (Raise (HTTPException 404 ("Version not found: " +:+ version_hash request)), w)
    | Some version =>
        let current := deactivate_all (environment request) (deployments w) in
        let deployment :=
          Deployment.mk (uuid4 amb) (PromptVersion.id version) (environment request)
            (utcnow amb) (deployed_by request) None true in
        match insert_deployment deployment (prompt_versions w) current with
        | Raise e => (Raise e, w)
        | Return rows =>
            bindH (cache Engine.new_engine) (fun engine =>
            bindH (cache (Engine.invalidate_cache engine (environment request))) (fun _ =>
            retH {| success := true;
                    deployed_version_hash := PromptVersion.hash version;
                    deployed_environment := environment request;
                    deployed_at := Deployment.deployed_at deployment;
                    message := "Successfully deployed "
                               +:+ prefix 8 (PromptVersion.hash version)
                               +:+ " to " +:+ environment request |}))
              (with_deployments rows w)
        end
    end.

Definition rollback_deployment (environment : string) : Handler RollbackResponse :=
  fun w =>
    let rows := deployments w in
    match first_desc Deployment.deployed_at (List.filter (active_in environment) rows) with
    | None =>
        (Raise (HTTPException 404 ("No active deployment in " +:+ environment)), w)
    | Some current =>
        match first_desc Deployment.deployed_at
                (List.filter (other_in environment (Deployment.id current)) rows) with
        | None =>
            (Raise (HTTPException 400 "No previous deployment to rollback to"), w)
        | Some previous =>
            let rows' :=
              set_is_active (Deployment.id previous) true
                (set_is_active (Deployment.id current) false rows) in
            bindH (cache Engine.new_engine) (fun engine =>
            bindH (cache (Engine.invalidate_cache engine environment)) (fun _ =>
            bindH (fun w' => (version_hash8 (prompt_versions w') current, w')) (fun from8 =>
            bindH (fun w' => (version_hash8 (prompt_versions w') previous, w')) (fun to8 =>
            retH {| rollback_success := true;
                    rolled_back_from := from8;
                    rolled_back_to := to8;
                    rollback_environment := environment;
                    rollback_message := "Rolled back to " +:+ to8 |}))))
              (with_deployments rows' w)
        end
    end.

Definition get_active_prompt (environment : string) (name : option string)
  : Handler (P + PromptResponse) :=
  bindH (cache Engine.new_engine) (fun engine =>
  bindH (cache (Engine.get_from_cache engine environment name)) (fun cached =>
  let from_database : Handler (P + PromptResponse) :=
    fun w =>
      match first_desc Deployment.deployed_at
              (List.filter (active_in environment) (deployments w)) with
      | None =>
          (Raise (HTTPException 404
             ("No active prompt found for environment: " +:+ environment)), w)
      | Some deployment =>
          match Versioning.query_by_id (prompt_versions w)
                  (Deployment.version_id deployment) with
          | None =>
              (Raise (AttributeError "'NoneType' object has no attribute 'content'"), w)
          | Some version =>
              let metadata := PromptVersion.prompt_metadata version in
              match validate_prompt_response
                      {| response_content := PromptVersion.content version;
                         response_hash := PromptVersion.hash version;
                         response_version :=
                           dict_get metadata "version" (PStr "1.0.0");
                         response_model := dict_get metadata "model" (PStr "gpt-4");
                         response_temperature :=
                           dict_get metadata "temperature" (PFloat float_0_7);
                         response_metadata := metadata;
                         response_tags := PromptVersion.tags version;
                         response_deployed_at := Deployment.deployed_at deployment;
                         response_environment := environment |} with
              | Raise e => (Raise e, w)
              | Return response =>
                  bindH (cache (Engine.set_cache engine environment
                                  (response_dict response) name 3600))
                        (fun _ => retH (inr response)) w
              end
          end
      end in
  match cached with
  | Some c => if Engine.payload_truthy c then retH (inl c) else from_database
  | None => from_database
  end)).

(** A deploy or a rollback request, and the world after a sequence of them
    (whether each one returned or raised). *)
Inductive request : Type :=
| Deploy (amb : Ambient) (r : DeployRequest)
| Rollback (environment : string).

Definition handle (q : request) (w : World S) : World S :=
  match q with
  | Deploy amb r => snd (deploy_version amb r w)
  | Rollback e => snd (rollback_deployment e w)
  end.

Definition run (qs : list request) (w : World S) : World S :=
  fold_left (fun w q => handle q w) qs w.

End WithRedis.
End App.


(** ** What the properties observe *)

Module Observe.

(** The arguments of one call of [create_version]. *)
Record commit : Type := {
  commit_ambient : Ambient;
  commit_content : string;
  commit_metadata : gmap string pyval;
  commit_tags : pyval;
  commit_author : string;
  commit_message : string;
  commit_parent : option UUID
}.

Section WithLib.
Context {lib : PyLib} {pg : Postgres}.

Definition call (c : commit) (db : Versioning.table)
  : result PromptVersion.t * Versioning.table :=
  Versioning.create_version (commit_ambient c) (commit_content c)
    (commit_metadata c) (commit_tags c) (commit_author c) (commit_message c)
    (commit_parent c) db.

(** The store after a sequence of calls, starting from the empty table. *)
Definition store_after (cs : list commit) : Versioning.table :=
  fold_left (fun db c => snd (call c db)) cs [].

End WithLib.

(** Two metadata dicts agree on the keys that enter the hash. *)
Definition same_hashed_keys (m1 m2 : gmap string pyval) : Prop :=
  m1 !! "model" = m2 !! "model" /\
  m1 !! "temperature" = m2 !! "temperature" /\
  m1 !! "version" = m2 !! "version".

(** Number of rows of the store carrying hash [h]. *)
Definition rows_with_hash (h : string) (db : Versioning.table) : nat :=
  length (List.filter (fun v => String.eqb (PromptVersion.hash v) h) db).

(** Number of active rows of an environment. *)
Definition active_rows (environment : string) (rows : list Deployment.t) : nat :=
  length (List.filter (App.active_in environment) rows).

(** The primary key holds and no environment has two active rows. *)
Definition single_active (rows : list Deployment.t) : Prop :=
  NoDup (Deployment.id <$> rows) /\
  forall environment, active_rows environment rows <= 1.

(** Number of positions at which [is_active] goes from [before] to [after]
    between two states of the table. *)
Definition flips (before after : bool) (old new : list Deployment.t) : nat :=
  length (List.filter
            (fun p => Bool.eqb (Deployment.is_active (fst p)) before
                      && Bool.eqb (Deployment.is_active (snd p)) after)
            (combine old new)).

(** A string that neither starts nor ends with whitespace. *)
Definition trimmed (s : string) : Prop :=
  (forall a, first_char s = Some a -> isspace a = false) /\
  (forall a, last_char s = Some a -> isspace a = false).

(** The constraints that [models.py] declares on [prompt_versions]: primary
    key, unique hash, and a parent that is a row inserted earlier. *)
Record consistent (db : Versioning.table) : Prop := {
  ids_distinct : NoDup (PromptVersion.id <$> db);
  hashes_distinct : NoDup (PromptVersion.hash <$> db);
  parents_earlier : forall l1 v l2 p,
    db = l1 ++ v :: l2 -> PromptVersion.parent_id v = Some p ->
    p ∈ PromptVersion.id <$> l1
}.

(** Row [x] was inserted before row [y]. *)
Definition inserted_before (db : Versioning.table) (x y : PromptVersion.t) : Prop :=
  exists l1 l2 l3, db = l1 ++ x :: l2 ++ y :: l3.

(** Every element of the list is followed by its parent. *)
Fixpoint child_then_parent (l : list PromptVersion.t) : Prop :=
  match l with
  | a :: r =>
      match r with
      | b :: _ => PromptVersion.parent_id a = Some (PromptVersion.id b)
      | [] => True
      end /\ child_then_parent r
  | [] => True
  end.

(** Every element of the list was inserted after the one that follows it. *)
Fixpoint newest_first (db : Versioning.table) (l : list PromptVersion.t) : Prop :=
  match l with
  | a :: r =>
      match r with
      | b :: _ => inserted_before db b a
      | [] => True
      end /\ newest_first db r
  | [] => True
  end.

End Observe.
Import Observe.

(** ** Stand-ins used to evaluate the operations on concrete inputs *)

Module Doubles.

(** A digest that returns its input, and a [repr] that prints every float
    as [0.7]. *)
Definition plain_lib : PyLib :=
  {| sha256_hexdigest := fun s => s; float_repr := fun _ => "0.7" |}.

(** A Redis that keeps its keys in a map and never fails. Only patterns of
    the form [prefix*] are matched. *)
Definition drop_last (s : string) : string :=
  String.substring 0 (String.length s - 1) s.

Definition memory_redis : Engine.RedisClient (gmap string string) :=
  {| Engine.redis_from_url := fun _ s => (Return tt, s);
     Engine.redis_ping := fun s => (Return tt, s);
     Engine.redis_get := fun k s => (Return (s !! k), s);
     Engine.redis_setex := fun k _ v s => (Return tt, <[k := v]> s);
     Engine.redis_keys := fun pat s =>
       (Return (List.filter (String.prefix (drop_last pat)) (fst <$> map_to_list s)), s);
     Engine.redis_delete := fun ks s =>
       (Return (Z.of_nat (length ks)), foldr delete s ks) |}.

(** A Redis that accepts the connection and then fails on every call. *)
Definition broken_redis : Engine.RedisClient unit :=
  {| Engine.redis_from_url := fun _ s => (Return tt, s);
     Engine.redis_ping := fun s => (Return tt, s);
     Engine.redis_get := fun _ s => (Raise (RedisError "connection reset"), s);
     Engine.redis_setex := fun _ _ _ s => (Raise (RedisError "connection reset"), s);
     Engine.redis_keys := fun _ s => (Raise (RedisError "connection reset"), s);
     Engine.redis_delete := fun _ s => (Raise (RedisError "connection reset"), s) |}.

(** A Redis that cannot be reached at all. *)
Definition absent_redis : Engine.RedisClient unit :=
  {| Engine.redis_from_url := fun _ s => (Return tt, s);
     Engine.redis_ping := fun s => (Raise (RedisError "connection refused"), s);
     Engine.redis_get := fun _ s => (Raise (RedisError "connection refused"), s);
     Engine.redis_setex := fun _ _ _ s => (Raise (RedisError "connection refused"), s);
     Engine.redis_keys := fun _ s => (Raise (RedisError "connection refused"), s);
     Engine.redis_delete := fun _ s => (Raise (RedisError "connection refused"), s) |}.

(** Payloads that are their own JSON text. *)
Definition text_codec : Engine.JsonCodec string :=
  {| Engine.json_loads := fun s => Return s;
     Engine.json_dumps_default_str := fun p => Return p;
     Engine.payload_truthy := fun p => negb (String.eqb p "") |}.

(** A codec for which no text is valid JSON and no payload serialisable. *)
Definition failing_codec : Engine.JsonCodec string :=
  {| Engine.json_loads := fun _ => Raise (JSONDecodeError "Expecting value");
     Engine.json_dumps_default_str := fun _ => Raise (TypeError "not JSON serializable");
     Engine.payload_truthy := fun p => negb (String.eqb p "") |}.

(** A database that accepts every value, and one whose driver refuses a
    content with a NUL character. *)
Definition plain_postgres : Postgres :=
  {| accept_version := fun _ => Return tt;
     accept_deployment := fun _ => Return tt |}.

Fixpoint has_nul (s : string) : bool :=
  match s with
  | EmptyString => false
  | String a r => (nat_of_ascii a =? 0) || has_nul r
  end.

Definition strict_postgres : Postgres :=
  {| accept_version := fun v =>
       if has_nul (PromptVersion.content v)
       then Raise (ValueError "A string literal cannot contain NUL (0x00) characters.")
       else Return tt;
     accept_deployment := fun _ => Return tt |}.

(** A validation that accepts every response as it is, and one that wants
    [version] and [model] to be strings. *)
Definition lenient_pydantic : App.Pydantic :=
  {| App.validate_prompt_response := fun r => Return r |}.

Definition strict_pydantic : App.Pydantic :=
  {| App.validate_prompt_response := fun r =>
       match App.response_version r, App.response_model r with
       | PStr _, PStr _ => Return r
       | _, _ => Raise (ValueError "validation error for PromptResponse")
       end |}.

Definition amb (i : UUID) (now : Z) : Ambient := {| uuid4 := i; utcnow := now |}.

Definition version (i : UUID) (content hash : string) (parent : option UUID)
  : PromptVersion.t :=
  PromptVersion.mk i content hash parent "alice" (Z.of_nat i) (PList []) ∅.

(** Two versions; the first deployed to staging, then the second. *)
Definition staging_twice : App.World unit :=
  {| App.prompt_versions := [version 1 "Summarize: {text}" "aaaa" None;
                             version 2 "Summarise: {text}" "bbbb" (Some 1)];
     App.deployments := [Deployment.mk 11 1 "staging" 100 "alice" None false;
                         Deployment.mk 12 2 "staging" 200 "alice" None true];
     App.redis := tt |}.

Definition gpt4_metadata : gmap string pyval :=
  <["name" := PStr "summary"]> (<["model" := PStr "gpt-4"]>
    (<["temperature" := PFloat float_0_7]> (<["version" := PStr "1.0.0"]> ∅))).

(** The same model, temperature and version under another name and with a
    token limit. *)
Definition gpt4_metadata_renamed : gmap string pyval :=
  <["name" := PStr "digest"]> (<["max_tokens" := PInt 256]>
    (<["model" := PStr "gpt-4"]> (<["temperature" := PFloat float_0_7]>
      (<["version" := PStr "1.0.0"]> ∅)))).

(** The metadata that states the defaults of [compute_hash]. *)
Definition default_metadata : gmap string pyval :=
  <["model" := PStr ""]> (<["temperature" := PFloat float_0_7]>
    (<["version" := PStr "1.0.0"]> ∅)).

(** A first commit and a second one on top of it. *)
Definition two_commits : list Observe.commit :=
  [ {| Observe.commit_ambient := amb 1 10;
       Observe.commit_content := "Summarize: {text}";
       Observe.commit_metadata := gpt4_metadata;
       Observe.commit_tags := PList [];
       Observe.commit_author := "alice";
       Observe.commit_message := "first";
       Observe.commit_parent := None |};
    {| Observe.commit_ambient := amb 2 20;
       Observe.commit_content := "Summarise: {text}";
       Observe.commit_metadata := gpt4_metadata;
       Observe.commit_tags := PList [PStr "uk"];
       Observe.commit_author := "bob";
       Observe.commit_message := "second";
       Observe.commit_parent := Some 1 |} ].

(** The two requests that lead to [staging_twice]. *)
Definition deploy_twice : list App.request :=
  [ App.Deploy (amb 11 100)
      {| App.version_hash := "aaaa"; App.environment := "staging";
         App.deployed_by := "alice" |};
    App.Deploy (amb 12 200)
      {| App.version_hash := "bbbb"; App.environment := "staging";
         App.deployed_by := "alice" |} ].

(** The tables of a world, with no Redis behind them. *)
Definition without_redis {S} (w : App.World S) : App.World unit :=
  {| App.prompt_versions := App.prompt_versions w;
     App.deployments := App.deployments w;
     App.redis := tt |}.

End Doubles.

(** ** [promptops/api/app.py]: [get_deployment_history] *)

Module AppHistory.

(** [order_by(key.desc())]: the rows by decreasing key, rows of equal key in
    the order of insertion. *)
Fixpoint insert_desc {A} (key : A -> Z) (x : A) (l : list A) : list A :=
  match l with
  | [] => [x]
  | y :: r => if (key y <=? key x)%Z then x :: l else y :: insert_desc key x r
  end.

Definition order_by_desc {A} (key : A -> Z) (rows : list A) : list A :=
  foldr (insert_desc key) [] rows.

(** What the database answers to a query it refuses. *)
Inductive sqlalchemy_error : Type :=
| DataError (msg : string).

Record HistoryEntry : Type := {
  entry_version_hash : string;
  entry_deployed_at : Z;
  entry_deployed_by : string;
  entry_is_active : bool
}.

Record HistoryResponse : Type := {
  history_environment : string;
  history_count : nat;
  history_deployments : list HistoryEntry
}.

(** The list comprehension over the rows fetched. *)
Fixpoint entries (versions : Versioning.table) (ds : list Deployment.t)
  : result (list HistoryEntry) :=
  match ds with
  | [] => Return []
  | d :: rest =>
      match App.version_hash8 versions d with
      | Raise e => Raise e
      | Return h8 =>
          match entries versions rest with
          | Raise e => Raise e
          | Return es =>
              Return ({| entry_version_hash := h8;
                         entry_deployed_at := Deployment.deployed_at d;
                         entry_deployed_by := Deployment.deployed_by d;
                         entry_is_active := Deployment.is_active d |} :: es)
          end
      end
  end.

(** The rows that the query returns. [limit] is any Python [int]; PostgreSQL
    takes LIMIT as a [bigint]: it refuses a number outside the range of the
    type, and a negative one. *)
Definition fetch (rows : list Deployment.t) (environment : string) (limit : Z)
  : sqlalchemy_error + list Deployment.t :=
  if (limit <? - 2 ^ 63)%Z || (2 ^ 63 <=? limit)%Z
  then inl (DataError "bigint out of range")
  else if (limit <? 0)%Z then inl (DataError "LIMIT must not be negative")
  else inr (firstn (Z.to_nat limit)
              (order_by_desc Deployment.deployed_at
                 (List.filter (App.in_environment environment) rows))).

Definition get_deployment_history {S} (environment : string) (limit : Z)
    (w : App.World S) : sqlalchemy_error + result HistoryResponse :=
  match fetch (App.deployments w) environment limit with
  | inl err => inl err
  | inr deployments =>
      inr (match entries (App.prompt_versions w) deployments with
           | Raise e => Raise e
           | Return es =>
               Return {| history_environment := environment;
                         history_count := length deployments;
                         history_deployments := es |}
           end)
  end.

End AppHistory.

(** ** [promptops/cli/commands.py]: [deploy_command] *)

Module CliDeploy.


(** How the command ends: normally, or by [typer.Exit(code)]. *)
Inductive outcome : Type :=
| Completed
| Exit (code : Z).



Section WithRedis.
Context {S : Type} {RC : Engine.RedisClient S} {pg : Postgres}.


End WithRedis.
End CliDeploy.

(** ** What the further properties observe *)

Module Reach.

(** Every deployment refers to a stored version (the foreign key). *)
Definition references_stored (versions : Versioning.table)
    (rows : list Deployment.t) : Prop :=
  forall d, In d rows ->
    is_Some (Versioning.query_by_id versions (Deployment.version_id d)).

(** An environment that has a row has exactly one active row. *)
Definition deployed_is_active (rows : list Deployment.t) : Prop :=
  forall e, List.filter (App.in_environment e) rows <> [] -> active_rows e rows = 1.

(** What holds of the tables after deploys and rollbacks. *)
Record sound {S} (w : App.World S) : Prop := {
  sound_single : single_active (App.deployments w);
  sound_references : references_stored (App.prompt_versions w) (App.deployments w);
  sound_active : deployed_is_active (App.deployments w)
}.

(** The columns of a deployment that record the event. *)
Definition audit (d : Deployment.t) :
    UUID * UUID * string * Z * string * option UUID :=
  (Deployment.id d, Deployment.version_id d, Deployment.environment d,
   Deployment.deployed_at d, Deployment.deployed_by d,
   Deployment.rollback_version_id d).

(** The list is ordered by decreasing [deployed_at]. *)
Fixpoint descending (l : list Deployment.t) : Prop :=
  match l with
  | [] => True
  | d :: r =>
      (forall d', In d' r -> (Deployment.deployed_at d' <= Deployment.deployed_at d)%Z)
      /\ descending r
  end.

(** An entry of the history shows a row. *)
Definition shows (versions : Versioning.table) (d : Deployment.t)
    (entry : AppHistory.HistoryEntry) : Prop :=
  App.version_hash8 versions d = Return (AppHistory.entry_version_hash entry) /\
  AppHistory.entry_deployed_at entry = Deployment.deployed_at d /\
  AppHistory.entry_deployed_by entry = Deployment.deployed_by d /\
  AppHistory.entry_is_active entry = Deployment.is_active d.

(** The response that [get_active_prompt] builds from a deployment and the
    version it refers to. *)
Definition built_response (e : string) (deployment : Deployment.t)
    (version : PromptVersion.t) : App.PromptResponse :=
  {| App.response_content := PromptVersion.content version;
     App.response_hash := PromptVersion.hash version;
     App.response_version :=
       dict_get (PromptVersion.prompt_metadata version) "version" (PStr "1.0.0");
     App.response_model :=
       dict_get (PromptVersion.prompt_metadata version) "model" (PStr "gpt-4");
     App.response_temperature :=
       dict_get (PromptVersion.prompt_metadata version) "temperature"
         (PFloat float_0_7);
     App.response_metadata := PromptVersion.prompt_metadata version;
     App.response_tags := PromptVersion.tags version;
     App.response_deployed_at := Deployment.deployed_at deployment;
     App.response_environment := e |}.

(** What [get_active_prompt] answers when it reads the tables: 404 with no
    active row, otherwise what pydantic makes of the response built from the
    most recent active row and its version. *)
Definition from_tables {S P : Type} {PV : App.Pydantic} (environment : string)
    (w : App.World S) : result (P + App.PromptResponse) :=
  match first_desc Deployment.deployed_at
          (List.filter (App.active_in environment) (App.deployments w)) with
  | None =>
      Raise (HTTPException 404
               ("No active prompt found for environment: " +:+ environment))
  | Some deployment =>
      match Versioning.query_by_id (App.prompt_versions w)
              (Deployment.version_id deployment) with
      | None => Raise (AttributeError "'NoneType' object has no attribute 'content'")
      | Some version =>
          match App.validate_prompt_response
                  (built_response environment deployment version) with
          | Return response => Return (inr response)
          | Raise err => Raise err
          end
      end
  end.

(** The payload that [get_active_prompt] serves from a cache with the given
    contents: the text under the key, if it is not empty, parses, and parses
    to a truthy value. *)
Definition served {P : Type} {JC : Engine.JsonCodec P}
    (contents : gmap string string) (key : string) : option P :=
  match contents !! key with
  | Some c =>
      if negb (String.eqb c "")
      then match Engine.json_loads c with
           | Return v => if Engine.payload_truthy v then Some v else None
           | Raise _ => None
           end
      else None
  | None => None
  end.

(** The environment that a request is about. *)
Definition target (q : App.request) : string :=
  match q with
  | App.Deploy _ r => App.environment r
  | App.Rollback e => e
  end.

End Reach.

(** ** A Redis that behaves as a map *)

Module RedisLaws.

(** The characters that a glob pattern of [KEYS] gives a meaning to. *)
Definition glob_special (a : ascii) : bool :=
  let n := nat_of_ascii a in
  (n =? 42) || (n =? 63) || (n =? 91) || (n =? 92) || (n =? 93).

Fixpoint glob_free (s : string) : bool :=
  match s with
  | EmptyString => true
  | String a r => negb (glob_special a) && glob_free r
  end.

Fixpoint colon_free (s : string) : bool :=
  match s with
  | EmptyString => true
  | String a r => negb (nat_of_ascii a =? 58) && colon_free r
  end.

(** The client is connected to a server that is up, keeps what it is given
    (nothing expires or is evicted between the calls considered, and there is
    no other writer), and answers [KEYS prefix*], for a prefix without glob
    characters, with the keys that start with the prefix. [contents] reads
    the keys and values off the state. *)
Class Lawful {S : Type} (RC : Engine.RedisClient S)
    (contents : S -> gmap string string) : Prop := {
  lawful_from_url : forall url s,
    exists s', Engine.redis_from_url url s = (Return tt, s') /\
               contents s' = contents s;
  lawful_ping : forall s,
    exists s', Engine.redis_ping s = (Return tt, s') /\ contents s' = contents s;
  lawful_get : forall k s,
    exists s', Engine.redis_get k s = (Return (contents s !! k), s') /\
               contents s' = contents s;
  lawful_setex : forall k ttl v s, (0 < ttl)%Z ->
    exists s', Engine.redis_setex k ttl v s = (Return tt, s') /\
               contents s' = <[k := v]> (contents s);
  lawful_keys : forall p s, glob_free p = true ->
    exists ks s', Engine.redis_keys (p +:+ "*") s = (Return ks, s') /\
                  contents s' = contents s /\
                  forall k, In k ks <->
                            is_Some (contents s !! k) /\ String.prefix p k = true;
  lawful_delete : forall ks s,
    exists n s', Engine.redis_delete ks s = (Return n, s') /\
                 contents s' = foldr delete (contents s) ks
}.

(** The prefix of the cache keys of an environment. *)
Definition key_prefix (environment : string) : string :=
  "promptops:prompt:" +:+ environment +:+ ":".

End RedisLaws.

(** ** [promptops/core/models.py]: [EvalResult] *)

Module EvalResult.
(** A row of [eval_results]. *)
Record t : Type := mk {
  id : UUID;
  version_id : UUID;
  score_accuracy : option float;
  score_hallucination : option float;
  score_relevance : option float;
  score_latency_p95 : option float;
  score_consistency : option float;
  dataset_id : option UUID;
  created_at : Z
}.
End EvalResult.

(** ** Python numbers: [int] and [float] in arithmetic and comparisons *)

Module Number.

(** [float(z)]: the nearest binary64, ties to even. (Python raises
    [OverflowError] beyond the range of binary64; the integers converted
    here are [0], [200], [1000] and the length of a prompt.) *)
Definition float_of_int (z : Z) : float :=
  FloatOps.SF2Prim (SpecFloat.binary_normalize FloatOps.prec FloatOps.emax z 0 false).

Inductive number : Type :=
| Int (z : Z)
| Float (f : float).

(** [x or 0] for an optional float [x]: [None] and the two zeros are falsy. *)
Definition or_zero (x : option float) : number :=
  match x with
  | Some f => if truthy (PFloat f) then Float f else Int 0
  | None => Int 0
  end.

(** [a - b] *)
Definition sub (a b : number) : number :=
  match a, b with
  | Int x, Int y => Int (x - y)%Z
  | Int x, Float y => Float (float_of_int x - y)%float
  | Float x, Int y => Float (x - float_of_int y)%float
  | Float x, Float y => Float (x - y)%float
  end.

(** [a < b]. Python compares an [int] with a [float] exactly; the integers
    compared here are exactly representable, so that converting them gives
    the same answer. *)
Definition lt (a b : number) : bool :=
  match a, b with
  | Int x, Int y => (x <? y)%Z
  | Int x, Float y => PrimFloat.ltb (float_of_int x) y
  | Float x, Int y => PrimFloat.ltb x (float_of_int y)
  | Float x, Float y => PrimFloat.ltb x y
  end.

(** [a > b] *)
Definition gt (a b : number) : bool := lt b a.

(** [min(a, b)] and [max(a, b)] of two floats: the first argument, unless
    the second is strictly smaller (greater). *)
Definition min (a b : float) : float := if PrimFloat.ltb b a then b else a.

Definition max (a b : float) : float := if PrimFloat.ltb a b then b else a.

End Number.

(** ** [promptops/eval/engine.py] *)

Module EvalEngine.

(** A registered scorer: its [name] and what its [score] does, called with
    the prompt, the metadata and the number of samples. *)
Record Scorer : Type := {
  name : string;
  score : string -> gmap string pyval -> Z -> result float
}.

(** One turn of the loop over [self.scorers]. *)
Definition run_scorer (version : PromptVersion.t) (num_samples : Z)
    (scores : gmap string (option float)) (scorer : Scorer)
  : gmap string (option float) :=
  match score scorer (PromptVersion.content version)
          (PromptVersion.prompt_metadata version) num_samples with
  | Return x => <[name scorer := Some x]> scores
  | Raise _ => <[name scorer := None]> scores
  end.

(** [scores.get(k)] *)
Definition scores_get (scores : gmap string (option float)) (k : string)
  : option float :=
  default None (scores !! k).

(** [db.add(result); db.commit()] on [eval_results]: the primary key and the
    foreign key on [version_id]. *)
Definition insert_eval_result (row : EvalResult.t) (versions : Versioning.table)
    (rows : list EvalResult.t) : result (list EvalResult.t) :=
  if existsb (fun r => Nat.eqb (EvalResult.id r) (EvalResult.id row)) rows
  then Raise (IntegrityError "eval_results_pkey")
  else if existsb (fun v => Nat.eqb (PromptVersion.id v) (EvalResult.version_id row))
            versions
  then Return (rows ++ [row])
  else Raise (IntegrityError "eval_results_version_id_fkey").

(** [EvaluationEngine.evaluate] *)
Definition evaluate (amb : Ambient) (scorers : list Scorer)
    (version : PromptVersion.t) (dataset_id : option UUID) (num_samples : Z)
    (versions : Versioning.table) (rows : list EvalResult.t)
  : result EvalResult.t * list EvalResult.t :=
  let scores := fold_left (run_scorer version num_samples) scorers ∅ in
  let result :=
    EvalResult.mk (uuid4 amb) (PromptVersion.id version)
      (scores_get scores "accuracy")
      (scores_get scores "hallucination")
      (scores_get scores "relevance")
      (scores_get scores "latency_p95")
      (scores_get scores "consistency")
      dataset_id (utcnow amb) in
  match insert_eval_result result versions rows with
  | Return rows' => (Return result, rows')
  | Raise e => (Raise e, rows)
  end.

(** [EvaluationEngine.get_results]: the rows of a version, in the order of
    the table. *)
Definition get_results (rows : list EvalResult.t) (version_id : UUID)
  : list EvalResult.t :=
  List.filter (fun r => Nat.eqb (EvalResult.version_id r) version_id) rows.

(** The dict that [compare_versions] returns when both versions have
    results; [str(version_id)] is kept as the id. *)
Record Comparison : Type := {
  version_a : UUID;
  version_b : UUID;
  deltas : list (string * Number.number);
  regression_detected : bool
}.

Definition minus_0_05 : float := (-0x1.999999999999ap-5)%float.

(** One turn of the loop over [comparison["deltas"].items()]. *)
Definition regression_step (flag : bool) (item : string * Number.number) : bool :=
  let (metric, delta) := item in
  if String.eqb metric "latency_p95"
  then (if Number.gt delta (Number.Int 200) then true else flag)
  else (if Number.lt delta (Number.Float minus_0_05) then true else flag).

(** [EvaluationEngine.compare_versions]; the left summand is the dict
    [{"error": ...}]. *)
Definition compare_versions (rows : list EvalResult.t)
    (version_a_id version_b_id : UUID) : string + Comparison :=
  let results_a := get_results rows version_a_id in
  let results_b := get_results rows version_b_id in
  match last results_a, last results_b with
  | Some latest_a, Some latest_b =>
      let delta (column : EvalResult.t -> option float) : Number.number :=
        Number.sub (Number.or_zero (column latest_b))
                   (Number.or_zero (column latest_a)) in
      let deltas :=
        [("accuracy", delta EvalResult.score_accuracy);
         ("hallucination", delta EvalResult.score_hallucination);
         ("relevance", delta EvalResult.score_relevance);
         ("latency_p95", delta EvalResult.score_latency_p95);
         ("consistency", delta EvalResult.score_consistency)] in
      inr {| version_a := version_a_id;
             version_b := version_b_id;
             deltas := deltas;
             regression_detected := fold_left regression_step deltas false |}
  | _, _ => inl "Missing evaluation results"
  end.

End EvalEngine.

(** ** [promptops/eval/scorers.py] *)

Module Scorers.

(** What [random.uniform] returns in the five scorers during one
    evaluation. *)
Record Draws : Type := {
  accuracy_variance : float;
  hallucination_uniform : float;
  relevance_uniform : float;
  latency_uniform : float;
  consistency_uniform : float
}.

(** [len(prompt)] *)
Definition len (s : string) : Z := Z.of_nat (String.length s).

(** [AccuracyScorer.score]. [len(prompt) / 1000] is the quotient of the two
    integers rounded once, which is the quotient of their conversions as long
    as the length is below [2^53]. *)
Definition accuracy_score (prompt : string) (variance : float) : float :=
  let base_score :=
    Number.min (Number.float_of_int (len prompt) / Number.float_of_int 1000)%float
               0x1.e666666666666p-1%float in
  Number.max 0%float (Number.min 1%float (base_score + variance)%float).

Definition AccuracyScorer (variance : float) : EvalEngine.Scorer :=
  {| EvalEngine.name := "accuracy";
     EvalEngine.score := fun prompt _ _ => Return (accuracy_score prompt variance) |}.

(** [HallucinationScorer]; [ragas_available] is whether the import in its
    constructor succeeded. *)
Definition HallucinationScorer (ragas_available : bool) (uniform : float)
  : EvalEngine.Scorer :=
  {| EvalEngine.name := "hallucination";
     EvalEngine.score := fun _ _ _ =>
       if negb ragas_available then Return 0x1.b333333333333p-1%float
       else Return uniform |}.

Definition RelevanceScorer (uniform : float) : EvalEngine.Scorer :=
  {| EvalEngine.name := "relevance";
     EvalEngine.score := fun _ _ _ => Return uniform |}.

(** [LatencyScorer] and [ConsistencyScorer] with no [llm_client], as
    [create_default_scorers()] builds them. *)
Definition LatencyScorer (uniform : float) : EvalEngine.Scorer :=
  {| EvalEngine.name := "latency_p95";
     EvalEngine.score := fun prompt _ _ =>
       let base_latency :=
         (Number.float_of_int 200
          + Number.float_of_int (len prompt) * 0x1.0000000000000p-1)%float in
       Return (base_latency + uniform)%float |}.

Definition ConsistencyScorer (uniform : float) : EvalEngine.Scorer :=
  {| EvalEngine.name := "consistency";
     EvalEngine.score := fun prompt _ _ =>
       let base_consistency :=
         if (200 <? len prompt)%Z then 0x1.b333333333333p-1%float
         else 0x1.8000000000000p-1%float in
       Return (base_consistency + uniform)%float |}.

Definition create_default_scorers (ragas_available : bool) (draws : Draws)
  : list EvalEngine.Scorer :=
  [AccuracyScorer (accuracy_variance draws);
   HallucinationScorer ragas_available (hallucination_uniform draws);
   RelevanceScorer (relevance_uniform draws);
   LatencyScorer (latency_uniform draws);
   ConsistencyScorer (consistency_uniform draws)].

End Scorers.

(** ** [promptops/cli/commands.py]: [eval_command] *)

Module CliEval.

(** The version that the command evaluates: the one with the hash given,
    or HEAD. *)
Definition select_version (version_hash : option string)
    (versions : Versioning.table) : option PromptVersion.t :=
  match version_hash with
  | Some h => if String.eqb h "" then Versioning.get_current_head versions
              else Versioning.get_version_by_hash versions h
  | None => Versioning.get_current_head versions
  end.

(** How the command ends and what it leaves in [eval_results]; the tables
    it prints are not modelled. Every exception raised inside the [try],
    [typer.Exit] and the [KeyError] of [comparison["deltas"]] on the error
    dict included, ends the command with [typer.Exit(1)]. *)
Definition eval_command (amb : Ambient) (ragas_available : bool)
    (draws : Scorers.Draws) (run : bool) (version_hash : option string)
    (compare : bool) (samples : Z)
    (versions : Versioning.table) (rows : list EvalResult.t)
  : CliDeploy.outcome * list EvalResult.t :=
  match select_version version_hash versions with
  | None => (CliDeploy.Exit 1, rows)
  | Some version =>
      if negb run then (CliDeploy.Completed, rows)
      else
        match EvalEngine.evaluate amb
                (Scorers.create_default_scorers ragas_available draws)
                version None samples versions rows with
        | (Raise _, rows') => (CliDeploy.Exit 1, rows')
        | (Return _, rows') =>
            match (if compare then PromptVersion.parent_id version else None) with
            | Some parent_id =>
                match EvalEngine.compare_versions rows' parent_id
                        (PromptVersion.id version) with
                | inl _ => (CliDeploy.Exit 1, rows')
                | inr _ => (CliDeploy.Completed, rows')
                end
            | None => (CliDeploy.Completed, rows')
            end
        end
  end.

End CliEval.

(** ** What the properties of the evaluation observe *)

Module EvalObserve.

(** What the last scorer registered under a name did, [None] when it raised
    or when there is none. *)
Definition last_outcome (scorers : list EvalEngine.Scorer)
    (version : PromptVersion.t) (num_samples : Z) (column : string)
  : option float :=
  match last (List.filter (fun s => String.eqb (EvalEngine.name s) column) scorers) with
  | Some s =>
      match EvalEngine.score s (PromptVersion.content version)
              (PromptVersion.prompt_metadata version) num_samples with
      | Return x => Some x
      | Raise _ => None
      end
  | None => None
  end.

(** The metrics for which a higher score is better, and the score of a row
    under a metric. *)
Definition higher_is_better : list string :=
  ["accuracy"; "hallucination"; "relevance"; "consistency"].

Definition column (metric : string) (row : EvalResult.t) : option float :=
  if String.eqb metric "accuracy" then EvalResult.score_accuracy row
  else if String.eqb metric "hallucination" then EvalResult.score_hallucination row
  else if String.eqb metric "relevance" then EvalResult.score_relevance row
  else if String.eqb metric "latency_p95" then EvalResult.score_latency_p95 row
  else if String.eqb metric "consistency" then EvalResult.score_consistency row
  else None.

(** Every score of the row is set. *)
Definition fully_scored (row : EvalResult.t) : Prop :=
  is_Some (EvalResult.score_accuracy row) /\
  is_Some (EvalResult.score_hallucination row) /\
  is_Some (EvalResult.score_relevance row) /\
  is_Some (EvalResult.score_latency_p95 row) /\
  is_Some (EvalResult.score_consistency row).

End EvalObserve.

(** * Properties *)

(** ** The content hash and [create_version] *)

Section HashProperties.
Context {lib : PyLib} {pg : Postgres}.

Lemma compute_hash_same_keys content m1 m2 :
  same_hashed_keys m1 m2 ->
  Versioning.compute_hash content m1 = Versioning.compute_hash content m2.
Proof.
  intros (Hm & Ht & Hv).
  unfold Versioning.compute_hash, Versioning.hashable, dict_get.
  now rewrite Hm, Ht, Hv.
Qed.

Lemma query_by_hash_hash db h v :
  Versioning.query_by_hash db h = Some v -> PromptVersion.hash v = h.
Proof.
  unfold Versioning.query_by_hash. intros Hf.
  apply find_some in Hf as [_ Heq]. now apply String.eqb_eq.
Qed.

Lemma query_by_hash_In db h v :
  Versioning.query_by_hash db h = Some v -> In v db.
Proof.
  unfold Versioning.query_by_hash. intros Hf. now apply find_some in Hf.
Qed.

Lemma query_by_hash_snoc db h v :
  Versioning.query_by_hash db h = None -> PromptVersion.hash v = h ->
  Versioning.query_by_hash (db ++ [v]) h = Some v.
Proof.
  unfold Versioning.query_by_hash. intros Hn Hh.
  induction db as [|x db IH]; simpl in *.
  - now rewrite Hh, String.eqb_refl.
  - destruct (String.eqb (PromptVersion.hash x) h); [discriminate | auto].
Qed.

Lemma insert_version_inv row db db' :
  Versioning.insert_version row db = Return db' -> db' = db ++ [row].
Proof.
  unfold Versioning.insert_version. intros Hi.
  destruct (accept_version row); [|discriminate].
  repeat match type of Hi with
         | (if ?b then _ else _) = _ => destruct b
         | match ?o with Some _ => _ | None => _ end = _ => destruct o
         end; congruence.
Qed.

(** What a returning call of [create_version] did: it found a row with the
    hash already there, or appended the row it built. *)
Lemma create_version_cases amb content metadata tags author message parent db n db' :
  Versioning.create_version amb content metadata tags author message parent db
    = (Return n, db') ->
  let h := Versioning.compute_hash content metadata in
  (Versioning.query_by_hash db h = Some n /\ db' = db) \/
  (Versioning.query_by_hash db h = None /\ db' = db ++ [n] /\
   n = PromptVersion.mk (uuid4 amb) content h parent author (utcnow amb) tags
         (<["commit_message" := PStr message]> metadata)).
Proof.
  unfold Versioning.create_version. cbv zeta.
  destruct (Versioning.query_by_hash db _) as [existing|] eqn:Hq.
  - intros [= <- <-]. now left.
  - destruct (Versioning.insert_version _ db) as [db1|e] eqn:Hi; intros [= <- <-].
    right. apply insert_version_inv in Hi. auto.
Qed.

Lemma create_version_existing amb content metadata tags author message parent db n :
  Versioning.query_by_hash db (Versioning.compute_hash content metadata) = Some n ->
  Versioning.create_version amb content metadata tags author message parent db
    = (Return n, db).
Proof. unfold Versioning.create_version. cbv zeta. now intros ->. Qed.

Lemma create_version_stored amb content metadata tags author message parent db n db' :
  Versioning.create_version amb content metadata tags author message parent db
    = (Return n, db') ->
  Versioning.query_by_hash db' (Versioning.compute_hash content metadata) = Some n.
Proof.
  intros Hc. apply create_version_cases in Hc as [[Hq ->]|(Hq & -> & ->)]; [easy|].
  now apply query_by_hash_snoc.
Qed.

End HashProperties.

(** ** Tables with a key column *)

Section Keyed.
Context {A K : Type} (key : A -> K) (eqb : K -> K -> bool).
Hypothesis eqb_spec : forall a b, eqb a b = true <-> a = b.

Lemma eqb_same a : eqb a a = true.
Proof. now apply eqb_spec. Qed.

Lemma eqb_differ a b : a <> b -> eqb a b = false.
Proof.
  intros Hne. destruct (eqb a b) eqn:E; [|reflexivity].
  now apply eqb_spec in E.
Qed.

Lemma existsb_key_true (l : list A) k :
  existsb (fun x => eqb (key x) k) l = true <-> k ∈ key <$> l.
Proof.
  induction l as [|x l IH]; simpl.
  - split; [discriminate | intros Hin; inversion Hin].
  - rewrite orb_true_iff, IH, elem_of_cons, eqb_spec. intuition.
Qed.

Lemma existsb_key_false (l : list A) k :
  existsb (fun x => eqb (key x) k) l = false <-> k ∉ key <$> l.
Proof.
  rewrite <- existsb_key_true. destruct (existsb _ l); intuition congruence.
Qed.

Lemma filter_key_absent (l : list A) k :
  k ∉ key <$> l -> List.filter (fun y => eqb (key y) k) l = [].
Proof.
  induction l as [|z l IH]; [reflexivity|]. simpl. intros Hk.
  apply not_elem_of_cons in Hk as [Hz Hk].
  rewrite eqb_differ by congruence. auto.
Qed.

(** With distinct keys, looking a row up by its key finds that row. *)
Lemma find_key_row (l : list A) x :
  NoDup (key <$> l) -> x ∈ l ->
  find (fun y => eqb (key y) (key x)) l = Some x.
Proof.
  induction l as [|y l IH]; intros Hnd Hin; [inversion Hin|].
  simpl in *. apply NoDup_cons in Hnd as [Hy Hnd].
  apply elem_of_cons in Hin as [->|Hin].
  - now rewrite eqb_same.
  - rewrite eqb_differ; [auto|].
    intros Heq. apply Hy. rewrite Heq. now apply list_elem_of_fmap_2.
Qed.

(** With distinct keys, exactly one row carries the key of a row present. *)
Lemma filter_key_unique (l : list A) x :
  NoDup (key <$> l) -> x ∈ l ->
  List.filter (fun y => eqb (key y) (key x)) l = [x].
Proof.
  induction l as [|y l IH]; intros Hnd Hin; [inversion Hin|].
  simpl in *. apply NoDup_cons in Hnd as [Hy Hnd].
  apply elem_of_cons in Hin as [->|Hin].
  - rewrite eqb_same, filter_key_absent; auto.
  - rewrite eqb_differ; [auto|].
    intros Heq. apply Hy. rewrite Heq. now apply list_elem_of_fmap_2.
Qed.

End Keyed.

(** ** The version store keeps its constraints *)

Section StoreProperties.
Context {lib : PyLib} {pg : Postgres}.

Lemma insert_version_checks row db db' :
  Versioning.insert_version row db = Return db' ->
  (PromptVersion.id row ∉ PromptVersion.id <$> db) /\
  (PromptVersion.hash row ∉ PromptVersion.hash <$> db) /\
  (forall p, PromptVersion.parent_id row = Some p -> p ∈ PromptVersion.id <$> db).
Proof.
  unfold Versioning.insert_version.
  destruct (accept_version row); [|discriminate].
  destruct (existsb _ db) eqn:Eid; [discriminate|].
  destruct (existsb (fun v => String.eqb _ _) db) eqn:Eh; [discriminate|].
  apply (existsb_key_false PromptVersion.id Nat.eqb Nat.eqb_eq) in Eid.
  apply (existsb_key_false PromptVersion.hash String.eqb String.eqb_eq) in Eh.
  intros Hi. repeat split; auto.
  intros p Hp. rewrite Hp in Hi.
  destruct (existsb _ db) eqn:Ep; [|discriminate].
  now apply (existsb_key_true PromptVersion.id Nat.eqb Nat.eqb_eq) in Ep.
Qed.

Lemma snoc_split {A} (db l1 l2 : list A) (n v : A) :
  db ++ [n] = l1 ++ v :: l2 ->
  (l2 = [] /\ l1 = db /\ v = n) \/ (exists l2', l2 = l2' ++ [n] /\ db = l1 ++ v :: l2').
Proof.
  destruct l2 as [|x l2 _] using rev_ind; intros Heq.
  - left. change (l1 ++ [v]) with (l1 ++ [v]) in Heq.
    apply app_inj_tail in Heq as [-> ->]. auto.
  - right. exists l2.
    change (l1 ++ v :: l2 ++ [x]) with (l1 ++ (v :: l2) ++ [x]) in Heq.
    rewrite app_assoc in Heq. apply app_inj_tail in Heq as [-> ->]. auto.
Qed.

Lemma consistent_nil : consistent [].
Proof.
  split; simpl; try apply NoDup_nil_2.
  intros [|] ? ? ? Heq; discriminate.
Qed.

Lemma consistent_snoc db row :
  consistent db ->
  PromptVersion.id row ∉ PromptVersion.id <$> db ->
  PromptVersion.hash row ∉ PromptVersion.hash <$> db ->
  (forall p, PromptVersion.parent_id row = Some p -> p ∈ PromptVersion.id <$> db) ->
  consistent (db ++ [row]).
Proof.
  intros [Hid Hh Hp] Hnid Hnh Hpar. split.
  - rewrite fmap_app. apply NoDup_app. repeat split; auto.
    + intros x Hx Hin. apply list_elem_of_singleton in Hin. now subst.
    + apply NoDup_singleton.
  - rewrite fmap_app. apply NoDup_app. repeat split; auto.
    + intros x Hx Hin. apply list_elem_of_singleton in Hin. now subst.
    + apply NoDup_singleton.
  - intros l1 v l2 p Heq Hv.
    apply snoc_split in Heq as [(-> & -> & ->)|(l2' & -> & ->)]; eauto.
Qed.

Lemma create_version_consistent amb content metadata tags author message parent db :
  consistent db ->
  consistent (snd (Versioning.create_version amb content metadata tags author
                     message parent db)).
Proof.
  intros Hc. unfold Versioning.create_version. cbv zeta.
  destruct (Versioning.query_by_hash db _); [exact Hc|].
  destruct (Versioning.insert_version _ db) as [db'|e] eqn:Hi; [|exact Hc].
  simpl. pose proof (insert_version_inv _ _ _ Hi) as ->.
  apply insert_version_checks in Hi as (H1 & H2 & H3).
  now apply consistent_snoc.
Qed.

Lemma fold_commits_consistent cs db :
  consistent db -> consistent (fold_left (fun db c => snd (call c db)) cs db).
Proof.
  revert db. induction cs as [|c cs IH]; intros db Hc; [exact Hc|].
  simpl. apply IH. now apply create_version_consistent.
Qed.

Lemma store_after_consistent cs : consistent (store_after cs).
Proof. apply fold_commits_consistent, consistent_nil. Qed.

Lemma rows_with_hash_present db v :
  consistent db -> v ∈ db -> rows_with_hash (PromptVersion.hash v) db = 1.
Proof.
  intros [_ Hh _] Hin. unfold rows_with_hash.
  now rewrite (filter_key_unique PromptVersion.hash String.eqb String.eqb_eq).
Qed.

Lemma rows_with_hash_zero db h :
  rows_with_hash h db = 0 <-> Versioning.query_by_hash db h = None.
Proof.
  unfold rows_with_hash, Versioning.query_by_hash.
  induction db as [|x db IH]; simpl; [tauto|].
  destruct (String.eqb _ h); simpl; [split; discriminate | exact IH].
Qed.

End StoreProperties.

(** ** Claims about hashing and commit *)

Lemma append_assoc (a b c : string) : (a +:+ b) +:+ c = a +:+ (b +:+ c).
Proof.
  induction a as [|x a IH]; [reflexivity|].
  change (String x ((a +:+ b) +:+ c) = String x (a +:+ (b +:+ c))).
  f_equal. exact IH.
Qed.

Section CommitClaims.
Context {lib : PyLib} {pg : Postgres}.

(** C3: [compute_hash] is a function of the content and of the metadata keys
    [model], [temperature] and [version] only: metadata that agree on these
    three keys give the same hash for the same content, and the hash of the
    node that [create_version] returns is that value whatever the tags, the
    author, the clock, the message and the parent are. *)
Theorem compute_hash_deterministic (content : string) (m1 m2 : gmap string pyval) :
  same_hashed_keys m1 m2 ->
  Versioning.compute_hash content m1 = Versioning.compute_hash content m2 /\
  forall amb tags author message parent db n db',
    Versioning.create_version amb content m1 tags author message parent db
      = (Return n, db') ->
    PromptVersion.hash n = Versioning.compute_hash content m2.
Proof.
  intros Hk. pose proof (compute_hash_same_keys content m1 m2 Hk) as Heq.
  split; [exact Heq|].
  intros amb tags author message parent db n db' Hc.
  apply create_version_stored in Hc. apply query_by_hash_hash in Hc. congruence.
Qed.

(** C2: committing twice with the same content and the same model,
    temperature and version returns the same stored node both times, even when
    the second call names another parent, other tags or another message; the
    second call leaves the store as it is; the store holds exactly one row with
    that hash; and when the first call created the node, the node carries the
    first call's id, parent, tags and commit message. *)
Theorem commit_idempotent_on_hash (cs : list commit)
    (amb1 amb2 : Ambient) (content : string) (m1 m2 : gmap string pyval)
    (tags1 tags2 : pyval) (author1 author2 message1 message2 : string)
    (parent1 parent2 : option UUID) (n1 : PromptVersion.t) (db1 : Versioning.table) :
  same_hashed_keys m1 m2 ->
  Versioning.create_version amb1 content m1 tags1 author1 message1 parent1
    (store_after cs) = (Return n1, db1) ->
  Versioning.create_version amb2 content m2 tags2 author2 message2 parent2 db1
    = (Return n1, db1) /\
  rows_with_hash (Versioning.compute_hash content m1) db1 = 1 /\
  (rows_with_hash (Versioning.compute_hash content m1) (store_after cs) = 0 ->
   db1 = store_after cs ++ [n1] /\
   PromptVersion.id n1 = uuid4 amb1 /\
   PromptVersion.parent_id n1 = parent1 /\
   PromptVersion.tags n1 = tags1 /\
   PromptVersion.prompt_metadata n1 !! "commit_message" = Some (PStr message1)).
Proof.
  intros Hk Hc.
  pose proof (create_version_stored _ _ _ _ _ _ _ _ _ _ Hc) as Hq.
  pose proof (create_version_consistent amb1 content m1 tags1 author1 message1
                parent1 _ (store_after_consistent cs)) as Hcons.
  rewrite Hc in Hcons. simpl in Hcons.
  split; [|split].
  - apply create_version_existing.
    now rewrite <- (compute_hash_same_keys content m1 m2 Hk).
  - rewrite <- (query_by_hash_hash _ _ _ Hq).
    apply rows_with_hash_present; [exact Hcons|].
    apply list_elem_of_In. eapply query_by_hash_In; eauto.
  - intros Hz. apply rows_with_hash_zero in Hz.
    apply create_version_cases in Hc as [[Hs _]|(_ & -> & ->)]; [congruence|].
    simpl. repeat split; auto. apply lookup_insert_eq.
Qed.

(** The text that [compute_hash] digests, the keys in sorted order. *)
Lemma compute_hash_text content metadata :
  Versioning.compute_hash content metadata
  = sha256_hexdigest
      ("{" +:+ json_string "content" +:+ ": " +:+ json_string content
       +:+ ", " +:+ json_string "model" +:+ ": "
       +:+ json_value (dict_get metadata "model" (PStr ""))
       +:+ ", " +:+ json_string "temperature" +:+ ": "
       +:+ json_value (dict_get metadata "temperature" (PFloat float_0_7))
       +:+ ", " +:+ json_string "version" +:+ ": "
       +:+ json_value (dict_get metadata "version" (PStr "1.0.0"))
       +:+ "}").
Proof.
  unfold Versioning.compute_hash. cbv zeta. f_equal.
  unfold json_dumps_sorted, Versioning.hashable.
  change (sort_items
            [("content", PStr content);
             ("model", dict_get metadata "model" (PStr ""));
             ("temperature", dict_get metadata "temperature" (PFloat float_0_7));
             ("version", dict_get metadata "version" (PStr "1.0.0"))])
    with [("content", PStr content);
          ("model", dict_get metadata "model" (PStr ""));
          ("temperature", dict_get metadata "temperature" (PFloat float_0_7));
          ("version", dict_get metadata "version" (PStr "1.0.0"))].
  cbn [map String.concat json_item fst snd json_value].
  now rewrite !append_assoc.
Qed.

(** Stating the value that [compute_hash] would fill in changes nothing. *)
Lemma compute_hash_filled content metadata :
  let filled : gmap string pyval :=
    <["model" := dict_get metadata "model" (PStr "")]>
      (<["temperature" := dict_get metadata "temperature" (PFloat float_0_7)]>
         (<["version" := dict_get metadata "version" (PStr "1.0.0")]> metadata)) in
  Versioning.compute_hash content metadata = Versioning.compute_hash content filled.
Proof.
  intros filled. unfold Versioning.compute_hash, Versioning.hashable.
  replace (dict_get filled "model" (PStr "")) with (dict_get metadata "model" (PStr ""))
    by (unfold filled, dict_get at 2; now rewrite lookup_insert_eq).
  replace (dict_get filled "temperature" (PFloat float_0_7))
    with (dict_get metadata "temperature" (PFloat float_0_7))
    by (unfold filled, dict_get at 2;
        rewrite lookup_insert_ne by discriminate; now rewrite lookup_insert_eq).
  replace (dict_get filled "version" (PStr "1.0.0"))
    with (dict_get metadata "version" (PStr "1.0.0"))
    by (unfold filled, dict_get at 2;
        rewrite !lookup_insert_ne by discriminate; now rewrite lookup_insert_eq).
  reflexivity.
Qed.

(** C10: [compute_hash] fills in [model = ""], [temperature = 0.7] and
    [version = "1.0.0"] for absent keys. For every content, the text digested
    for metadata that lack the three keys is the JSON object with the keys
    [content], [model], [temperature], [version], in this order, whose
    values are the content, the empty string, [0.7] and ["1.0.0"]; a key that
    is present contributes its own value instead. Hence metadata hash like the
    metadata that state the defaults for the keys they omit, whatever their
    other keys; in particular the empty metadata and the metadata stating
    exactly the three defaults hash alike, and a commit with either of them
    returns the node stored by a commit with the other. *)
Theorem compute_hash_defaults (content : string) :
  let stated : gmap string pyval :=
    <["model" := PStr ""]> (<["temperature" := PFloat float_0_7]>
      (<["version" := PStr "1.0.0"]> ∅)) in
  (forall metadata : gmap string pyval,
     metadata !! "model" = None ->
     metadata !! "temperature" = None ->
     metadata !! "version" = None ->
     Versioning.compute_hash content metadata
     = sha256_hexdigest
         ("{" +:+ json_string "content" +:+ ": " +:+ json_string content
          +:+ ", " +:+ json_string "model" +:+ ": " +:+ json_string ""
          +:+ ", " +:+ json_string "temperature" +:+ ": " +:+ float_repr float_0_7
          +:+ ", " +:+ json_string "version" +:+ ": " +:+ json_string "1.0.0"
          +:+ "}")) /\
  (forall (metadata : gmap string pyval) (model temperature version : pyval),
     metadata !! "model" = Some model ->
     metadata !! "temperature" = Some temperature ->
     metadata !! "version" = Some version ->
     Versioning.compute_hash content metadata
     = sha256_hexdigest
         ("{" +:+ json_string "content" +:+ ": " +:+ json_string content
          +:+ ", " +:+ json_string "model" +:+ ": " +:+ json_value model
          +:+ ", " +:+ json_string "temperature" +:+ ": " +:+ json_value temperature
          +:+ ", " +:+ json_string "version" +:+ ": " +:+ json_value version
          +:+ "}")) /\
  (forall metadata : gmap string pyval,
     Versioning.compute_hash content metadata
     = Versioning.compute_hash content
         (<["model" := dict_get metadata "model" (PStr "")]>
            (<["temperature" := dict_get metadata "temperature" (PFloat float_0_7)]>
               (<["version" := dict_get metadata "version" (PStr "1.0.0")]>
                  metadata)))) /\
  Versioning.compute_hash content ∅ = Versioning.compute_hash content stated /\
  (forall amb tags author message parent db n db',
     Versioning.create_version amb content stated tags author message parent db
       = (Return n, db') ->
     forall amb' tags' author' message' parent',
       Versioning.create_version amb' content ∅ tags' author' message' parent' db'
         = (Return n, db')) /\
  (forall amb tags author message parent db n db',
     Versioning.create_version amb content ∅ tags author message parent db
       = (Return n, db') ->
     forall amb' tags' author' message' parent',
       Versioning.create_version amb' content stated tags' author' message' parent' db'
         = (Return n, db')).
Proof.
  intros stated.
  assert (Heq : Versioning.compute_hash content ∅
                = Versioning.compute_hash content stated) by reflexivity.
  split; [|split; [|split; [|split; [exact Heq|split]]]].
  - intros metadata Hm Ht Hv. rewrite compute_hash_text.
    unfold dict_get. now rewrite Hm, Ht, Hv.
  - intros metadata model temperature version Hm Ht Hv. rewrite compute_hash_text.
    unfold dict_get. now rewrite Hm, Ht, Hv.
  - intros metadata. apply compute_hash_filled.
  - intros amb tags author message parent db n db' Hc ? ? ? ? ?.
    apply create_version_existing. rewrite Heq.
    eapply create_version_stored; eauto.
  - intros amb tags author message parent db n db' Hc ? ? ? ? ?.
    apply create_version_existing. rewrite <- Heq.
    eapply create_version_stored; eauto.
Qed.

End CommitClaims.

(** ** [str.strip] *)

Lemma rev_app_first s acc :
  first_char (String.rev_app s acc) =
  match last_char s with Some c => Some c | None => first_char acc end.
Proof.
  revert acc. induction s as [|a r IH]; intros acc; simpl; [reflexivity|].
  rewrite IH. now destruct (last_char r).
Qed.

Lemma rev_app_last s acc :
  last_char (String.rev_app s acc) =
  match last_char acc with Some c => Some c | None => first_char s end.
Proof.
  revert acc. induction s as [|a r IH]; intros acc; simpl.
  - now destruct (last_char acc).
  - rewrite IH. simpl. now destruct (last_char acc).
Qed.

Lemma lstrip_first s a : first_char (lstrip s) = Some a -> isspace a = false.
Proof.
  induction s as [|b r IH]; simpl; [discriminate|].
  destruct (isspace b) eqn:E; [exact IH|]. simpl. congruence.
Qed.

Lemma lstrip_last s c : last_char (lstrip s) = Some c -> last_char s = Some c.
Proof.
  induction s as [|b r IH]; simpl; [discriminate|].
  destruct (isspace b); [|easy]. intros Hl. now rewrite (IH Hl).
Qed.

Lemma strip_trimmed s : trimmed (strip s).
Proof.
  unfold trimmed, strip, rstrip, String.rev. split; intros a Ha.
  - rewrite rev_app_first in Ha. simpl in Ha.
    destruct (last_char (lstrip _)) as [c|] eqn:El; [|discriminate].
    injection Ha as ->. apply lstrip_last in El.
    rewrite rev_app_last in El. simpl in El. now apply lstrip_first in El.
  - rewrite rev_app_last in Ha. simpl in Ha. now apply lstrip_first in Ha.
Qed.

(** ** Claims about validation and trimming *)

Section ParserClaims.
Context {lib : PyLib} {pg : Postgres}.


(** When [create_version] raises, the store is as it was and the exception
    is that of the insert of the row it built. *)
Lemma create_version_raises amb content metadata tags author message parent db e db' :
  Versioning.create_version amb content metadata tags author message parent db
    = (Raise e, db') ->
  db' = db /\
  Versioning.insert_version
    (PromptVersion.mk (uuid4 amb) content (Versioning.compute_hash content metadata)
       parent author (utcnow amb) tags (<["commit_message" := PStr message]> metadata))
    db = Raise e.
Proof.
  unfold Versioning.create_version. cbv zeta.
  destruct (Versioning.query_by_hash db _); [discriminate|].
  destruct (Versioning.insert_version _ db) as [db1|e1]; intros [= <- <-]. auto.
Qed.


(** C7, as the code has it: trimming is done by [parse_prompt_file]. A commit
    of a prompt file whose content is the string [s] either returns a row
    already stored or appends a row whose content is [s.strip()], which has
    no leading or trailing whitespace. [create_version] stores the content it
    is given as it is. *)
Theorem parsed_content_is_stripped (amb : Ambient) (file_path : Versioning.Path)
    (data : gmap string pyval) (s author message : string)
    (db db' : Versioning.table) (n : PromptVersion.t) :
  data !! "content" = Some (PStr s) ->
  Cli.commit_file amb file_path (Versioning.Mapping data) author message db = (Return n, db') ->
  ((db' = db /\ In n db) \/
   (db' = db ++ [n] /\ PromptVersion.content n = strip s /\
    trimmed (PromptVersion.content n))) /\
  (forall amb' content metadata tags parent db0 n0 db0',
     Versioning.create_version amb' content metadata tags author message parent db0
       = (Return n0, db0') ->
     db0' <> db0 -> PromptVersion.content n0 = content).
Proof.
  intros Hs Hc. split.
  - unfold Cli.commit_file, Versioning.parse_prompt_file in Hc.
    destruct (size data =? 0)%nat; [discriminate|].
    unfold dict_get at 1 2 in Hc. rewrite Hs in Hc. simpl in Hc.
    destruct (negb (s =? "")%string); simpl in Hc; [|discriminate].
    apply create_version_cases in Hc as [[Hq ->]|(_ & -> & ->)].
    + left. split; [reflexivity|]. eapply query_by_hash_In; eauto.
    + right. simpl. repeat split; auto; apply strip_trimmed.
  - intros amb' content metadata tags parent db0 n0 db0' Hc0 Hne.
    apply create_version_cases in Hc0 as [[_ ->]|(_ & _ & ->)]; [congruence|].
    reflexivity.
Qed.

End ParserClaims.


(** [create_version] raises more than [IntegrityError]: with a driver that
    refuses a NUL character in a text value, as psycopg2 does, a content
    with one raises the driver's [ValueError], and nothing is stored. *)
Lemma create_version_refuses_nul :
  exists msg,
    @Versioning.create_version Doubles.plain_lib Doubles.strict_postgres
      (Doubles.amb 1 0) (String (ascii_of_nat 0) "x") ∅ (PList []) "alice" "first"
      None [] = (Raise (ValueError msg), []).
Proof. eexists. reflexivity. Qed.

(** The check of [parse_prompt_file] runs before [strip]: a content of blanks
    only passes it and is committed as the empty string. *)
Lemma blank_content_passes_parser :
  exists n,
    @Cli.commit_file Doubles.plain_lib Doubles.plain_postgres (Doubles.amb 1 0)
      {| Versioning.path_str := "prompts/blank.yaml"; Versioning.stem := "blank" |}
      (Versioning.Mapping (<["content" := PStr "   "]> ∅)) "alice" "first" []
    = (Return n, [n]) /\
    PromptVersion.content n = "".
Proof. eexists. split; reflexivity. Qed.

(** C7, as stated, fails: [create_version] stores content with its
    surrounding whitespace. *)
Lemma create_version_keeps_whitespace :
  exists n,
    @Versioning.create_version Doubles.plain_lib Doubles.plain_postgres (Doubles.amb 1 0) " x "
      ∅ (PList []) "alice" "first" None [] = (Return n, [n]) /\
    PromptVersion.content n = " x " /\
    PromptVersion.content n <> strip " x ".
Proof. eexists. split; [reflexivity|]. split; [reflexivity|]. discriminate. Qed.

(** ** The cache never raises *)

Section CacheProperties.
Context {S : Type} {RC : Engine.RedisClient S} {P : Type} {JC : Engine.JsonCodec P}.

Lemma new_engine_returns (s : S) :
  exists engine s', Engine.new_engine s = (Return engine, s').
Proof.
  unfold Engine.new_engine.
  destruct (Engine.redis_from_url _ s) as [[[]|e] s1]; [|eauto].
  destruct (Engine.redis_ping s1) as [[[]|e] s2]; eauto.
Qed.

Lemma get_from_cache_returns self environment name (s : S) :
  exists (o : option P) s',
    Engine.get_from_cache self environment name s = (Return o, s').
Proof.
  unfold Engine.get_from_cache, Engine.try_except, Engine.bind, Engine.lift, Engine.ret.
  destruct (negb (Engine.redis_available self)); [eauto|].
  destruct (Engine.redis_get _ s) as [[[c|]|e] s1]; eauto.
  destruct (negb (String.eqb c "")); eauto.
  destruct (Engine.json_loads c); eauto.
Qed.

Lemma set_cache_returns self environment (prompt_data : P) name ttl (s : S) :
  exists s', Engine.set_cache self environment prompt_data name ttl s = (Return tt, s').
Proof.
  unfold Engine.set_cache, Engine.try_except, Engine.bind, Engine.lift, Engine.ret.
  destruct (negb (Engine.redis_available self)); [eauto|].
  destruct (Engine.json_dumps_default_str prompt_data); eauto.
  destruct (Engine.redis_setex _ _ _ s) as [[[]|e] s1]; eauto.
Qed.

Lemma invalidate_cache_returns self environment (s : S) :
  exists s', Engine.invalidate_cache self environment s = (Return tt, s').
Proof.
  unfold Engine.invalidate_cache, Engine.try_except, Engine.bind, Engine.ret.
  destruct (negb (Engine.redis_available self)); [eauto|].
  destruct (Engine.redis_keys _ s) as [[[|k ks]|e] s1]; eauto.
  destruct (Engine.redis_delete _ s1) as [[z|e] s2]; eauto.
Qed.

Lemma get_from_cache_failure self environment name (s s' : S) e :
  Engine.redis_get (Engine._get_cache_key environment name) s = (Raise e, s') ->
  fst (Engine.get_from_cache (P:=P) self environment name s) = Return None.
Proof.
  unfold Engine.get_from_cache, Engine.try_except, Engine.bind, Engine.ret.
  destruct (negb (Engine.redis_available self)); [reflexivity|].
  now intros ->.
Qed.

Lemma get_from_cache_garbled self environment name (s s' : S) c e :
  Engine.redis_get (Engine._get_cache_key environment name) s = (Return (Some c), s') ->
  Engine.json_loads (P:=P) c = Raise e ->
  fst (Engine.get_from_cache (P:=P) self environment name s) = Return None.
Proof.
  unfold Engine.get_from_cache, Engine.try_except, Engine.bind, Engine.lift, Engine.ret.
  destruct (negb (Engine.redis_available self)); [reflexivity|].
  intros -> Hl. destruct (negb (String.eqb c "")); [|reflexivity].
  now rewrite Hl.
Qed.

(** Building the engine and invalidating cannot end the handler: what follows
    runs on the same tables. *)
Lemma invalidation_passes {A} environment (k : App.Handler (S:=S) A) w :
  exists s',
    App.bindH (App.cache Engine.new_engine) (fun engine =>
      App.bindH (App.cache (Engine.invalidate_cache engine environment))
        (fun _ => k)) w
    = k {| App.prompt_versions := App.prompt_versions w;
           App.deployments := App.deployments w;
           App.redis := s' |}.
Proof.
  unfold App.bindH, App.cache.
  destruct (new_engine_returns (App.redis w)) as (engine & s1 & ->). simpl.
  destruct (invalidate_cache_returns engine environment s1) as (s2 & ->).
  eauto.
Qed.

End CacheProperties.

(** ** What the handlers do to the tables *)

Section HandlerEffects.
Context {S : Type} {RC : Engine.RedisClient S} {pg : Postgres}.

Lemma insert_deployment_inv row versions rows rows' :
  App.insert_deployment row versions rows = Return rows' ->
  rows' = rows ++ [row] /\ (Deployment.id row ∉ Deployment.id <$> rows).
Proof.
  unfold App.insert_deployment.
  destruct (accept_deployment row); [|discriminate].
  destruct (existsb _ rows) eqn:Eid; [discriminate|].
  destruct (existsb _ versions); intros [= <-].
  split; [reflexivity|].
  now apply (existsb_key_false Deployment.id Nat.eqb Nat.eqb_eq) in Eid.
Qed.

Lemma deploy_version_effect amb request (w : App.World S) :
  exists s',
    App.deploy_version amb request w =
    match Versioning.get_version_by_hash (App.prompt_versions w)
            (App.version_hash request) with
    | None =>
        (Raise (HTTPException 404
                  ("Version not found: " +:+ App.version_hash request)), w)
    | Some version =>
        let deployment :=
          Deployment.mk (uuid4 amb) (PromptVersion.id version)
            (App.environment request) (utcnow amb) (App.deployed_by request)
            None true in
        match App.insert_deployment deployment (App.prompt_versions w)
                (App.deactivate_all (App.environment request) (App.deployments w)) with
        | Raise e => (Raise e, w)
        | Return rows =>
            (Return {| App.success := true;
                       App.deployed_version_hash := PromptVersion.hash version;
                       App.deployed_environment := App.environment request;
                       App.deployed_at := utcnow amb;
                       App.message := "Successfully deployed "
                                      +:+ prefix 8 (PromptVersion.hash version)
                                      +:+ " to " +:+ App.environment request |},
             {| App.prompt_versions := App.prompt_versions w;
                App.deployments := rows;
                App.redis := s' |})
        end
    end.
Proof.
  unfold App.deploy_version.
  destruct (Versioning.get_version_by_hash _ _) as [version|]; [|now exists (App.redis w)].
  cbv zeta.
  destruct (App.insert_deployment _ _ _) as [rows|e]; [|now exists (App.redis w)].
  match goal with
  | |- context [App.retH ?resp] =>
      destruct (invalidation_passes (App.environment request) (App.retH resp)
                  (App.with_deployments rows w)) as (s' & Hs)
  end.
  exists s'. rewrite Hs. reflexivity.
Qed.

Lemma rollback_deployment_effect environment (w : App.World S) :
  exists s',
    App.rollback_deployment environment w =
    match first_desc Deployment.deployed_at
            (List.filter (App.active_in environment) (App.deployments w)) with
    | None =>
        (Raise (HTTPException 404 ("No active deployment in " +:+ environment)), w)
    | Some current =>
        match first_desc Deployment.deployed_at
                (List.filter (App.other_in environment (Deployment.id current))
                   (App.deployments w)) with
        | None =>
            (Raise (HTTPException 400 "No previous deployment to rollback to"), w)
        | Some previous =>
            let w' :=
              {| App.prompt_versions := App.prompt_versions w;
                 App.deployments :=
                   App.set_is_active (Deployment.id previous) true
                     (App.set_is_active (Deployment.id current) false
                        (App.deployments w));
                 App.redis := s' |} in
            match App.version_hash8 (App.prompt_versions w) current with
            | Raise e => (Raise e, w')
            | Return from8 =>
                match App.version_hash8 (App.prompt_versions w) previous with
                | Raise e => (Raise e, w')
                | Return to8 =>
                    (Return {| App.rollback_success := true;
                               App.rolled_back_from := from8;
                               App.rolled_back_to := to8;
                               App.rollback_environment := environment;
                               App.rollback_message := "Rolled back to " +:+ to8 |},
                     w')
                end
            end
        end
    end.
Proof.
  unfold App.rollback_deployment. cbv zeta.
  destruct (first_desc _ (List.filter (App.active_in _) _)) as [current|];
    [|now exists (App.redis w)].
  destruct (first_desc _ (List.filter (App.other_in _ _) _)) as [previous|];
    [|now exists (App.redis w)].
  match goal with
  | |- context [App.bindH (App.cache (Engine.invalidate_cache _ _)) (fun _ => ?k)] =>
      destruct (invalidation_passes environment k
                  (App.with_deployments
                     (App.set_is_active (Deployment.id previous) true
                        (App.set_is_active (Deployment.id current) false
                           (App.deployments w))) w)) as (s' & Hs)
  end.
  exists s'. rewrite Hs. unfold App.bindH, App.retH. simpl.
  destruct (App.version_hash8 _ current); [|reflexivity].
  destruct (App.version_hash8 _ previous); reflexivity.
Qed.

End HandlerEffects.

(** ** Claims about the cache *)

Section CacheClaims.
Context {S : Type} {RC : Engine.RedisClient S} {P : Type} {JC : Engine.JsonCodec P}
  {PV : App.Pydantic} {pg : Postgres}.
Variable response_dict : App.PromptResponse -> P.

Lemma unavailable_is_noop self environment name (prompt_data : P) ttl (s : S) :
  Engine.redis_available self = false ->
  Engine.get_from_cache (P:=P) self environment name s = (Return None, s) /\
  Engine.set_cache self environment prompt_data name ttl s = (Return tt, s) /\
  Engine.invalidate_cache self environment s = (Return tt, s).
Proof.
  intros Hu. unfold Engine.get_from_cache, Engine.set_cache, Engine.invalidate_cache.
  rewrite Hu. simpl. auto.
Qed.

Lemma deploy_without_redis amb request (w : App.World S) :
  let with_redis := App.deploy_version amb request w in
  let alone := App.deploy_version (RC:=Doubles.absent_redis) amb request
                 (Doubles.without_redis w) in
  fst with_redis = fst alone /\
  App.prompt_versions (snd with_redis) = App.prompt_versions (snd alone) /\
  App.deployments (snd with_redis) = App.deployments (snd alone).
Proof.
  cbv zeta.
  destruct (deploy_version_effect amb request w) as (s1 & ->).
  destruct (deploy_version_effect (RC:=Doubles.absent_redis) amb request
              (Doubles.without_redis w)) as (s2 & ->).
  simpl. destruct (Versioning.get_version_by_hash _ _); [|easy].
  destruct (App.insert_deployment _ _ _); easy.
Qed.

Lemma rollback_without_redis environment (w : App.World S) :
  let with_redis := App.rollback_deployment environment w in
  let alone := App.rollback_deployment (RC:=Doubles.absent_redis) environment
                 (Doubles.without_redis w) in
  fst with_redis = fst alone /\
  App.prompt_versions (snd with_redis) = App.prompt_versions (snd alone) /\
  App.deployments (snd with_redis) = App.deployments (snd alone).
Proof.
  cbv zeta.
  destruct (rollback_deployment_effect environment w) as (s1 & ->).
  destruct (rollback_deployment_effect (RC:=Doubles.absent_redis) environment
              (Doubles.without_redis w)) as (s2 & ->).
  simpl. destruct (first_desc _ (List.filter (App.active_in _) _)); [|easy].
  destruct (first_desc _ (List.filter (App.other_in _ _) _)); [|easy].
  destruct (App.version_hash8 _ _); [|easy].
  destruct (App.version_hash8 _ _); easy.
Qed.

Lemma read_without_redis environment name (w : App.World S) :
  let with_redis := App.get_active_prompt response_dict environment name w in
  let alone := App.get_active_prompt (RC:=Doubles.absent_redis) response_dict
                 environment name (Doubles.without_redis w) in
  ((exists c, fst with_redis = Return (inl c)) \/ fst with_redis = fst alone) /\
  App.prompt_versions (snd with_redis) = App.prompt_versions w /\
  App.deployments (snd with_redis) = App.deployments w.
Proof.
  cbv zeta. unfold App.get_active_prompt, App.bindH, App.cache, App.retH.
  destruct (new_engine_returns (App.redis w)) as (engine & s1 & ->). simpl.
  destruct (get_from_cache_returns (P:=P) engine environment name s1)
    as (o & s2 & ->). simpl.
  destruct o as [c|]; [destruct (Engine.payload_truthy c)|]; simpl;
    [eauto | |];
    (destruct (first_desc _ _) as [deployment|]; [|simpl; auto];
     destruct (Versioning.query_by_id _ _) as [version|]; [|simpl; auto];
     destruct (App.validate_prompt_response _) as [response|err]; [|simpl; auto];
     match goal with
     | |- context [Engine.set_cache engine environment ?d name 3600 s2] =>
         destruct (set_cache_returns engine environment d name 3600 s2) as (s4 & ->)
     end; simpl; auto).
Qed.

End CacheClaims.

Section CacheNeverFails.
Context {S : Type} {RC : Engine.RedisClient S} {P : Type} {JC : Engine.JsonCodec P}
  {PV : App.Pydantic} {pg : Postgres}.
Variable response_dict : App.PromptResponse -> P.

(** C9: the operations of the cache ([get_from_cache], [set_cache],
    [invalidate_cache], and the constructor of the engine) return for every
    input and every behaviour of Redis, and never raise. When Redis is
    unavailable the lookup is a miss and the other two do nothing; when the
    read of the key fails, or the cached text does not parse, the lookup is a
    miss. Hence [deploy_version] and [rollback_deployment] answer, and leave
    the tables, exactly as they do with no Redis at all, and
    [get_active_prompt] either serves a cached payload or answers as it does
    with no Redis at all. *)
Theorem cache_never_fails (self : Engine.DeploymentEngine)
    (environment : string) (name : option string) (prompt_data : P) (ttl : Z) (s : S) :
  (exists engine s', Engine.new_engine s = (Return engine, s')) /\
  (exists (o : option P) s',
     Engine.get_from_cache self environment name s = (Return o, s')) /\
  (exists s', Engine.set_cache self environment prompt_data name ttl s = (Return tt, s')) /\
  (exists s', Engine.invalidate_cache self environment s = (Return tt, s')) /\
  (Engine.redis_available self = false ->
   Engine.get_from_cache (P:=P) self environment name s = (Return None, s) /\
   Engine.set_cache self environment prompt_data name ttl s = (Return tt, s) /\
   Engine.invalidate_cache self environment s = (Return tt, s)) /\
  (forall e s',
     Engine.redis_get (Engine._get_cache_key environment name) s = (Raise e, s') ->
     fst (Engine.get_from_cache (P:=P) self environment name s) = Return None) /\
  (forall c e s',
     Engine.redis_get (Engine._get_cache_key environment name) s
       = (Return (Some c), s') ->
     Engine.json_loads (P:=P) c = Raise e ->
     fst (Engine.get_from_cache (P:=P) self environment name s) = Return None) /\
  (forall amb request (w : App.World S),
     let with_redis := App.deploy_version amb request w in
     let alone := App.deploy_version (RC:=Doubles.absent_redis) amb request
                    (Doubles.without_redis w) in
     fst with_redis = fst alone /\
     App.prompt_versions (snd with_redis) = App.prompt_versions (snd alone) /\
     App.deployments (snd with_redis) = App.deployments (snd alone)) /\
  (forall (w : App.World S),
     let with_redis := App.rollback_deployment environment w in
     let alone := App.rollback_deployment (RC:=Doubles.absent_redis) environment
                    (Doubles.without_redis w) in
     fst with_redis = fst alone /\
     App.prompt_versions (snd with_redis) = App.prompt_versions (snd alone) /\
     App.deployments (snd with_redis) = App.deployments (snd alone)) /\
  (forall (w : App.World S),
     let with_redis := App.get_active_prompt response_dict environment name w in
     let alone := App.get_active_prompt (RC:=Doubles.absent_redis) response_dict
                    environment name (Doubles.without_redis w) in
     ((exists c, fst with_redis = Return (inl c)) \/ fst with_redis = fst alone) /\
     App.prompt_versions (snd with_redis) = App.prompt_versions w /\
     App.deployments (snd with_redis) = App.deployments w).
Proof.
  split; [apply new_engine_returns|].
  split; [apply get_from_cache_returns|].
  split; [apply set_cache_returns|].
  split; [apply invalidate_cache_returns|].
  split; [apply unavailable_is_noop|].
  split; [intros e s'; apply get_from_cache_failure|].
  split; [intros c e s'; apply get_from_cache_garbled|].
  split; [apply deploy_without_redis|].
  split; [apply rollback_without_redis|].
  apply read_without_redis.
Qed.

End CacheNeverFails.

(** ** The deployments table *)

Lemma first_desc_In {A} (key : A -> Z) rows x :
  first_desc key rows = Some x -> In x rows.
Proof.
  revert x. induction rows as [|y rows IH]; intros x; simpl; [discriminate|].
  destruct (first_desc key rows) as [z|].
  - destruct (key y <? key z)%Z; intros [= <-]; auto.
  - intros [= <-]. auto.
Qed.

Lemma NoDup_key_inj {A K} (key : A -> K) (l : list A) x y :
  NoDup (key <$> l) -> x ∈ l -> y ∈ l -> key x = key y -> x = y.
Proof.
  induction l as [|z l IH]; intros Hnd Hx Hy Hk; [inversion Hx|].
  simpl in Hnd. apply NoDup_cons in Hnd as [Hz Hnd].
  apply elem_of_cons in Hx as [->|Hx]; apply elem_of_cons in Hy as [->|Hy]; auto.
  - exfalso. apply Hz. rewrite Hk. now apply list_elem_of_fmap_2.
  - exfalso. apply Hz. rewrite <- Hk. now apply list_elem_of_fmap_2.
Qed.

Lemma set_is_active_ids i b rows :
  Deployment.id <$> App.set_is_active i b rows = Deployment.id <$> rows.
Proof.
  unfold App.set_is_active. induction rows as [|d rows IH]; [reflexivity|].
  simpl. destruct (Nat.eqb _ i); simpl; f_equal; exact IH.
Qed.

Lemma deactivate_all_ids e rows :
  Deployment.id <$> App.deactivate_all e rows = Deployment.id <$> rows.
Proof.
  unfold App.deactivate_all. induction rows as [|d rows IH]; [reflexivity|].
  simpl. destruct (App.active_in e d); simpl; f_equal; exact IH.
Qed.

Lemma deactivate_all_none e rows :
  List.filter (App.active_in e) (App.deactivate_all e rows) = [].
Proof.
  unfold App.deactivate_all. induction rows as [|d rows IH]; [reflexivity|].
  simpl. destruct (App.active_in e d) eqn:E.
  - unfold App.active_in at 1. simpl. now rewrite andb_false_r.
  - now rewrite E.
Qed.

Lemma deactivate_all_elsewhere e e' rows :
  e <> e' ->
  List.filter (App.in_environment e') (App.deactivate_all e rows)
    = List.filter (App.in_environment e') rows.
Proof.
  intros Hne. unfold App.deactivate_all.
  induction rows as [|d rows IH]; [reflexivity|]. simpl.
  destruct (App.active_in e d) eqn:E; [|now rewrite IH].
  unfold App.active_in in E. apply andb_true_iff in E as [Ee _].
  unfold App.in_environment in *. simpl. apply String.eqb_eq in Ee.
  rewrite Ee. rewrite (proj2 (String.eqb_neq e e') Hne). exact IH.
Qed.

Lemma active_in_environment e rows :
  List.filter (App.active_in e) rows
    = List.filter Deployment.is_active (List.filter (App.in_environment e) rows).
Proof.
  induction rows as [|d rows IH]; [reflexivity|]. simpl.
  unfold App.active_in at 1.
  destruct (App.in_environment e d); simpl; [|exact IH].
  destruct (Deployment.is_active d); simpl; now rewrite IH.
Qed.

(** The two updates of a rollback, row by row. *)
Lemma set_is_active_swap p c rows :
  p <> c ->
  App.set_is_active p true (App.set_is_active c false rows)
    = map (fun d => if Nat.eqb (Deployment.id d) p then Deployment.with_is_active true d
                    else if Nat.eqb (Deployment.id d) c then Deployment.with_is_active false d
                    else d) rows.
Proof.
  intros Hne. unfold App.set_is_active. rewrite map_map.
  apply map_ext. intros d.
  destruct (Nat.eqb (Deployment.id d) c) eqn:Ec; simpl.
  - apply Nat.eqb_eq in Ec. rewrite Ec. now rewrite (proj2 (Nat.eqb_neq c p)).
  - reflexivity.
Qed.

Lemma length_le_one_unique {A} (l : list A) x y :
  length l <= 1 -> In x l -> In y l -> x = y.
Proof.
  destruct l as [|z [|z' l]]; simpl; intros Hl Hx Hy; try lia; intuition congruence.
Qed.

Lemma combine_map_self {A B} (h : A -> B) (l : list A) :
  combine l (map h l) = map (fun d => (d, h d)) l.
Proof. induction l as [|x l IH]; [reflexivity|]. simpl. now rewrite IH. Qed.

Lemma length_filter_map {A B} (q : B -> bool) (h : A -> B) (l : list A) :
  length (List.filter q (map h l)) = length (List.filter (fun d => q (h d)) l).
Proof. rewrite filter_map_swap. apply length_map. Qed.

(** A deploy that commits keeps the invariant and leaves the environment
    with exactly one active row. *)
Lemma deploy_rows_single_active e rows row :
  single_active rows ->
  Deployment.id row ∉ Deployment.id <$> rows ->
  Deployment.environment row = e ->
  Deployment.is_active row = true ->
  single_active (App.deactivate_all e rows ++ [row]) /\
  active_rows e (App.deactivate_all e rows ++ [row]) = 1.
Proof.
  intros [Hnd Hone] Hfresh Henv Hact.
  assert (Hrow : App.active_in e row = true).
  { unfold App.active_in, App.in_environment. now rewrite Henv, String.eqb_refl, Hact. }
  assert (Hcount : active_rows e (App.deactivate_all e rows ++ [row]) = 1).
  { unfold active_rows. rewrite List.filter_app, deactivate_all_none. simpl.
    now rewrite Hrow. }
  split; [|exact Hcount]. split.
  - rewrite fmap_app, deactivate_all_ids. apply NoDup_app. repeat split; auto.
    + intros x Hx Hin. apply list_elem_of_singleton in Hin. now subst.
    + apply NoDup_singleton.
  - intros e'. destruct (String.eqb_spec e e') as [<-|Hne]; [lia|].
    unfold active_rows. rewrite List.filter_app, length_app.
    rewrite (active_in_environment e' (App.deactivate_all e rows)).
    rewrite deactivate_all_elsewhere by assumption.
    rewrite <- active_in_environment. simpl.
    assert (Hrow' : App.active_in e' row = false).
    { unfold App.active_in, App.in_environment.
      now rewrite Henv, (proj2 (String.eqb_neq e e') Hne). }
    rewrite Hrow'. simpl. specialize (Hone e'). unfold active_rows in Hone. lia.
Qed.

Section Swap.
Variables (e : string) (rows : list Deployment.t) (current previous : Deployment.t).
Hypothesis Hinv : single_active rows.
Hypothesis Hcurrent :
  first_desc Deployment.deployed_at (List.filter (App.active_in e) rows) = Some current.
Hypothesis Hprevious :
  first_desc Deployment.deployed_at
    (List.filter (App.other_in e (Deployment.id current)) rows) = Some previous.

Let swapped : list Deployment.t :=
  App.set_is_active (Deployment.id previous) true
    (App.set_is_active (Deployment.id current) false rows).

Let g (d : Deployment.t) : Deployment.t :=
  if Nat.eqb (Deployment.id d) (Deployment.id previous)
  then Deployment.with_is_active true d
  else if Nat.eqb (Deployment.id d) (Deployment.id current)
       then Deployment.with_is_active false d
       else d.

Lemma current_facts : In current rows /\ App.active_in e current = true.
Proof. apply first_desc_In in Hcurrent. now apply filter_In in Hcurrent. Qed.

Lemma previous_facts :
  In previous rows /\ App.in_environment e previous = true /\
  Deployment.id previous <> Deployment.id current.
Proof.
  apply first_desc_In in Hprevious. apply filter_In in Hprevious as [Hin Ho].
  unfold App.other_in in Ho. apply andb_true_iff in Ho as [He Hid].
  repeat split; auto. apply negb_true_iff in Hid. now apply Nat.eqb_neq.
Qed.

Lemma only_current d : In d rows -> App.active_in e d = true -> d = current.
Proof.
  intros Hd Ha. destruct Hinv as [_ Hone]. destruct current_facts as [Hc Hca].
  apply (length_le_one_unique (List.filter (App.active_in e) rows)).
  - apply Hone.
  - now apply filter_In.
  - now apply filter_In.
Qed.

Lemma previous_inactive : Deployment.is_active previous = false.
Proof.
  destruct previous_facts as (Hin & He & Hid).
  destruct (Deployment.is_active previous) eqn:E; [|reflexivity].
  exfalso. apply Hid. f_equal. apply only_current; [exact Hin|].
  unfold App.active_in. now rewrite He, E.
Qed.

Lemma row_by_id d d' :
  In d rows -> In d' rows ->
  Nat.eqb (Deployment.id d) (Deployment.id d') = true -> d = d'.
Proof.
  intros Hd Hd' Hid. destruct Hinv as [Hnd _].
  apply (NoDup_key_inj Deployment.id rows); auto; try now apply list_elem_of_In.
  now apply Nat.eqb_eq.
Qed.

Lemma swapped_rows : swapped = map g rows.
Proof.
  unfold swapped. apply set_is_active_swap. apply previous_facts.
Qed.

(** The three kinds of row, as [g] treats them. *)
Lemma g_cases d :
  In d rows ->
  (d = previous /\ g d = Deployment.with_is_active true previous) \/
  (d = current /\ Nat.eqb (Deployment.id d) (Deployment.id previous) = false /\
   g d = Deployment.with_is_active false current) \/
  (Nat.eqb (Deployment.id d) (Deployment.id previous) = false /\
   Nat.eqb (Deployment.id d) (Deployment.id current) = false /\
   App.active_in e d = false /\ g d = d).
Proof.
  intros Hd. unfold g.
  destruct previous_facts as (Hp & _ & _). destruct current_facts as (Hc & _).
  destruct (Nat.eqb (Deployment.id d) (Deployment.id previous)) eqn:Ep.
  - left. apply row_by_id in Ep; auto. now subst.
  - destruct (Nat.eqb (Deployment.id d) (Deployment.id current)) eqn:Ec.
    + right; left. apply row_by_id in Ec; auto. now subst.
    + right; right. repeat split; auto.
      destruct (App.active_in e d) eqn:Ea; [|reflexivity].
      apply only_current in Ea; auto. subst d.
      rewrite Nat.eqb_refl in Ec. discriminate.
Qed.

Lemma filter_by_id d0 :
  In d0 rows ->
  length (List.filter
            (fun d => Nat.eqb (Deployment.id d) (Deployment.id d0)) rows) = 1.
Proof.
  intros Hd. destruct Hinv as [Hnd _].
  rewrite (filter_key_unique Deployment.id Nat.eqb Nat.eqb_eq); auto.
  now apply list_elem_of_In.
Qed.

Lemma swapped_active : active_rows e swapped = 1.
Proof.
  unfold active_rows. rewrite swapped_rows, length_filter_map.
  rewrite <- (filter_by_id previous) by apply previous_facts.
  f_equal. apply filter_ext_in. intros d Hd.
  destruct previous_facts as (_ & He & _).
  destruct (g_cases d Hd) as [[-> ->]|[(-> & Ep & ->)|(Ep & Ec & Ea & ->)]].
  - rewrite Nat.eqb_refl. unfold App.active_in, App.in_environment in *.
    simpl. now rewrite He.
  - rewrite Ep. unfold App.active_in. simpl. apply andb_false_r.
  - now rewrite Ep.
Qed.

Lemma swapped_elsewhere e' : e <> e' -> active_rows e' swapped = active_rows e' rows.
Proof.
  intros Hne. unfold active_rows. rewrite swapped_rows, length_filter_map.
  f_equal. apply filter_ext_in. intros d Hd.
  assert (Hout : forall x b, App.in_environment e x = true ->
            App.active_in e' (Deployment.with_is_active b x) = false
            /\ App.active_in e' x = false).
  { intros x b Hx. unfold App.active_in, App.in_environment in *. simpl.
    apply String.eqb_eq in Hx. rewrite Hx.
    now rewrite (proj2 (String.eqb_neq e e') Hne). }
  destruct previous_facts as (_ & He & _). destruct current_facts as (_ & Hc).
  apply andb_true_iff in Hc as [Hc _].
  destruct (g_cases d Hd) as [[-> ->]|[(-> & Ep & ->)|(Ep & Ec & Ea & ->)]].
  - destruct (Hout previous true He). congruence.
  - destruct (Hout current false Hc). congruence.
  - reflexivity.
Qed.

Lemma swapped_single_active : single_active swapped.
Proof.
  split.
  - unfold swapped. rewrite !set_is_active_ids. apply Hinv.
  - intros e'. destruct (String.eqb_spec e e') as [<-|Hne].
    + rewrite swapped_active. lia.
    + rewrite swapped_elsewhere by assumption. apply Hinv.
Qed.

Lemma swapped_flips_up : flips false true rows swapped = 1.
Proof.
  unfold flips. rewrite swapped_rows, combine_map_self, length_filter_map.
  rewrite <- (filter_by_id previous) by apply previous_facts.
  f_equal. apply filter_ext_in. intros d Hd. simpl.
  pose proof previous_inactive as Hp. destruct current_facts as (_ & Hc).
  apply andb_true_iff in Hc as [_ Hc].
  destruct (g_cases d Hd) as [[-> ->]|[(-> & Ep & ->)|(Ep & Ec & Ea & ->)]].
  - rewrite Nat.eqb_refl, Hp. reflexivity.
  - rewrite Ep, Hc. reflexivity.
  - rewrite Ep. now destruct (Deployment.is_active d).
Qed.

Lemma swapped_flips_down : flips true false rows swapped = 1.
Proof.
  unfold flips. rewrite swapped_rows, combine_map_self, length_filter_map.
  rewrite <- (filter_by_id current) by apply current_facts.
  f_equal. apply filter_ext_in. intros d Hd. simpl.
  pose proof previous_inactive as Hp. destruct current_facts as (_ & Hc).
  apply andb_true_iff in Hc as [_ Hc].
  destruct previous_facts as (_ & _ & Hid). apply Nat.eqb_neq in Hid.
  destruct (g_cases d Hd) as [[-> ->]|[(-> & Ep & ->)|(Ep & Ec & Ea & ->)]].
  - rewrite Hid, Hp. reflexivity.
  - rewrite Nat.eqb_refl, Hc. reflexivity.
  - rewrite Ec. now destruct (Deployment.is_active d).
Qed.

End Swap.

(** ** Claims about the deployment coordinator *)

Section CoordinatorClaims.
Context {S : Type} {RC : Engine.RedisClient S} {pg : Postgres}.

Lemma deploy_version_rows amb r (w : App.World S) resp w' :
  App.deploy_version amb r w = (Return resp, w') ->
  exists row,
    App.deployments w' = App.deactivate_all (App.environment r) (App.deployments w) ++ [row] /\
    (Deployment.id row ∉ Deployment.id <$> App.deployments w) /\
    Deployment.environment row = App.environment r /\
    Deployment.is_active row = true.
Proof.
  destruct (deploy_version_effect amb r w) as (s' & ->).
  destruct (Versioning.get_version_by_hash _ _) as [version|]; [|discriminate].
  cbv zeta. destruct (App.insert_deployment _ _ _) as [rows|] eqn:Hi; [|discriminate].
  intros [= <- <-]. apply insert_deployment_inv in Hi as [-> Hfresh].
  rewrite deactivate_all_ids in Hfresh. simpl. eauto 6.
Qed.

Lemma handle_single_active q (w : App.World S) :
  single_active (App.deployments w) ->
  single_active (App.deployments (App.handle q w)).
Proof.
  intros Hinv. destruct q as [amb r|e]; simpl.
  - destruct (deploy_version_effect amb r w) as (s' & ->).
    destruct (Versioning.get_version_by_hash _ _) as [version|]; [|exact Hinv].
    cbv zeta. destruct (App.insert_deployment _ _ _) as [rows|] eqn:Hi; [|exact Hinv].
    apply insert_deployment_inv in Hi as [-> Hfresh].
    rewrite deactivate_all_ids in Hfresh. simpl.
    now apply deploy_rows_single_active.
  - destruct (rollback_deployment_effect e w) as (s' & ->).
    destruct (first_desc _ (List.filter (App.active_in _) _)) as [current|] eqn:Hc;
      [|exact Hinv].
    destruct (first_desc _ (List.filter (App.other_in _ _) _)) as [previous|] eqn:Hp;
      [|exact Hinv].
    cbv zeta.
    assert (Hs := swapped_single_active e _ current previous Hinv Hc Hp).
    destruct (App.version_hash8 _ current); [|exact Hs].
    destruct (App.version_hash8 _ previous); exact Hs.
Qed.

Lemma run_single_active qs (w : App.World S) :
  single_active (App.deployments w) ->
  single_active (App.deployments (App.run qs w)).
Proof.
  revert w. induction qs as [|q qs IH]; intros w Hinv; [exact Hinv|].
  simpl. apply IH. now apply handle_single_active.
Qed.

Lemma single_active_nil : single_active [].
Proof. split; [apply NoDup_nil_2 | intros e; unfold active_rows; simpl; lia]. Qed.

(** C1: after every sequence of deploy and rollback requests, started with no
    deployment, no environment has more than one active row. A deploy that
    returns has cleared [is_active] on the active rows of its environment and
    appended exactly one row, which is active; a rollback that returns has
    appended nothing and has turned exactly one row from inactive to active
    and exactly one from active to inactive. *)
Theorem single_active_deployment (versions : Versioning.table) (s : S)
    (qs : list App.request) :
  let w := App.run qs {| App.prompt_versions := versions;
                         App.deployments := [];
                         App.redis := s |} in
  (forall e, active_rows e (App.deployments w) <= 1) /\
  (forall amb r resp w',
     App.deploy_version amb r w = (Return resp, w') ->
     exists row,
       App.deployments w'
         = App.deactivate_all (App.environment r) (App.deployments w) ++ [row] /\
       active_rows (App.environment r)
         (App.deactivate_all (App.environment r) (App.deployments w)) = 0 /\
       Deployment.environment row = App.environment r /\
       Deployment.is_active row = true /\
       active_rows (App.environment r) (App.deployments w') = 1) /\
  (forall e resp w',
     App.rollback_deployment e w = (Return resp, w') ->
     length (App.deployments w') = length (App.deployments w) /\
     flips false true (App.deployments w) (App.deployments w') = 1 /\
     flips true false (App.deployments w) (App.deployments w') = 1 /\
     active_rows e (App.deployments w') = 1).
Proof.
  intros w.
  assert (Hinv : single_active (App.deployments w))
    by (apply run_single_active, single_active_nil).
  split; [apply Hinv|]. split.
  - intros amb r resp w' Hd.
    apply deploy_version_rows in Hd as (row & Hrows & Hfresh & Henv & Hact).
    exists row. rewrite Hrows.
    destruct (deploy_rows_single_active (App.environment r) _ row Hinv Hfresh Henv Hact)
      as [_ Hone].
    repeat split; auto.
    unfold active_rows. now rewrite deactivate_all_none.
  - intros e resp w'.
    destruct (rollback_deployment_effect e w) as (s' & ->).
    destruct (first_desc _ (List.filter (App.active_in _) _)) as [current|] eqn:Hc;
      [|discriminate].
    destruct (first_desc _ (List.filter (App.other_in _ _) _)) as [previous|] eqn:Hp;
      [|discriminate].
    cbv zeta.
    destruct (App.version_hash8 _ current); [|discriminate].
    destruct (App.version_hash8 _ previous); [|discriminate].
    intros [= <- <-]. simpl.
    split; [unfold App.set_is_active; now rewrite !length_map|].
    split; [now apply (swapped_flips_up e)|].
    split; [now apply (swapped_flips_down e)|].
    now apply swapped_active.
Qed.

End CoordinatorClaims.

(** ** Rollback on an environment with two rows *)

Lemma other_in_environment e i rows :
  List.filter (App.other_in e i) rows
    = List.filter (fun d => negb (Nat.eqb (Deployment.id d) i))
        (List.filter (App.in_environment e) rows).
Proof.
  induction rows as [|d rows IH]; [reflexivity|]. simpl.
  unfold App.other_in at 1.
  destruct (App.in_environment e d); simpl; [|exact IH].
  destruct (negb _); simpl; now rewrite IH.
Qed.

Lemma set_is_active_in_environment e i b rows :
  List.filter (App.in_environment e) (App.set_is_active i b rows)
    = App.set_is_active i b (List.filter (App.in_environment e) rows).
Proof.
  unfold App.set_is_active. induction rows as [|d rows IH]; [reflexivity|].
  simpl. assert (He : App.in_environment e
                        (if Nat.eqb (Deployment.id d) i
                         then Deployment.with_is_active b d else d)
                      = App.in_environment e d)
    by now destruct (Nat.eqb _ i).
  rewrite He. destruct (App.in_environment e d); simpl; now rewrite IH.
Qed.

Lemma set_is_active_absent i b rows :
  i ∉ Deployment.id <$> rows -> App.set_is_active i b rows = rows.
Proof.
  unfold App.set_is_active. induction rows as [|d rows IH]; [reflexivity|].
  simpl. intros Hn. apply not_elem_of_cons in Hn as [Hd Hn].
  rewrite (proj2 (Nat.eqb_neq _ _)) by congruence. now rewrite IH.
Qed.

Lemma set_is_active_versions i b rows :
  map Deployment.version_id (App.set_is_active i b rows)
    = map Deployment.version_id rows.
Proof.
  unfold App.set_is_active. rewrite map_map. apply map_ext.
  intros d. now destruct (Nat.eqb _ i).
Qed.

(** A row of another environment does not carry the id of a row of [e]. *)
Lemma id_not_elsewhere e e' rows d :
  NoDup (Deployment.id <$> rows) -> In d rows ->
  App.in_environment e d = true -> e' <> e ->
  Deployment.id d ∉ Deployment.id <$> List.filter (App.in_environment e') rows.
Proof.
  intros Hnd Hd He Hne Hin.
  apply list_elem_of_fmap in Hin as (x & Hid & Hx).
  apply list_elem_of_In, filter_In in Hx as [Hx Hx'].
  assert (x = d).
  { apply (NoDup_key_inj Deployment.id rows); auto; now apply list_elem_of_In. }
  subst x. unfold App.in_environment in *.
  apply String.eqb_eq in He, Hx'. congruence.
Qed.

Section TwoRows.
Context {S : Type} {RC : Engine.RedisClient S} {pg : Postgres}.

(** In an environment whose rows are [A] and [B], exactly one of them active,
    a rollback returns and inverts both flags, touching nothing else. *)
Lemma rollback_two_rows (w : App.World S) (e : string) (A B : Deployment.t) :
  NoDup (Deployment.id <$> App.deployments w) ->
  List.filter (App.in_environment e) (App.deployments w) = [A; B] ->
  Deployment.is_active A = negb (Deployment.is_active B) ->
  is_Some (Versioning.query_by_id (App.prompt_versions w) (Deployment.version_id A)) ->
  is_Some (Versioning.query_by_id (App.prompt_versions w) (Deployment.version_id B)) ->
  exists resp w',
    App.rollback_deployment e w = (Return resp, w') /\
    List.filter (App.in_environment e) (App.deployments w')
      = [Deployment.with_is_active (negb (Deployment.is_active A)) A;
         Deployment.with_is_active (negb (Deployment.is_active B)) B] /\
    (forall e', e' <> e ->
       List.filter (App.in_environment e') (App.deployments w')
         = List.filter (App.in_environment e') (App.deployments w)) /\
    length (App.deployments w') = length (App.deployments w) /\
    map Deployment.version_id (App.deployments w')
      = map Deployment.version_id (App.deployments w) /\
    App.prompt_versions w' = App.prompt_versions w /\
    NoDup (Deployment.id <$> App.deployments w').
Proof.
  intros Hnd Hrows Hflag [vA HvA] [vB HvB].
  assert (HinA : In A (App.deployments w) /\ App.in_environment e A = true).
  { apply filter_In. rewrite Hrows. simpl. auto. }
  assert (HinB : In B (App.deployments w) /\ App.in_environment e B = true).
  { apply filter_In. rewrite Hrows. simpl. auto. }
  destruct HinA as [HinA HeA], HinB as [HinB HeB].
  assert (Hid : Deployment.id A <> Deployment.id B).
  { intros Heq. assert (A = B).
    { apply (NoDup_key_inj Deployment.id (App.deployments w)); auto;
        now apply list_elem_of_In. }
    subst B. now destruct (Deployment.is_active A). }
  assert (HAB : Nat.eqb (Deployment.id A) (Deployment.id B) = false)
    by now apply Nat.eqb_neq.
  assert (HBA : Nat.eqb (Deployment.id B) (Deployment.id A) = false)
    by (apply Nat.eqb_neq; congruence).
  destruct (rollback_deployment_effect e w) as (s' & Heff).
  rewrite active_in_environment, Hrows in Heff.
  assert (Hfinish : forall cur prev,
    (cur = A /\ prev = B \/ cur = B /\ prev = A) ->
    Deployment.is_active cur = true -> Deployment.is_active prev = false ->
    List.filter (App.in_environment e)
      (App.set_is_active (Deployment.id prev) true
         (App.set_is_active (Deployment.id cur) false (App.deployments w)))
      = [Deployment.with_is_active (negb (Deployment.is_active A)) A;
         Deployment.with_is_active (negb (Deployment.is_active B)) B]).
  { intros cur prev Hcp Hc Hp. rewrite !set_is_active_in_environment, Hrows.
    unfold App.set_is_active. simpl.
    destruct Hcp as [[-> ->]|[-> ->]]; rewrite ?Nat.eqb_refl, ?HAB, ?HBA; simpl;
      rewrite ?Nat.eqb_refl, ?HAB, ?HBA, Hc, Hp; reflexivity. }
  assert (Hrest : forall cur prev e',
    (cur = A /\ prev = B \/ cur = B /\ prev = A) -> e' <> e ->
    List.filter (App.in_environment e')
      (App.set_is_active (Deployment.id prev) true
         (App.set_is_active (Deployment.id cur) false (App.deployments w)))
      = List.filter (App.in_environment e') (App.deployments w)).
  { intros cur prev e' Hcp Hne. rewrite !set_is_active_in_environment.
    assert (HA := id_not_elsewhere e e' _ A Hnd HinA HeA Hne).
    assert (HB := id_not_elsewhere e e' _ B Hnd HinB HeB Hne).
    destruct Hcp as [[-> ->]|[-> ->]];
      rewrite (set_is_active_absent _ false) by assumption;
      now rewrite set_is_active_absent by assumption. }
  destruct (Deployment.is_active A) eqn:EA, (Deployment.is_active B) eqn:EB;
    try discriminate; simpl in Heff.
  - (* A is current, B is previous *)
    rewrite EA, EB in Heff. simpl in Heff.
    rewrite other_in_environment, Hrows in Heff. simpl in Heff.
    rewrite Nat.eqb_refl, HBA in Heff. simpl in Heff.
    unfold App.version_hash8 in Heff. rewrite HvA, HvB in Heff.
    eexists _, _. split; [exact Heff|]. simpl.
    split; [apply (Hfinish A B); auto|].
    split; [intros e' Hne; apply (Hrest A B); auto|].
    split; [unfold App.set_is_active; now rewrite !length_map|].
    split; [now rewrite !set_is_active_versions|].
    split; [reflexivity|]. now rewrite !set_is_active_ids.
  - (* B is current, A is previous *)
    rewrite EA, EB in Heff. simpl in Heff.
    rewrite other_in_environment, Hrows in Heff. simpl in Heff.
    rewrite Nat.eqb_refl, HAB in Heff. simpl in Heff.
    unfold App.version_hash8 in Heff. rewrite HvA, HvB in Heff.
    eexists _, _. split; [exact Heff|]. simpl.
    split; [apply (Hfinish B A); auto|].
    split; [intros e' Hne; apply (Hrest B A); auto|].
    split; [unfold App.set_is_active; now rewrite !length_map|].
    split; [now rewrite !set_is_active_versions|].
    split; [reflexivity|]. now rewrite !set_is_active_ids.
Qed.

End TwoRows.

Section RollbackClaims.
Context {S : Type} {RC : Engine.RedisClient S} {pg : Postgres}.

(** C4: in an environment whose rows are [D1], deployed first and inactive,
    and [D2], deployed second and active (in a table whose primary key holds
    and where both rows refer to stored versions, as the foreign key
    requires), a rollback returns; afterwards [D1] is active and [D2]
    inactive, the rows of other environments are as they were, no row was
    appended, and every row refers to the version it referred to. *)
Theorem rollback_swaps_active (w : App.World S) (e : string) (D1 D2 : Deployment.t) :
  NoDup (Deployment.id <$> App.deployments w) ->
  List.filter (App.in_environment e) (App.deployments w) = [D1; D2] ->
  Deployment.is_active D1 = false ->
  Deployment.is_active D2 = true ->
  is_Some (Versioning.query_by_id (App.prompt_versions w) (Deployment.version_id D1)) ->
  is_Some (Versioning.query_by_id (App.prompt_versions w) (Deployment.version_id D2)) ->
  exists resp w',
    App.rollback_deployment e w = (Return resp, w') /\
    List.filter (App.in_environment e) (App.deployments w')
      = [Deployment.with_is_active true D1; Deployment.with_is_active false D2] /\
    (forall e', e' <> e ->
       List.filter (App.in_environment e') (App.deployments w')
         = List.filter (App.in_environment e') (App.deployments w)) /\
    length (App.deployments w') = length (App.deployments w) /\
    map Deployment.version_id (App.deployments w')
      = map Deployment.version_id (App.deployments w) /\
    App.prompt_versions w' = App.prompt_versions w.
Proof.
  intros Hnd Hrows H1 H2 Hv1 Hv2.
  destruct (rollback_two_rows w e D1 D2 Hnd Hrows) as
    (resp & w' & Hr & Hf & Ho & Hl & Hv & Hp & _); auto.
  { now rewrite H1, H2. }
  rewrite H1, H2 in Hf. exists resp, w'. auto 10.
Qed.

(** C5, as the code has it: after that rollback a second rollback returns as
    well, since the row just deactivated is the most recent other row of the
    environment; it swaps the two rows back, so that [D2] is active and [D1]
    inactive again, and appends nothing. *)
Theorem second_rollback_swaps_back (w : App.World S) (e : string)
    (D1 D2 : Deployment.t) :
  NoDup (Deployment.id <$> App.deployments w) ->
  List.filter (App.in_environment e) (App.deployments w) = [D1; D2] ->
  Deployment.is_active D1 = false ->
  Deployment.is_active D2 = true ->
  is_Some (Versioning.query_by_id (App.prompt_versions w) (Deployment.version_id D1)) ->
  is_Some (Versioning.query_by_id (App.prompt_versions w) (Deployment.version_id D2)) ->
  exists resp1 w1 resp2 w2,
    App.rollback_deployment e w = (Return resp1, w1) /\
    List.filter (App.in_environment e) (App.deployments w1)
      = [Deployment.with_is_active true D1; Deployment.with_is_active false D2] /\
    App.rollback_deployment e w1 = (Return resp2, w2) /\
    List.filter (App.in_environment e) (App.deployments w2) = [D1; D2] /\
    length (App.deployments w2) = length (App.deployments w).
Proof.
  intros Hnd Hrows H1 H2 Hv1 Hv2.
  destruct (rollback_two_rows w e D1 D2 Hnd Hrows) as
    (resp1 & w1 & Hr1 & Hf1 & _ & Hl1 & _ & Hp1 & Hnd1); auto.
  { now rewrite H1, H2. }
  destruct (rollback_two_rows w1 e _ _ Hnd1 Hf1) as
    (resp2 & w2 & Hr2 & Hf2 & _ & Hl2 & _ & _ & _).
  { simpl. now rewrite H1, H2. }
  { now rewrite Hp1. }
  { now rewrite Hp1. }
  exists resp1, w1, resp2, w2.
  split; [exact Hr1|]. split; [now rewrite Hf1, H1, H2|].
  split; [exact Hr2|]. split; [|congruence].
  rewrite Hf2. destruct D1, D2. simpl in H1, H2. subst. reflexivity.
Qed.

End RollbackClaims.

(** C5, as stated, fails: with two rows in staging, the second rollback
    returns and changes both flags back. *)
Lemma second_rollback_returns :
  let w1 := snd (App.rollback_deployment (RC:=Doubles.absent_redis) "staging"
                   Doubles.staging_twice) in
  let second := App.rollback_deployment (RC:=Doubles.absent_redis) "staging" w1 in
  map Deployment.is_active (App.deployments Doubles.staging_twice) = [false; true] /\
  map Deployment.is_active (App.deployments w1) = [true; false] /\
  returned (fst second) = true /\
  map Deployment.is_active (App.deployments (snd second)) = [false; true].
Proof. vm_compute. auto. Qed.

(** ** Claims about the history walk *)

Lemma first_desc_max {A} (key : A -> Z) rows c :
  first_desc key rows = Some c ->
  In c rows /\ forall v, In v rows -> (key v <= key c)%Z.
Proof.
  revert c. induction rows as [|x rows IH]; intros c; simpl; [discriminate|].
  destruct (first_desc key rows) as [y|] eqn:E.
  - destruct (IH y eq_refl) as [Hy Hmax].
    destruct (Z.ltb_spec (key x) (key y)); intros [= <-].
    + split; [auto|]. intros v [<-|Hv]; [lia | auto].
    + split; [auto|]. intros v [<-|Hv]; [lia|]. specialize (Hmax v Hv). lia.
  - intros [= <-]. split; [auto|]. intros v [<-|Hv]; [lia|].
    destruct rows; [destruct Hv | simpl in E].
    destruct (first_desc key rows); [destruct (_ <? _)%Z|]; discriminate.
Qed.

Lemma first_desc_nonempty {A} (key : A -> Z) rows :
  rows <> [] -> first_desc key rows <> None.
Proof.
  destruct rows as [|x rows]; [congruence|]. intros _. simpl.
  destruct (first_desc key rows); [destruct (_ <? _)%Z|]; discriminate.
Qed.

Lemma query_by_id_elem db i v :
  Versioning.query_by_id db i = Some v -> In v db /\ PromptVersion.id v = i.
Proof.
  unfold Versioning.query_by_id. intros Hf. apply find_some in Hf as [Hin Hid].
  split; [exact Hin | now apply Nat.eqb_eq].
Qed.

Lemma walk_parents_length db fuel current :
  length (Versioning.walk_parents db fuel current) <= fuel.
Proof.
  revert current. induction fuel as [|k IH]; intros [c|]; simpl; try lia.
  destruct (PromptVersion.parent_id c) as [p|]; simpl; [|lia].
  specialize (IH (Versioning.query_by_id db p)). lia.
Qed.

Lemma walk_parents_head db fuel current :
  0 < fuel -> head (Versioning.walk_parents db fuel current) = current.
Proof. destruct fuel; [lia|]. now destruct current. Qed.

Lemma walk_parents_chain db fuel current :
  child_then_parent (Versioning.walk_parents db fuel current).
Proof.
  revert current. induction fuel as [|k IH]; intros [c|]; simpl; auto.
  destruct (PromptVersion.parent_id c) as [p|] eqn:Hp; simpl; auto.
  split; [|apply IH].
  destruct (Versioning.query_by_id db p) as [b|] eqn:Hq;
    destruct k as [|k']; simpl; try exact I.
  now apply query_by_id_elem in Hq as [_ ->].
Qed.

(** A walk that ends before the limit ends at a row without parent, or at a
    row whose parent is not in the table. *)
Lemma walk_parents_stop db fuel current n :
  last (Versioning.walk_parents db fuel current) = Some n ->
  length (Versioning.walk_parents db fuel current) < fuel ->
  PromptVersion.parent_id n = None \/
  exists p, PromptVersion.parent_id n = Some p /\ Versioning.query_by_id db p = None.
Proof.
  revert current. induction fuel as [|k IH]; intros [c|]; simpl; try discriminate.
  destruct (PromptVersion.parent_id c) as [p|] eqn:Hp.
  - rewrite last_cons.
    destruct (last (Versioning.walk_parents db k (Versioning.query_by_id db p)))
      as [m|] eqn:Hl.
    + intros [= <-] Hlen. apply (IH _ Hl). lia.
    + intros [= <-] Hlen. right. exists p. split; [exact Hp|].
      apply last_None in Hl. rewrite Hl in Hlen. simpl in Hlen.
      destruct k; [lia|]. simpl in Hl.
      destruct (Versioning.query_by_id db p); [discriminate | reflexivity].
  - simpl. intros [= <-] _. now left.
Qed.

(** A row without parent can only be the last one of a chain. *)
Lemma child_then_parent_root l1 n l2 :
  child_then_parent (l1 ++ n :: l2) -> PromptVersion.parent_id n = None -> l2 = [].
Proof.
  induction l1 as [|a l1 IH]; simpl.
  - destruct l2; [reflexivity|]. intros [Hp _] Hn. congruence.
  - intros [_ Hc]. auto.
Qed.

Lemma walk_parents_elem db fuel current v :
  (forall c, current = Some c -> In c db) ->
  In v (Versioning.walk_parents db fuel current) -> In v db.
Proof.
  revert current. induction fuel as [|k IH]; intros [c|] Hc; simpl; try tauto.
  intros [<-|Hin]; [auto|].
  destruct (PromptVersion.parent_id c) as [p|]; [|destruct Hin].
  apply (IH (Versioning.query_by_id db p)); [|exact Hin].
  intros c' Hq. now apply query_by_id_elem in Hq.
Qed.

Lemma find_app_first {A} (f : A -> bool) (l1 l2 : list A) x :
  In x l1 -> f x = true -> exists b, find f (l1 ++ l2) = Some b /\ In b l1.
Proof.
  induction l1 as [|y l1 IH]; intros Hin Hf; [destruct Hin|]. simpl.
  destruct (f y) eqn:Ey; [eauto|].
  destruct Hin as [->|Hin]; [congruence|].
  destruct (IH Hin Hf) as (b & Hb & Hbin). eauto.
Qed.

(** In a consistent store the parent of a row is found, and was inserted
    before the row. *)
Lemma consistent_parent_found db v p :
  consistent db -> In v db -> PromptVersion.parent_id v = Some p ->
  exists b, Versioning.query_by_id db p = Some b /\ inserted_before db b v.
Proof.
  intros [_ _ Hpar] Hin Hp.
  apply list_elem_of_In, list_elem_of_split in Hin as (l1 & l2 & ->).
  specialize (Hpar l1 v l2 p eq_refl Hp).
  apply list_elem_of_fmap in Hpar as (x & -> & Hx). apply list_elem_of_In in Hx.
  destruct (find_app_first (fun u => Nat.eqb (PromptVersion.id u) (PromptVersion.id x))
              l1 (v :: l2) x Hx (Nat.eqb_refl _)) as (b & Hb & Hbin).
  exists b. split; [exact Hb|].
  apply list_elem_of_In, list_elem_of_split in Hbin as (la & lb & ->).
  exists la, lb, l2. now rewrite <- app_assoc.
Qed.

Lemma walk_parents_newest_first db fuel current :
  consistent db -> (forall c, current = Some c -> In c db) ->
  newest_first db (Versioning.walk_parents db fuel current).
Proof.
  intros Hcons. revert current.
  induction fuel as [|k IH]; intros [c|] Hc; simpl; auto.
  destruct (PromptVersion.parent_id c) as [p|] eqn:Hp; simpl; auto.
  destruct (consistent_parent_found db c p Hcons (Hc c eq_refl) Hp)
    as (b & Hq & Hb).
  split.
  - rewrite Hq. destruct k; simpl; [exact I | exact Hb].
  - apply IH. intros c' Hq'. now apply query_by_id_elem in Hq'.
Qed.

Lemma walk_parents_root db fuel current n :
  consistent db -> (forall c, current = Some c -> In c db) ->
  last (Versioning.walk_parents db fuel current) = Some n ->
  length (Versioning.walk_parents db fuel current) < fuel ->
  PromptVersion.parent_id n = None.
Proof.
  intros Hcons Hc Hl Hlen.
  destruct (walk_parents_stop db fuel current n Hl Hlen) as [Hn|(p & Hp & Hq)];
    [exact Hn|].
  assert (Hin : In n db).
  { apply (walk_parents_elem db fuel current); [exact Hc|].
    apply last_Some in Hl as (l' & ->). apply in_or_app. right. now left. }
  destruct (consistent_parent_found db n p Hcons Hin Hp) as (b & Hb & _).
  congruence.
Qed.

Lemma history_start_elem db start_from c :
  match start_from with
  | Some i => Versioning.query_by_id db i
  | None => Versioning.get_current_head db
  end = Some c -> In c db.
Proof.
  destruct start_from as [i|]; intros Hs.
  - now apply query_by_id_elem in Hs.
  - now apply first_desc_In in Hs.
Qed.

(** C8: [get_version_history] is a total function of the table, the limit and
    the start (the loop runs at most [limit] times, whatever the parent
    references are). It returns at most [limit] rows (none when the limit is
    not positive); with a positive limit the first row is the row with id
    [start_from], or, when no start is given, the row with the greatest
    timestamp; every row is followed by its parent; a row without parent can
    only come last. In a store that satisfies its constraints, as every store
    built by commits does, a walk that returns fewer than [limit] rows ends at
    a row without parent, and every row was inserted after the one that
    follows it. *)
Theorem history_walks_parents (db : Versioning.table) (limit : Z)
    (start_from : option UUID) :
  let h := Versioning.get_version_history db limit start_from in
  (Z.of_nat (length h) <= Z.max 0 limit)%Z /\
  ((0 < limit)%Z ->
   head h = match start_from with
            | Some i => Versioning.query_by_id db i
            | None => Versioning.get_current_head db
            end) /\
  (forall i v, Versioning.query_by_id db i = Some v ->
               In v db /\ PromptVersion.id v = i) /\
  (forall c, Versioning.get_current_head db = Some c ->
             In c db /\
             forall v, In v db -> (PromptVersion.timestamp v <= PromptVersion.timestamp c)%Z) /\
  (db <> [] -> Versioning.get_current_head db <> None) /\
  child_then_parent h /\
  (forall l1 n l2, h = l1 ++ n :: l2 -> PromptVersion.parent_id n = None -> l2 = []) /\
  (consistent db ->
   (forall n, last h = Some n -> (Z.of_nat (length h) < limit)%Z ->
              PromptVersion.parent_id n = None) /\
   newest_first db h) /\
  (forall (lib : PyLib) (pg : Postgres) cs, consistent (store_after cs)).
Proof.
  intros h. unfold Versioning.get_version_history in h.
  split. { pose proof (walk_parents_length db (Z.to_nat limit) _ : length h <= _). lia. }
  split. { intros Hpos. apply walk_parents_head. lia. }
  split. { apply query_by_id_elem. }
  split. { intros c. apply first_desc_max. }
  split. { apply first_desc_nonempty. }
  split. { apply walk_parents_chain. }
  split. { intros l1 n l2 Hh. apply (child_then_parent_root l1). rewrite <- Hh.
           apply walk_parents_chain. }
  split; [|intros lib cs; apply store_after_consistent].
  intros Hcons. split.
  - intros n Hl Hlen. subst h.
    eapply (walk_parents_root db); eauto; [|lia].
    intros c. apply history_start_elem.
  - apply walk_parents_newest_first; [exact Hcons|].
    intros c. apply history_start_elem.
Qed.

(** * The hypotheses of the theorems hold on concrete inputs *)

Lemma compute_hash_deterministic_witness :
  same_hashed_keys Doubles.gpt4_metadata Doubles.gpt4_metadata_renamed /\
  @Versioning.compute_hash Doubles.plain_lib "Summarize: {text}" Doubles.gpt4_metadata
  = @Versioning.compute_hash Doubles.plain_lib "Summarize: {text}"
      Doubles.gpt4_metadata_renamed.
Proof.
  assert (Hk : same_hashed_keys Doubles.gpt4_metadata Doubles.gpt4_metadata_renamed)
    by (repeat split).
  split; [exact Hk|].
  exact (proj1 (@compute_hash_deterministic Doubles.plain_lib Doubles.plain_postgres
      "Summarize: {text}"
                  _ _ Hk)).
Defined.

Lemma commit_idempotent_on_hash_witness :
  exists n1 db1,
    @Versioning.create_version Doubles.plain_lib Doubles.plain_postgres (Doubles.amb 1 10)
      "Summarize: {text}" Doubles.gpt4_metadata (PList []) "alice" "first" None
      (@store_after Doubles.plain_lib Doubles.plain_postgres []) = (Return n1, db1) /\
    @Versioning.create_version Doubles.plain_lib Doubles.plain_postgres (Doubles.amb 2 20)
      "Summarize: {text}" Doubles.gpt4_metadata_renamed (PList [PStr "v2"]) "bob"
      "second" (Some 7) db1 = (Return n1, db1) /\
    rows_with_hash
      (@Versioning.compute_hash Doubles.plain_lib "Summarize: {text}"
         Doubles.gpt4_metadata) db1 = 1 /\
    PromptVersion.parent_id n1 = None.
Proof.
  eexists _, _. split; [reflexivity|].
  destruct (@commit_idempotent_on_hash Doubles.plain_lib Doubles.plain_postgres []
              (Doubles.amb 1 10) (Doubles.amb 2 20) "Summarize: {text}"
              Doubles.gpt4_metadata Doubles.gpt4_metadata_renamed
              (PList []) (PList [PStr "v2"]) "alice" "bob" "first" "second"
              None (Some 7) _ _ ltac:(repeat split) eq_refl)
    as (H2 & H1 & Hnew).
  split; [exact H2|]. split; [exact H1|].
  exact (proj1 (proj2 (proj2 (Hnew eq_refl)))).
Defined.

Lemma compute_hash_defaults_witness :
  (exists n db,
     @Versioning.create_version Doubles.plain_lib Doubles.plain_postgres (Doubles.amb 1 10)
       "Summarize: {text}" Doubles.default_metadata (PList []) "alice" "first" None []
       = (Return n, db) /\
     @Versioning.create_version Doubles.plain_lib Doubles.plain_postgres (Doubles.amb 2 20)
       "Summarize: {text}" ∅ (PList []) "bob" "second" (Some 1) db
       = (Return n, db)) /\
  @Versioning.compute_hash Doubles.plain_lib "Summarize: {text}" ∅
  = "{" +:+ json_string "content" +:+ ": " +:+ json_string "Summarize: {text}"
    +:+ ", " +:+ json_string "model" +:+ ": " +:+ json_string ""
    +:+ ", " +:+ json_string "temperature" +:+ ": 0.7"
    +:+ ", " +:+ json_string "version" +:+ ": " +:+ json_string "1.0.0" +:+ "}" /\
  @Versioning.compute_hash Doubles.plain_lib "Summarize: {text}" ∅
  <> @Versioning.compute_hash Doubles.plain_lib "Summarize: {text}"
       Doubles.gpt4_metadata.
Proof.
  pose proof (@compute_hash_defaults Doubles.plain_lib Doubles.plain_postgres "Summarize: {text}")
    as (Habsent & _ & _ & _ & Hdedup & _).
  split; [|split].
  - eexists _, _. split; [reflexivity|].
    exact (Hdedup (Doubles.amb 1 10) (PList []) "alice" "first" None [] _ _ eq_refl
             (Doubles.amb 2 20) (PList []) "bob" "second" (Some 1)).
  - exact (Habsent ∅ (lookup_empty _) (lookup_empty _) (lookup_empty _)).
  - rewrite (Habsent ∅ (lookup_empty _) (lookup_empty _) (lookup_empty _)).
    vm_compute. discriminate.
Defined.


Lemma parsed_content_is_stripped_witness :
  exists n db',
    @Cli.commit_file Doubles.plain_lib Doubles.plain_postgres (Doubles.amb 1 10)
      {| Versioning.path_str := "prompts/summary.yaml"; Versioning.stem := "summary" |}
      (Versioning.Mapping (<["content" := PStr "  Summarize: {text} "]> ∅))
      "alice" "first" [] = (Return n, db') /\
    ((db' = [] /\ In n []) \/
     (db' = [] ++ [n] /\
      PromptVersion.content n = strip "  Summarize: {text} " /\
      trimmed (PromptVersion.content n))).
Proof.
  eexists _, _. split; [reflexivity|].
  exact (proj1 (@parsed_content_is_stripped Doubles.plain_lib Doubles.plain_postgres
      (Doubles.amb 1 10)
                  {| Versioning.path_str := "prompts/summary.yaml";
                     Versioning.stem := "summary" |}
                  (<["content" := PStr "  Summarize: {text} "]> ∅)
                  "  Summarize: {text} " "alice" "first" [] _ _ eq_refl eq_refl)).
Defined.

Lemma single_active_deployment_witness :
  let w := App.run (RC:=Doubles.absent_redis) (pg:=Doubles.plain_postgres) Doubles.deploy_twice
             {| App.prompt_versions := App.prompt_versions Doubles.staging_twice;
                App.deployments := [];
                App.redis := tt |} in
  App.deployments w = App.deployments Doubles.staging_twice /\
  (exists resp w',
     App.deploy_version (RC:=Doubles.absent_redis) (pg:=Doubles.plain_postgres) (Doubles.amb 13 300)
       {| App.version_hash := "aaaa"; App.environment := "staging";
          App.deployed_by := "bob" |} w = (Return resp, w') /\
     active_rows "staging" (App.deployments w') = 1 /\
     length (App.deployments w') = 3) /\
  (exists resp w',
     App.rollback_deployment (RC:=Doubles.absent_redis) "staging" w
       = (Return resp, w') /\
     flips false true (App.deployments w) (App.deployments w') = 1 /\
     flips true false (App.deployments w) (App.deployments w') = 1 /\
     active_rows "staging" (App.deployments w') = 1).
Proof.
  cbv zeta.
  destruct (single_active_deployment (RC:=Doubles.absent_redis) (pg:=Doubles.plain_postgres)
              (App.prompt_versions Doubles.staging_twice) tt Doubles.deploy_twice)
    as (_ & Hdeploy & Hrollback).
  split; [reflexivity|]. split.
  - eexists _, _. split; [reflexivity|].
    destruct (Hdeploy (Doubles.amb 13 300)
                {| App.version_hash := "aaaa"; App.environment := "staging";
                   App.deployed_by := "bob" |} _ _ eq_refl)
      as (row & Hrows & _ & _ & _ & Hone).
    split; [exact Hone | reflexivity].
  - eexists _, _. split; [reflexivity|].
    destruct (Hrollback "staging" _ _ eq_refl) as (_ & Hup & Hdown & Hone).
    auto.
Defined.

Lemma rollback_swaps_active_witness :
  exists resp w',
    App.rollback_deployment (RC:=Doubles.absent_redis) "staging" Doubles.staging_twice
      = (Return resp, w') /\
    List.filter (App.in_environment "staging") (App.deployments w')
      = [Deployment.mk 11 1 "staging" 100 "alice" None true;
         Deployment.mk 12 2 "staging" 200 "alice" None false].
Proof.
  destruct (rollback_swaps_active (RC:=Doubles.absent_redis) Doubles.staging_twice
              "staging"
              (Deployment.mk 11 1 "staging" 100 "alice" None false)
              (Deployment.mk 12 2 "staging" 200 "alice" None true))
    as (resp & w' & Hr & Hf & _).
  - apply (bool_decide_unpack _). vm_compute. exact I.
  - reflexivity.
  - reflexivity.
  - reflexivity.
  - eexists. reflexivity.
  - eexists. reflexivity.
  - exists resp, w'. split; [exact Hr | exact Hf].
Defined.

Lemma second_rollback_swaps_back_witness :
  exists resp1 w1 resp2 w2,
    App.rollback_deployment (RC:=Doubles.absent_redis) "staging" Doubles.staging_twice
      = (Return resp1, w1) /\
    App.rollback_deployment (RC:=Doubles.absent_redis) "staging" w1
      = (Return resp2, w2) /\
    List.filter (App.in_environment "staging") (App.deployments w2)
      = [Deployment.mk 11 1 "staging" 100 "alice" None false;
         Deployment.mk 12 2 "staging" 200 "alice" None true].
Proof.
  destruct (second_rollback_swaps_back (RC:=Doubles.absent_redis) Doubles.staging_twice
              "staging"
              (Deployment.mk 11 1 "staging" 100 "alice" None false)
              (Deployment.mk 12 2 "staging" 200 "alice" None true))
    as (resp1 & w1 & resp2 & w2 & Hr1 & _ & Hr2 & Hf & _).
  - apply (bool_decide_unpack _). vm_compute. exact I.
  - reflexivity.
  - reflexivity.
  - reflexivity.
  - eexists. reflexivity.
  - eexists. reflexivity.
  - exists resp1, w1, resp2, w2. auto.
Defined.

Lemma history_walks_parents_witness :
  let db := @store_after Doubles.plain_lib Doubles.plain_postgres Doubles.two_commits in
  let h := Versioning.get_version_history db 10 None in
  consistent db /\ (0 < 10)%Z /\
  map PromptVersion.id h = [2; 1] /\
  head h = Versioning.get_current_head db /\
  (forall n, last h = Some n -> PromptVersion.parent_id n = None) /\
  newest_first db h.
Proof.
  cbv zeta.
  destruct (history_walks_parents (@store_after Doubles.plain_lib Doubles.plain_postgres
      Doubles.two_commits)
              10 None)
    as (_ & Hhead & _ & _ & _ & _ & _ & Hcons & Hreach).
  pose proof (Hreach Doubles.plain_lib Doubles.plain_postgres Doubles.two_commits) as Hc.
  destruct (Hcons Hc) as [Hroot Hnew].
  split; [exact Hc|]. split; [lia|]. split; [reflexivity|].
  split; [apply Hhead; lia|]. split; [|exact Hnew].
  intros n Hl. apply (Hroot n Hl). vm_compute. reflexivity.
Defined.

Lemma cache_never_fails_witness :
  (Engine.redis_get (RedisClient:=Doubles.broken_redis)
     (Engine._get_cache_key "staging" None) tt
     = (Raise (RedisError "connection reset"), tt) /\
   fst (Engine.get_from_cache (RC:=Doubles.broken_redis) (JC:=Doubles.text_codec)
          {| Engine.redis_available := true;
             Engine.redis_client := Some Engine.REDIS_URL |}
          "staging" None tt) = Return None) /\
  (Engine.invalidate_cache (RC:=Doubles.broken_redis)
     {| Engine.redis_available := false; Engine.redis_client := None |}
     "staging" tt = (Return tt, tt)) /\
  (Engine.redis_get (RedisClient:=Doubles.memory_redis)
     (Engine._get_cache_key "staging" None)
     {[ Engine._get_cache_key "staging" None := "{" ]}
     = (Return (Some "{"), {[ Engine._get_cache_key "staging" None := "{" ]}) /\
   fst (Engine.get_from_cache (RC:=Doubles.memory_redis) (JC:=Doubles.failing_codec)
          {| Engine.redis_available := true;
             Engine.redis_client := Some Engine.REDIS_URL |}
          "staging" None {[ Engine._get_cache_key "staging" None := "{" ]})
   = Return None).
Proof.
  split; [|split].
  - split; [reflexivity|].
    destruct (cache_never_fails (RC:=Doubles.broken_redis)
        (pg:=Doubles.plain_postgres) (JC:=Doubles.text_codec)
                (PV:=Doubles.lenient_pydantic)
                (fun _ => "")
                {| Engine.redis_available := true;
                   Engine.redis_client := Some Engine.REDIS_URL |}
                "staging" None "" 3600 tt)
      as (_ & _ & _ & _ & _ & Hfail & _).
    exact (Hfail _ _ eq_refl).
  - destruct (cache_never_fails (RC:=Doubles.broken_redis)
      (pg:=Doubles.plain_postgres) (JC:=Doubles.text_codec)
                (PV:=Doubles.lenient_pydantic)
                (fun _ => "")
                {| Engine.redis_available := false; Engine.redis_client := None |}
                "staging" None "" 3600 tt)
      as (_ & _ & _ & _ & Hdown & _).
    exact (proj2 (proj2 (Hdown eq_refl))).
  - split; [reflexivity|].
    destruct (cache_never_fails (RC:=Doubles.memory_redis)
        (pg:=Doubles.plain_postgres) (JC:=Doubles.failing_codec)
                (PV:=Doubles.lenient_pydantic)
                (fun _ => "")
                {| Engine.redis_available := true;
                   Engine.redis_client := Some Engine.REDIS_URL |}
                "staging" None "" 3600
                {[ Engine._get_cache_key "staging" None := "{" ]})
      as (_ & _ & _ & _ & _ & _ & Hgarbled & _).
    exact (Hgarbled "{" _ _ eq_refl eq_refl).
Defined.

(** * Further properties of the modelled code *)

(** ** The version store is append-only *)

Section AppendOnly.
Context {lib : PyLib} {pg : Postgres}.

Lemma find_app_found {A} (f : A -> bool) (l1 l2 : list A) x :
  find f l1 = Some x -> find f (l1 ++ l2) = Some x.
Proof.
  induction l1 as [|y l1 IH]; simpl; [discriminate|].
  destruct (f y); auto.
Qed.

Lemma create_version_extends amb content metadata tags author message parent db :
  exists l,
    snd (Versioning.create_version amb content metadata tags author message parent db)
      = db ++ l /\ length l <= 1.
Proof.
  destruct (Versioning.create_version _ _ _ _ _ _ _ db) as [[n|e] db'] eqn:E; simpl.
  - apply create_version_cases in E as [[_ ->]|(_ & -> & _)].
    + exists []. rewrite app_nil_r. auto.
    + exists [n]. auto.
  - apply create_version_raises in E as [-> _]. exists []. rewrite app_nil_r. auto.
Qed.

Lemma fold_commits_extend cs db :
  exists l, fold_left (fun db c => snd (call c db)) cs db = db ++ l /\ length l <= length cs.
Proof.
  revert db. induction cs as [|c cs IH]; intros db; simpl.
  - exists []. rewrite app_nil_r. auto.
  - destruct (create_version_extends (commit_ambient c) (commit_content c)
                (commit_metadata c) (commit_tags c) (commit_author c)
                (commit_message c) (commit_parent c) db) as (l1 & H1 & Hl1).
    unfold call at 2. rewrite H1.
    destruct (IH (db ++ l1)) as (l2 & H2 & Hl2).
    exists (l1 ++ l2). rewrite H2, <- app_assoc, length_app. split; [reflexivity | lia].
Qed.

(** X1: commits only append. Whatever calls of [create_version] follow, the
    table they leave starts with the table they found, at most one row longer
    per call, and a hash or an id that resolved to a row still resolves to
    that row. *)
Theorem store_is_append_only (cs : list commit) (db : Versioning.table) :
  let db' := fold_left (fun db c => snd (call c db)) cs db in
  (exists l, db' = db ++ l /\ length l <= length cs) /\
  (forall h v, Versioning.get_version_by_hash db h = Some v ->
               Versioning.get_version_by_hash db' h = Some v) /\
  (forall i v, Versioning.query_by_id db i = Some v ->
               Versioning.query_by_id db' i = Some v).
Proof.
  cbv zeta. destruct (fold_commits_extend cs db) as (l & -> & Hl).
  split; [eauto|]. split.
  - intros h v. apply find_app_found.
  - intros i v. apply find_app_found.
Qed.

End AppendOnly.

(** ** The loop of [commit_command] *)

Section CommitLoop.
Context {lib : PyLib} {pg : Postgres}.

Lemma commit_file_extends amb file_path data author message db :
  exists l,
    snd (Cli.commit_file amb file_path data author message db) = db ++ l.
Proof.
  unfold Cli.commit_file.
  destruct (Versioning.parse_prompt_file file_path data) as [parsed|e].
  - destruct (create_version_extends amb (Versioning.parsed_content parsed)
                (Versioning.parsed_metadata parsed) (Versioning.parsed_tags parsed)
                author message
                (option_map PromptVersion.id (Versioning.get_current_head db)) db)
      as (l & Hl & _).
    eauto.
  - exists []. now rewrite app_nil_r.
Qed.

Lemma commit_file_consistent amb file_path data author message db :
  consistent db ->
  consistent (snd (Cli.commit_file amb file_path data author message db)).
Proof.
  intros Hc. unfold Cli.commit_file.
  destruct (Versioning.parse_prompt_file file_path data); [|exact Hc].
  now apply create_version_consistent.
Qed.

Lemma commit_file_returned_stored amb file_path data author message db n db' :
  Cli.commit_file amb file_path data author message db = (Return n, db') ->
  In n db'.
Proof.
  unfold Cli.commit_file.
  destruct (Versioning.parse_prompt_file file_path data); [|discriminate].
  intros Hc. apply create_version_stored in Hc. eapply query_by_hash_In; eauto.
Qed.

(** X2: [commit_command] is not atomic across files. When the loop returns,
    it returns one version per staged file, each of them stored. When it
    raises, the staged list splits at the failing file: the files before it
    were committed exactly as a run over them alone commits them, the failing
    file raised the exception and added nothing, and the files after it were
    not looked at. In both cases the table found is kept as a prefix and the
    constraints of the table are kept. *)
Theorem commit_command_stops_at_first_failure
    (staged : list (Ambient * Versioning.Path * Versioning.Document))
    (author message : string) (db : Versioning.table) :
  (exists l, snd (Cli.commit_command staged author message db) = db ++ l) /\
  (consistent db -> consistent (snd (Cli.commit_command staged author message db))) /\
  match Cli.commit_command staged author message db with
  | (Return versions, db') =>
      length versions = length staged /\ forall v, In v versions -> In v db'
  | (Raise e, db') =>
      exists done amb file_path data rest versions,
        staged = done ++ (amb, file_path, data) :: rest /\
        Cli.commit_command done author message db = (Return versions, db') /\
        Cli.commit_file amb file_path data author message db' = (Raise e, db')
  end.
Proof.
  revert db. induction staged as [|[[amb file_path] data] rest IH]; intros db.
  - simpl. split; [exists []; now rewrite app_nil_r|]. split; [auto|].
    split; [reflexivity | intros v []].
  - simpl.
    destruct (commit_file_extends amb file_path data author message db) as (l1 & Hl1).
    pose proof (commit_file_consistent amb file_path data author message db) as Hc1.
    destruct (Cli.commit_file amb file_path data author message db)
      as [[version|e] db1] eqn:Hf; simpl in Hl1, Hc1.
    + destruct (IH db1) as ((l2 & Hl2) & Hc2 & Hrun).
      destruct (Cli.commit_command rest author message db1)
        as [[versions|e] db2] eqn:Hr; simpl in *.
      * split; [exists (l1 ++ l2); now rewrite Hl2, Hl1, app_assoc|].
        split; [auto|]. destruct Hrun as [Hlen Hin].
        split; [now rewrite Hlen|].
        intros v [<-|Hv]; [|auto].
        apply commit_file_returned_stored in Hf. rewrite Hl2.
        apply in_or_app. now left.
      * split; [exists (l1 ++ l2); now rewrite Hl2, Hl1, app_assoc|].
        split; [auto|].
        destruct Hrun as (done & amb' & path' & data' & rest' & versions & -> & Hd & Hbad).
        exists ((amb, file_path, data) :: done), amb', path', data', rest',
               (version :: versions).
        split; [reflexivity|]. split; [|exact Hbad].
        simpl. now rewrite Hf, Hd.
    + assert (db1 = db) as ->.
      { unfold Cli.commit_file in Hf.
        destruct (Versioning.parse_prompt_file file_path data); [|congruence].
        now apply create_version_raises in Hf as [-> _]. }
      split; [eauto|]. split; [auto|].
      exists [], amb, file_path, data, rest, [].
      split; [reflexivity|]. split; [reflexivity | exact Hf].
Qed.

End CommitLoop.

(** ** A commit on top of HEAD *)

Lemma query_by_id_row db v :
  consistent db -> In v db -> Versioning.query_by_id db (PromptVersion.id v) = Some v.
Proof.
  intros [Hnd _ _] Hin. unfold Versioning.query_by_id.
  induction db as [|y db IH]; [destruct Hin|].
  simpl in *. apply NoDup_cons in Hnd as [Hy Hnd].
  destruct Hin as [->|Hin]; [now rewrite Nat.eqb_refl|].
  destruct (Nat.eqb_spec (PromptVersion.id y) (PromptVersion.id v)) as [Heq|_]; [|auto].
  exfalso. apply Hy. rewrite Heq. apply list_elem_of_fmap_2. now apply list_elem_of_In.
Qed.

Lemma walk_parents_app db l fuel current :
  consistent db -> (forall c, current = Some c -> In c db) ->
  Versioning.walk_parents (db ++ l) fuel current = Versioning.walk_parents db fuel current.
Proof.
  intros Hcons. revert current.
  induction fuel as [|k IH]; intros [c|] Hc; simpl; auto.
  f_equal. destruct (PromptVersion.parent_id c) as [p|] eqn:Hp; [|reflexivity].
  destruct (consistent_parent_found db c p Hcons (Hc c eq_refl) Hp) as (b & Hq & _).
  unfold Versioning.query_by_id in *. rewrite (find_app_found _ _ l _ Hq), Hq.
  apply IH. intros c' [= <-]. now apply find_some in Hq.
Qed.

Lemma first_desc_newest {A} (key : A -> Z) (l : list A) x :
  (forall v, In v l -> (key v < key x)%Z) -> first_desc key (l ++ [x]) = Some x.
Proof.
  induction l as [|y l IH]; intros Hlt; [reflexivity|]. simpl.
  rewrite IH by (intros v Hv; apply Hlt; now right).
  assert (key y < key x)%Z as Hy by (apply Hlt; now left).
  now rewrite (proj2 (Z.ltb_lt _ _) Hy).
Qed.

Section CommitOnHead.
Context {lib : PyLib} {pg : Postgres}.

(** X3: a commit of a prompt file that creates a node, made when the clock is
    later than every stored timestamp, puts the node at the end of the table
    with the former HEAD as its parent; the node is the new HEAD, and the
    history from HEAD is the node followed by the former history, one shorter.
    The store is one that satisfies the constraints of the table. *)
Theorem commit_becomes_head (amb : Ambient) (file_path : Versioning.Path)
    (data : Versioning.Document) (author message : string)
    (db db' : Versioning.table) (n : PromptVersion.t) :
  consistent db ->
  (forall v, In v db -> (PromptVersion.timestamp v < utcnow amb)%Z) ->
  Cli.commit_file amb file_path data author message db = (Return n, db') ->
  db' <> db ->
  db' = db ++ [n] /\
  Versioning.get_current_head db' = Some n /\
  PromptVersion.parent_id n
    = option_map PromptVersion.id (Versioning.get_current_head db) /\
  forall limit, (0 < limit)%Z ->
    Versioning.get_version_history db' limit None
      = n :: Versioning.get_version_history db (limit - 1) None.
Proof.
  intros Hcons Hclock Hc Hnew. unfold Cli.commit_file in Hc.
  destruct (Versioning.parse_prompt_file file_path data) as [parsed|]; [|discriminate].
  apply create_version_cases in Hc as [[_ ->]|(_ & -> & Hn)]; [congruence|].
  assert (Hts : PromptVersion.timestamp n = utcnow amb) by now subst n.
  assert (Hpar : PromptVersion.parent_id n
                 = option_map PromptVersion.id (Versioning.get_current_head db))
    by now subst n.
  assert (Hhead : Versioning.get_current_head (db ++ [n]) = Some n).
  { apply first_desc_newest. intros v Hv. rewrite Hts. auto. }
  repeat split; auto.
  intros limit Hpos. unfold Versioning.get_version_history. rewrite Hhead.
  replace (Z.to_nat limit) with (S (Z.to_nat (limit - 1))) by lia.
  simpl. f_equal. rewrite Hpar.
  destruct (Versioning.get_current_head db) as [hd|] eqn:Hhd; simpl.
  - assert (Hin : In hd db) by now apply first_desc_In in Hhd.
    pose proof (query_by_id_row db hd Hcons Hin) as Hq.
    unfold Versioning.query_by_id in *. rewrite (find_app_found _ _ [n] _ Hq).
    apply walk_parents_app; [exact Hcons|]. now intros c [= <-].
  - now destruct (Z.to_nat (limit - 1)).
Qed.

End CommitOnHead.

Lemma commit_becomes_head_witness :
  let db := @store_after Doubles.plain_lib Doubles.plain_postgres Doubles.two_commits in
  exists n db',
    @Cli.commit_file Doubles.plain_lib Doubles.plain_postgres (Doubles.amb 3 30)
      {| Versioning.path_str := "prompts/third.yaml"; Versioning.stem := "third" |}
      (Versioning.Mapping (<["content" := PStr "Condense: {text}"]> ∅)) "carol" "third" db
    = (Return n, db') /\
    map PromptVersion.id (Versioning.get_version_history db' 10 None) = [3; 2; 1].
Proof.
  cbv zeta. eexists _, _. split; [reflexivity|].
  edestruct (@commit_becomes_head Doubles.plain_lib Doubles.plain_postgres (Doubles.amb 3 30)
              {| Versioning.path_str := "prompts/third.yaml"; Versioning.stem := "third" |}
              (Versioning.Mapping (<["content" := PStr "Condense: {text}"]> ∅)) "carol" "third"
              (@store_after Doubles.plain_lib Doubles.plain_postgres Doubles.two_commits))
    as (_ & _ & _ & Hh).
  - apply store_after_consistent.
  - intros v Hv. vm_compute in Hv.
    destruct Hv as [<-|[<-|[]]]; vm_compute; reflexivity.
  - reflexivity.
  - vm_compute. discriminate.
  - rewrite (Hh 10%Z ltac:(lia)). reflexivity.
Defined.

(** ** What [parse_prompt_file] accepts *)

Lemma parse_prompt_file_content file_path (d : gmap string pyval) s :
  d !! "content" = Some (PStr s) -> s <> "" ->
  Versioning.parse_prompt_file file_path (Versioning.Mapping d) =
  Return {| Versioning.parsed_content := strip s;
            Versioning.parsed_metadata :=
              list_to_map
                [ ("name", dict_get d "name" (PStr (Versioning.stem file_path)));
                  ("version", dict_get d "version" (PStr "1.0.0"));
                  ("model", dict_get d "model" (PStr "gpt-4"));
                  ("temperature", dict_get d "temperature" (PFloat float_0_7));
                  ("max_tokens", dict_get d "max_tokens" PNone);
                  ("top_p", dict_get d "top_p" PNone) ];
            Versioning.parsed_tags := dict_get d "tags" (PList []) |}.
Proof.
  intros Hc Hs. unfold Versioning.parse_prompt_file.
  destruct (Nat.eqb_spec (size d) 0) as [Hz|_].
  { apply map_size_empty_iff in Hz. subst d. rewrite lookup_empty in Hc. discriminate. }
  unfold dict_get at 1 2. rewrite Hc. simpl.
  destruct (String.eqb_spec s ""); [contradiction | reflexivity].
Qed.

(** X4: [parse_prompt_file] returns exactly when the document is a mapping
    whose [content] is a non-empty string. It then returns the content
    stripped, the tags of the file (or the empty list), and a metadata dict
    with the six keys [name], [version], [model], [temperature], [max_tokens],
    [top_p] and no other key of the file, where [model], [temperature] and
    [version] are the file's or else ["gpt-4"], [0.7], ["1.0.0"]. It raises
    [ValueError] exactly when the document is falsy (empty file, empty
    mapping, empty sequence, zero, ...) or is a mapping whose content is
    absent or falsy, and [AttributeError] exactly when the document is a
    truthy value that is not a mapping (which has no [get]) or a mapping
    whose content is a truthy value that is not a string (which has no
    [strip]); it raises nothing else. *)
Theorem parse_prompt_file_accepts (file_path : Versioning.Path)
    (data : Versioning.Document) :
  match Versioning.parse_prompt_file file_path data with
  | Return p =>
      exists d s,
        data = Versioning.Mapping d /\ d !! "content" = Some (PStr s) /\ s <> "" /\
        Versioning.parsed_content p = strip s /\
        Versioning.parsed_tags p = dict_get d "tags" (PList []) /\
        dom (Versioning.parsed_metadata p)
          = ({[ "name"; "version"; "model"; "temperature"; "max_tokens"; "top_p" ]}
             : gset string) /\
        Versioning.parsed_metadata p !! "model"
          = Some (dict_get d "model" (PStr "gpt-4")) /\
        Versioning.parsed_metadata p !! "temperature"
          = Some (dict_get d "temperature" (PFloat float_0_7)) /\
        Versioning.parsed_metadata p !! "version"
          = Some (dict_get d "version" (PStr "1.0.0"))
  | Raise (ValueError _) =>
      match data with
      | Versioning.Value v => truthy v = false
      | Versioning.Mapping d =>
          d = ∅ \/ truthy (dict_get d "content" (PStr "")) = false
      end
  | Raise (AttributeError msg) =>
      match data with
      | Versioning.Value v =>
          truthy v = true /\
          msg = "'" +:+ type_name v +:+ "' object has no attribute 'get'"
      | Versioning.Mapping d =>
          exists v, d !! "content" = Some v /\ truthy v = true /\
                    (forall s, v <> PStr s) /\
                    msg = "'" +:+ type_name v +:+ "' object has no attribute 'strip'"
      end
  | Raise _ => False
  end.
Proof.
  destruct data as [d|v]; simpl.
  - destruct (size d =? 0)%nat eqn:Hz.
    { left. now apply Nat.eqb_eq, map_size_empty_iff in Hz. }
    destruct (truthy (dict_get d "content" (PStr ""))) eqn:Ht; simpl; [|now right].
    unfold dict_get in Ht |- *.
    destruct (d !! "content") as [v|] eqn:Hc; simpl in *; [|discriminate].
    destruct v as [|b|z|f|s|l]; simpl in Ht |- *; try discriminate;
      try (eexists; split; [reflexivity|]; split; [exact Ht|];
           split; [discriminate | reflexivity]).
    exists d, s. repeat split; auto.
    intros ->. discriminate.
  - destruct (truthy v) eqn:Ht; simpl; auto.
Qed.

Section SamePrompt.
Context {lib : PyLib} {pg : Postgres}.

(** X5: deduplication looks through the file. Two prompt files whose contents
    are equal once stripped and whose model, temperature and version (the
    file's, or the parser's defaults) are equal commit to one node, whatever
    their names, tags, other keys, authors and messages are: the second
    commit returns the node of the first and adds nothing. *)
Theorem same_prompt_commits_once (amb1 amb2 : Ambient)
    (path1 path2 : Versioning.Path) (d1 d2 : gmap string pyval) (s1 s2 : string)
    (author1 author2 message1 message2 : string)
    (db db1 : Versioning.table) (n : PromptVersion.t) :
  d1 !! "content" = Some (PStr s1) ->
  d2 !! "content" = Some (PStr s2) ->
  s2 <> "" ->
  strip s1 = strip s2 ->
  dict_get d1 "model" (PStr "gpt-4") = dict_get d2 "model" (PStr "gpt-4") ->
  dict_get d1 "temperature" (PFloat float_0_7)
    = dict_get d2 "temperature" (PFloat float_0_7) ->
  dict_get d1 "version" (PStr "1.0.0") = dict_get d2 "version" (PStr "1.0.0") ->
  Cli.commit_file amb1 path1 (Versioning.Mapping d1) author1 message1 db = (Return n, db1) ->
  Cli.commit_file amb2 path2 (Versioning.Mapping d2) author2 message2 db1 = (Return n, db1).
Proof.
  intros Hc1 Hc2 Hs2 Hstrip Hm Ht Hv Hfirst.
  assert (Hs1 : s1 <> "").
  { intros ->. unfold Cli.commit_file, Versioning.parse_prompt_file in Hfirst.
    destruct (size d1 =? 0)%nat; [discriminate|].
    unfold dict_get at 1 in Hfirst. rewrite Hc1 in Hfirst. discriminate. }
  unfold Cli.commit_file in *.
  rewrite (parse_prompt_file_content path1 d1 s1 Hc1 Hs1) in Hfirst.
  rewrite (parse_prompt_file_content path2 d2 s2 Hc2 Hs2).
  cbn [Versioning.parsed_content Versioning.parsed_metadata Versioning.parsed_tags] in *.
  apply create_version_stored in Hfirst.
  apply create_version_existing. rewrite <- Hstrip, <- Hfirst. f_equal.
  apply compute_hash_same_keys. unfold same_hashed_keys.
  rewrite Hm, Ht, Hv. repeat split.
Qed.

End SamePrompt.

(** ** The deployment history of an environment *)

Lemma insert_desc_perm {A} (key : A -> Z) x l :
  Permutation (AppHistory.insert_desc key x l) (x :: l).
Proof.
  induction l as [|y l IH]; simpl; [reflexivity|].
  destruct (key y <=? key x)%Z; [reflexivity|].
  rewrite IH. apply perm_swap.
Qed.

Lemma order_by_desc_perm {A} (key : A -> Z) l :
  Permutation (AppHistory.order_by_desc key l) l.
Proof.
  unfold AppHistory.order_by_desc. induction l as [|x l IH]; simpl; [reflexivity|].
  rewrite insert_desc_perm. now rewrite IH.
Qed.

Lemma insert_desc_descending x l :
  Reach.descending l ->
  Reach.descending (AppHistory.insert_desc Deployment.deployed_at x l).
Proof.
  induction l as [|y l IH]; simpl; [intros _; split; [intros ? [] | exact I]|].
  intros [Hy Hl]. destruct (Z.leb_spec (Deployment.deployed_at y) (Deployment.deployed_at x)).
  - simpl. split; [|auto]. intros d' [<-|Hd']; [assumption|].
    specialize (Hy d' Hd'). lia.
  - simpl. split; [|auto]. intros d' Hd'.
    apply (Permutation_in _ (insert_desc_perm Deployment.deployed_at x l)) in Hd'.
    destruct Hd' as [<-|Hd']; [lia | auto].
Qed.

Lemma order_by_desc_descending l :
  Reach.descending (AppHistory.order_by_desc Deployment.deployed_at l).
Proof.
  unfold AppHistory.order_by_desc. induction l as [|x l IH]; simpl; [exact I|].
  now apply insert_desc_descending.
Qed.

Lemma firstn_In {A} n (l : list A) a : In a (firstn n l) -> In a l.
Proof.
  intros Ha. rewrite <- (firstn_skipn n l). apply in_or_app. now left.
Qed.

Lemma descending_split n l :
  Reach.descending l ->
  Reach.descending (firstn n l) /\
  forall a b, In a (firstn n l) -> In b (skipn n l) ->
              (Deployment.deployed_at b <= Deployment.deployed_at a)%Z.
Proof.
  revert l. induction n as [|n IH]; intros [|d l]; simpl; try (intuition; fail).
  intros [Hd Hl]. destruct (IH l Hl) as [Hf Hs]. split.
  - split; [|exact Hf]. intros d' Hd'. apply Hd. eapply firstn_In; eauto.
  - intros a b [<-|Ha] Hb; [|auto]. apply Hd.
    rewrite <- (firstn_skipn n l). apply in_or_app. now right.
Qed.

Lemma entries_show versions ds :
  Reach.references_stored versions ds ->
  exists es, AppHistory.entries versions ds = Return es /\
             Forall2 (Reach.shows versions) ds es.
Proof.
  induction ds as [|d ds IH]; intros Href; simpl; [eauto|].
  destruct (Href d (or_introl eq_refl)) as [v Hv].
  destruct IH as (es & -> & Hes); [intros d' Hd'; apply Href; now right|].
  unfold App.version_hash8 at 1. rewrite Hv.
  eexists. split; [reflexivity|]. constructor; [|exact Hes].
  unfold Reach.shows, App.version_hash8. rewrite Hv. simpl. auto.
Qed.

Lemma history_most_recent {S} (w : App.World S)
    (environment : string) (limit : Z) :
  (0 <= limit < 2 ^ 63)%Z ->
  Reach.references_stored (App.prompt_versions w) (App.deployments w) ->
  exists shown older es,
    AppHistory.get_deployment_history environment limit w
      = inr (Return {| AppHistory.history_environment := environment;
                       AppHistory.history_count := length es;
                       AppHistory.history_deployments := es |}) /\
    Forall2 (Reach.shows (App.prompt_versions w)) shown es /\
    length shown
      = Nat.min (Z.to_nat limit)
          (length (List.filter (App.in_environment environment) (App.deployments w))) /\
    Reach.descending shown /\
    Permutation (shown ++ older)
      (List.filter (App.in_environment environment) (App.deployments w)) /\
    forall a b, In a shown -> In b older ->
                (Deployment.deployed_at b <= Deployment.deployed_at a)%Z.
Proof.
  intros Hlimit Href.
  set (sorted := AppHistory.order_by_desc Deployment.deployed_at
                   (List.filter (App.in_environment environment) (App.deployments w))).
  pose proof (order_by_desc_perm Deployment.deployed_at
                (List.filter (App.in_environment environment) (App.deployments w)))
    as Hperm. fold sorted in Hperm.
  destruct (descending_split (Z.to_nat limit) sorted
              (order_by_desc_descending _)) as [Hdesc Holder].
  destruct (entries_show (App.prompt_versions w) (firstn (Z.to_nat limit) sorted))
    as (es & Hes & Hshow).
  { intros d Hd. apply Href.
    assert (In d sorted) as Hs by (eapply firstn_In; eauto).
    apply (Permutation_in _ Hperm) in Hs. now apply filter_In in Hs. }
  exists (firstn (Z.to_nat limit) sorted), (skipn (Z.to_nat limit) sorted), es.
  split.
  { unfold AppHistory.get_deployment_history, AppHistory.fetch.
    replace (limit <? - 2 ^ 63)%Z with false by (symmetry; apply Z.ltb_ge; lia).
    rewrite (proj2 (Z.leb_gt _ _) (proj2 Hlimit)).
    rewrite (proj2 (Z.ltb_ge _ _) (proj1 Hlimit)). cbn [orb]. fold sorted. rewrite Hes.
    now rewrite (Forall2_length _ _ _ Hshow). }
  split; [exact Hshow|].
  split; [rewrite length_firstn; f_equal; now apply Permutation_length|].
  split; [exact Hdesc|].
  split; [now rewrite firstn_skipn | exact Holder].
Qed.

(** X6: with a limit that PostgreSQL accepts (not negative and below
    [2^63]), in a table whose deployments refer to stored versions,
    [get_deployment_history] answers with the [limit] most recent rows of the
    environment (all of them when there are fewer): the entries show, in
    order, rows of the environment by decreasing [deployed_at]; every row of
    the environment left out is at most as recent as every row shown; and
    [count] is the number of entries. With any other limit the query is
    refused with [DataError]. *)
Theorem deployment_history_lists_most_recent {S} (w : App.World S)
    (environment : string) (limit : Z) :
  ((0 <= limit < 2 ^ 63)%Z ->
   Reach.references_stored (App.prompt_versions w) (App.deployments w) ->
   exists shown older es,
     AppHistory.get_deployment_history environment limit w
       = inr (Return {| AppHistory.history_environment := environment;
                        AppHistory.history_count := length es;
                        AppHistory.history_deployments := es |}) /\
     Forall2 (Reach.shows (App.prompt_versions w)) shown es /\
     length shown
       = Nat.min (Z.to_nat limit)
           (length (List.filter (App.in_environment environment)
                      (App.deployments w))) /\
     Reach.descending shown /\
     Permutation (shown ++ older)
       (List.filter (App.in_environment environment) (App.deployments w)) /\
     forall a b, In a shown -> In b older ->
                 (Deployment.deployed_at b <= Deployment.deployed_at a)%Z) /\
  (~ (0 <= limit < 2 ^ 63)%Z ->
   exists msg,
     AppHistory.get_deployment_history environment limit w
       = inl (AppHistory.DataError msg)).
Proof.
  split; [apply history_most_recent|].
  intros Hout. unfold AppHistory.get_deployment_history, AppHistory.fetch.
  destruct (Z.ltb_spec limit (- 2 ^ 63)); [eauto|].
  destruct (Z.leb_spec (2 ^ 63) limit); [eauto|]. cbn [orb].
  destruct (Z.ltb_spec limit 0); [eauto | lia].
Qed.

(** ** The tables after deploys and rollbacks *)

Lemma find_present {A} (f : A -> bool) (l : list A) x :
  In x l -> f x = true -> is_Some (find f l).
Proof.
  induction l as [|y l IH]; intros Hin Hf; [destruct Hin|]. simpl.
  destruct (f y) eqn:Ey; [eauto|].
  destruct Hin as [->|Hin]; [congruence | auto].
Qed.

Lemma set_is_active_audit i b rows :
  map Reach.audit (App.set_is_active i b rows) = map Reach.audit rows.
Proof.
  unfold App.set_is_active. rewrite map_map. apply map_ext.
  intros d. now destruct (Nat.eqb _ i).
Qed.

Lemma deactivate_all_audit e rows :
  map Reach.audit (App.deactivate_all e rows) = map Reach.audit rows.
Proof.
  unfold App.deactivate_all. rewrite map_map. apply map_ext.
  intros d. now destruct (App.active_in e d).
Qed.

Lemma audit_references versions rows rows' :
  map Reach.audit rows' = map Reach.audit rows ->
  Reach.references_stored versions rows -> Reach.references_stored versions rows'.
Proof.
  intros Ha Href d Hd.
  apply (in_map Reach.audit) in Hd. rewrite Ha in Hd.
  apply in_map_iff in Hd as (d0 & Heq & Hd0).
  specialize (Href d0 Hd0).
  apply (f_equal (fun t => snd (fst (fst (fst (fst t)))))) in Heq. simpl in Heq.
  now rewrite <- Heq.
Qed.

Lemma audit_in_environment e rows rows' :
  map Reach.audit rows' = map Reach.audit rows ->
  length (List.filter (App.in_environment e) rows')
    = length (List.filter (App.in_environment e) rows).
Proof.
  revert rows'. induction rows as [|d rows IH]; intros [|d' rows'] Ha;
    try discriminate; [reflexivity|].
  simpl in Ha. injection Ha as Hid Hvid Henv Hat Hby Hrb Hrest. simpl.
  assert (App.in_environment e d' = App.in_environment e d) as ->
    by (unfold App.in_environment; now rewrite Henv).
  destruct (App.in_environment e d); simpl; auto.
Qed.

Section Reachable.
Context {S : Type} {RC : Engine.RedisClient S} {pg : Postgres}.

(** What one request does to the tables: nothing, or what the deploy or the
    rollback commits. *)
Lemma handle_cases q (w : App.World S) :
  App.prompt_versions (App.handle q w) = App.prompt_versions w /\
  (App.deployments (App.handle q w) = App.deployments w \/
   (exists amb r version,
      q = App.Deploy amb r /\
      Versioning.get_version_by_hash (App.prompt_versions w) (App.version_hash r)
        = Some version /\
      (uuid4 amb ∉ Deployment.id <$> App.deployments w) /\
      App.deployments (App.handle q w)
        = App.deactivate_all (App.environment r) (App.deployments w)
          ++ [Deployment.mk (uuid4 amb) (PromptVersion.id version) (App.environment r)
                (utcnow amb) (App.deployed_by r) None true]) \/
   (exists e current previous,
      q = App.Rollback e /\
      first_desc Deployment.deployed_at
        (List.filter (App.active_in e) (App.deployments w)) = Some current /\
      first_desc Deployment.deployed_at
        (List.filter (App.other_in e (Deployment.id current)) (App.deployments w))
        = Some previous /\
      App.deployments (App.handle q w)
        = App.set_is_active (Deployment.id previous) true
            (App.set_is_active (Deployment.id current) false (App.deployments w)))).
Proof.
  destruct q as [amb r|e]; simpl.
  - destruct (deploy_version_effect amb r w) as (s' & ->).
    destruct (Versioning.get_version_by_hash _ _) as [version|] eqn:Hv; [|auto].
    cbv zeta. destruct (App.insert_deployment _ _ _) as [rows|] eqn:Hi; [|auto].
    apply insert_deployment_inv in Hi as [-> Hfresh].
    rewrite deactivate_all_ids in Hfresh. simpl.
    split; [reflexivity|]. right; left. exists amb, r, version. auto.
  - destruct (rollback_deployment_effect e w) as (s' & ->).
    destruct (first_desc _ (List.filter (App.active_in _) _)) as [current|] eqn:Hc;
      [|auto].
    destruct (first_desc _ (List.filter (App.other_in _ _) _)) as [previous|] eqn:Hp;
      [|auto].
    cbv zeta.
    destruct (App.version_hash8 _ current);
      [destruct (App.version_hash8 _ previous)|]; simpl;
      (split; [reflexivity|]; right; right; exists e, current, previous; auto).
Qed.

Lemma handle_audit q (w : App.World S) :
  exists l,
    map Reach.audit (App.deployments (App.handle q w))
      = map Reach.audit (App.deployments w) ++ l /\ length l <= 1.
Proof.
  destruct (handle_cases q w) as [_ [->|[(amb & r & v & _ & _ & _ & ->)
                                        |(e & c & p & _ & _ & _ & ->)]]].
  - exists []. rewrite app_nil_r. auto.
  - rewrite map_app, deactivate_all_audit. eexists. split; [reflexivity|]. simpl. lia.
  - rewrite !set_is_active_audit. exists []. rewrite app_nil_r. auto.
Qed.

Lemma filter_nonempty_length {A} (p : A -> bool) (l : list A) :
  List.filter p l <> [] <-> 0 < length (List.filter p l).
Proof. destruct (List.filter p l); simpl; split; intros; try lia; congruence. Qed.

Lemma handle_sound q (w : App.World S) : Reach.sound w -> Reach.sound (App.handle q w).
Proof.
  intros [Hone Href Hact].
  pose proof (handle_single_active q w Hone) as Hone'.
  destruct (handle_cases q w) as [Hv Hcases]. split; [exact Hone'| |]; rewrite ?Hv.
  - destruct Hcases as [->|[(amb & r & v & _ & Hfound & _ & ->)
                            |(e & c & p & _ & _ & _ & ->)]]; [exact Href| |].
    + intros d Hd. apply in_app_or in Hd as [Hd|[<-|[]]].
      * revert d Hd. apply (audit_references _ (App.deployments w));
          [apply deactivate_all_audit | exact Href].
      * simpl. apply query_by_hash_In in Hfound.
        apply (find_present _ _ v Hfound). apply Nat.eqb_refl.
    + apply (audit_references _ (App.deployments w)); [|exact Href].
      now rewrite !set_is_active_audit.
  - destruct Hcases as [->|[(amb & r & v & _ & _ & Hfresh & Hrows)
                            |(e & c & p & _ & Hc & Hp & Hrows)]]; [exact Hact| |].
    + rewrite Hrows in *. intros e' Hne.
      destruct (deploy_rows_single_active (App.environment r) (App.deployments w)
                  (Deployment.mk (uuid4 amb) (PromptVersion.id v) (App.environment r)
                     (utcnow amb) (App.deployed_by r) None true) Hone Hfresh
                  eq_refl eq_refl) as [_ Hdep].
      destruct (String.eqb_spec (App.environment r) e') as [<-|Hdiff]; [exact Hdep|].
      assert (Hrow : App.in_environment e'
                (Deployment.mk (uuid4 amb) (PromptVersion.id v) (App.environment r)
                   (utcnow amb) (App.deployed_by r) None true) = false).
      { unfold App.in_environment. simpl. now apply String.eqb_neq. }
      rewrite List.filter_app in Hne. simpl in Hne. rewrite Hrow, app_nil_r in Hne.
      rewrite deactivate_all_elsewhere in Hne by assumption.
      unfold active_rows. rewrite List.filter_app. simpl.
      unfold App.active_in at 2. rewrite Hrow. simpl. rewrite app_nil_r.
      rewrite active_in_environment, deactivate_all_elsewhere by assumption.
      rewrite <- active_in_environment. now apply Hact.
    + rewrite Hrows in *. intros e' Hne.
      destruct (String.eqb_spec e e') as [<-|Hdiff].
      * now apply (swapped_active e (App.deployments w) c p).
      * rewrite (swapped_elsewhere e (App.deployments w) c p Hone Hc Hp e' Hdiff).
        apply Hact. apply filter_nonempty_length.
        apply filter_nonempty_length in Hne.
        rewrite (audit_in_environment e' (App.deployments w)) in Hne; [exact Hne|].
        now rewrite !set_is_active_audit.
Qed.

Lemma run_sound qs (w : App.World S) : Reach.sound w -> Reach.sound (App.run qs w).
Proof.
  revert w. induction qs as [|q qs IH]; intros w Hs; [exact Hs|].
  simpl. apply IH. now apply handle_sound.
Qed.

Lemma sound_initial versions (s : S) :
  Reach.sound {| App.prompt_versions := versions; App.deployments := [];
                 App.redis := s |}.
Proof.
  split; simpl.
  - apply single_active_nil.
  - intros d [].
  - intros e Hne. now destruct Hne.
Qed.

End Reachable.

Lemma NoDup_filter_ids (p : Deployment.t -> bool) rows :
  NoDup (Deployment.id <$> rows) -> NoDup (Deployment.id <$> List.filter p rows).
Proof.
  induction rows as [|d rows IH]; simpl; [auto|].
  intros Hnd. apply NoDup_cons in Hnd as [Hd Hnd].
  destruct (p d); simpl; [|auto].
  apply NoDup_cons. split; [|auto].
  intros Hin. apply Hd. apply list_elem_of_fmap in Hin as (x & -> & Hx).
  apply list_elem_of_fmap_2. apply list_elem_of_In in Hx. apply filter_In in Hx.
  now apply list_elem_of_In.
Qed.

Lemma filter_split_length {A} (p : A -> bool) (l : list A) :
  length (List.filter p l) + length (List.filter (fun x => negb (p x)) l) = length l.
Proof.
  induction l as [|x l IH]; simpl; [reflexivity|].
  destruct (p x); simpl; lia.
Qed.

Section AfterRequests.
Context {S : Type} {RC : Engine.RedisClient S} {pg : Postgres}.

(** X7: the deployments table is an audit trail. Whatever deploy and rollback
    requests are handled, in whatever order and with whatever outcome, the
    versions table is left alone and the rows of [deployments] that were
    there stay, in place, with their id, version, environment, time and
    author; at most one row per request is added at the end. Only
    [is_active] ever changes. *)
Theorem deployments_are_an_audit_trail (qs : list App.request) (w : App.World S) :
  App.prompt_versions (App.run qs w) = App.prompt_versions w /\
  exists l,
    map Reach.audit (App.deployments (App.run qs w))
      = map Reach.audit (App.deployments w) ++ l /\
    length l <= length qs.
Proof.
  revert w. induction qs as [|q qs IH]; intros w; simpl.
  - split; [reflexivity|]. exists []. rewrite app_nil_r. auto.
  - destruct (IH (App.handle q w)) as (Hv & l2 & Hl2 & Hlen2).
    destruct (handle_cases q w) as [Hv1 _].
    destruct (handle_audit q w) as (l1 & Hl1 & Hlen1).
    split; [congruence|].
    exists (l1 ++ l2). rewrite Hl2, Hl1, <- app_assoc, length_app.
    split; [reflexivity | lia].
Qed.

(** X8: what a rollback answers, after any sequence of deploy and rollback
    requests that started with no deployment, depends on the number of rows
    of the environment only: with none it raises 404 and with one it raises
    400, changing nothing in either case; with two or more it returns. *)
Theorem rollback_outcome_by_row_count (versions : Versioning.table) (s : S)
    (qs : list App.request) (e : string) :
  let w := App.run qs {| App.prompt_versions := versions;
                         App.deployments := [];
                         App.redis := s |} in
  let k := length (List.filter (App.in_environment e) (App.deployments w)) in
  (k = 0 ->
   App.rollback_deployment e w
     = (Raise (HTTPException 404 ("No active deployment in " +:+ e)), w)) /\
  (k = 1 ->
   App.rollback_deployment e w
     = (Raise (HTTPException 400 "No previous deployment to rollback to"), w)) /\
  (2 <= k -> exists resp w', App.rollback_deployment e w = (Return resp, w')).
Proof.
  intros w k.
  assert (Hs : Reach.sound w) by (apply run_sound, sound_initial).
  destruct Hs as [[Hnd Hone] Href Hact].
  destruct (rollback_deployment_effect e w) as (s' & Heff).
  rewrite active_in_environment in Heff.
  split; [|split]; intros Hk; subst k.
  - destruct (List.filter (App.in_environment e) (App.deployments w));
      [exact Heff | discriminate].
  - specialize (Hact e). unfold active_rows in Hact.
    rewrite active_in_environment in Hact.
    destruct (List.filter (App.in_environment e) (App.deployments w))
      as [|d [|d' l]] eqn:Hf; try discriminate.
    specialize (Hact ltac:(discriminate)). simpl in Hact, Heff.
    destruct (Deployment.is_active d); [|discriminate]. simpl in Heff.
    rewrite other_in_environment, Hf in Heff. simpl in Heff.
    now rewrite Nat.eqb_refl in Heff.
  - assert (Hne : List.filter (App.in_environment e) (App.deployments w) <> [])
      by (apply filter_nonempty_length; lia).
    specialize (Hact e Hne). unfold active_rows in Hact.
    rewrite active_in_environment in Hact.
    destruct (first_desc Deployment.deployed_at
                (List.filter Deployment.is_active
                   (List.filter (App.in_environment e) (App.deployments w))))
      as [current|] eqn:Hc.
    2: { exfalso. revert Hc. apply first_desc_nonempty.
         apply filter_nonempty_length. lia. }
    assert (Hcin : In current (List.filter (App.in_environment e) (App.deployments w))).
    { apply first_desc_In in Hc. now apply filter_In in Hc. }
    cbv iota in Heff. rewrite other_in_environment in Heff.
    pose proof (filter_split_length
                  (fun d => Nat.eqb (Deployment.id d) (Deployment.id current))
                  (List.filter (App.in_environment e) (App.deployments w))) as Hsplit.
    rewrite (filter_key_unique Deployment.id Nat.eqb Nat.eqb_eq) in Hsplit;
      [|now apply NoDup_filter_ids | now apply list_elem_of_In].
    destruct (first_desc Deployment.deployed_at
                (List.filter
                   (fun d => negb (Nat.eqb (Deployment.id d) (Deployment.id current)))
                   (List.filter (App.in_environment e) (App.deployments w))))
      as [previous|] eqn:Hp.
    2: { exfalso. revert Hp. apply first_desc_nonempty.
         apply filter_nonempty_length. simpl in Hsplit. lia. }
    cbv zeta in Heff.
    assert (Hpin : In previous (App.deployments w)).
    { apply first_desc_In in Hp. apply filter_In in Hp as [Hp _].
      now apply filter_In in Hp. }
    apply filter_In in Hcin as [Hcin _].
    destruct (Href current Hcin) as [vc Hvc]. destruct (Href previous Hpin) as [vp Hvp].
    unfold App.version_hash8 in Heff. rewrite Hvc, Hvp in Heff. eauto.
Qed.

End AfterRequests.

Lemma shows_active versions shown es :
  Forall2 (Reach.shows versions) shown es ->
  length (List.filter AppHistory.entry_is_active es)
    = length (List.filter Deployment.is_active shown).
Proof.
  induction 1 as [|d entry shown es (_ & _ & _ & Ha) _ IH]; [reflexivity|].
  simpl. rewrite Ha. destruct (Deployment.is_active d); simpl; now rewrite IH.
Qed.

Lemma filter_perm_length {A} (p : A -> bool) (l l' : list A) :
  Permutation l l' -> length (List.filter p l) = length (List.filter p l').
Proof.
  induction 1 as [|x l l' _ IH|x y l|l l' l'' _ IH1 _ IH2]; simpl; auto.
  - destruct (p x); simpl; now rewrite IH.
  - destruct (p x), (p y); reflexivity.
  - congruence.
Qed.

Section HistoryAfterRequests.
Context {S : Type} {RC : Engine.RedisClient S} {pg : Postgres}.

(** X9: after any sequence of deploy and rollback requests that started with
    no deployment, the history of an environment, asked with a limit that
    PostgreSQL accepts (not negative and below [2^63]), is answered (no row
    misses its version) and lists at most one active entry; it lists exactly
    one when the environment has a row and the limit covers all its rows. *)
Theorem history_lists_one_active (versions : Versioning.table) (s : S)
    (qs : list App.request) (e : string) (limit : Z) :
  (0 <= limit < 2 ^ 63)%Z ->
  let w := App.run qs {| App.prompt_versions := versions;
                         App.deployments := [];
                         App.redis := s |} in
  let n := length (List.filter (App.in_environment e) (App.deployments w)) in
  exists es,
    AppHistory.get_deployment_history e limit w
      = inr (Return {| AppHistory.history_environment := e;
                       AppHistory.history_count := length es;
                       AppHistory.history_deployments := es |}) /\
    length es = Nat.min (Z.to_nat limit) n /\
    length (List.filter AppHistory.entry_is_active es) <= 1 /\
    (0 < n <= Z.to_nat limit ->
     length (List.filter AppHistory.entry_is_active es) = 1).
Proof.
  intros Hlimit w n.
  assert (Hs : Reach.sound w) by (apply run_sound, sound_initial).
  destruct Hs as [[Hnd Hone] Href Hact].
  destruct (history_most_recent w e limit Hlimit Href)
    as (shown & older & es & Hget & Hshow & Hlen & _ & Hperm & _).
  exists es. split; [exact Hget|].
  pose proof (Forall2_length _ _ _ Hshow) as Hl.
  split; [fold n in Hlen; lia|].
  rewrite (shows_active _ _ _ Hshow).
  pose proof (filter_perm_length Deployment.is_active _ _ Hperm) as Hp.
  rewrite List.filter_app, length_app, <- active_in_environment in Hp.
  fold (active_rows e (App.deployments w)) in Hp.
  split; [specialize (Hone e); lia|].
  intros [Hpos Hcover].
  assert (older = []) as ->.
  { apply Permutation_length in Hperm. rewrite length_app in Hperm.
    fold n in Hperm, Hlen. destruct older; [reflexivity | simpl in Hperm; lia]. }
  simpl in Hp. rewrite Hact in Hp; [lia|].
  apply filter_nonempty_length. fold n. lia.
Qed.

End HistoryAfterRequests.

Lemma history_lists_one_active_witness :
  exists es,
    AppHistory.get_deployment_history "staging" 10
      (App.run (RC:=Doubles.absent_redis) (pg:=Doubles.plain_postgres) Doubles.deploy_twice
         {| App.prompt_versions := App.prompt_versions Doubles.staging_twice;
            App.deployments := [];
            App.redis := tt |})
    = inr (Return {| AppHistory.history_environment := "staging";
                     AppHistory.history_count := length es;
                     AppHistory.history_deployments := es |}) /\
    map AppHistory.entry_is_active es = [true; false].
Proof.
  destruct (history_lists_one_active (RC:=Doubles.absent_redis) (pg:=Doubles.plain_postgres)
              (App.prompt_versions Doubles.staging_twice) tt Doubles.deploy_twice
              "staging" 10 ltac:(lia)) as (es & Hget & _).
  vm_compute in Hget. injection Hget as _ Hes.
  exists es. rewrite <- Hes. split; reflexivity.
Defined.

Lemma history_most_recent_references :
  Reach.references_stored (App.prompt_versions Doubles.staging_twice)
    (App.deployments Doubles.staging_twice).
Proof.
  intros d [<-|[<-|[]]]; eexists; reflexivity.
Defined.

Lemma deployment_history_lists_most_recent_witness :
  exists es,
    AppHistory.get_deployment_history "staging" 1 Doubles.staging_twice
    = inr (Return {| AppHistory.history_environment := "staging";
                     AppHistory.history_count := length es;
                     AppHistory.history_deployments := es |}) /\
    map AppHistory.entry_deployed_at es = [200%Z].
Proof.
  destruct (proj1 (deployment_history_lists_most_recent Doubles.staging_twice
                     "staging" 1)
              ltac:(lia) history_most_recent_references)
    as (shown & older & es & Hget & _).
  vm_compute in Hget. injection Hget as _ Hes.
  exists es. rewrite <- Hes. split; reflexivity.
Defined.

(** ** Reading after a deploy *)

Section ReadAfterDeploy.
Context {S : Type} {RC : Engine.RedisClient S} {P : Type} {JC : Engine.JsonCodec P}
  {PV : App.Pydantic} {pg : Postgres}.
Variable response_dict : App.PromptResponse -> P.

Lemma deployed_row_is_active e rows row :
  App.active_in e row = true ->
  first_desc Deployment.deployed_at
    (List.filter (App.active_in e) (App.deactivate_all e rows ++ [row])) = Some row.
Proof.
  intros Hrow. rewrite List.filter_app, deactivate_all_none. simpl. now rewrite Hrow.
Qed.

(** The read on tables where [deployment] is the active row found and
    [version] the version it refers to. *)
Lemma read_from_database e name (w : App.World S) deployment version :
  first_desc Deployment.deployed_at
    (List.filter (App.active_in e) (App.deployments w)) = Some deployment ->
  Versioning.query_by_id (App.prompt_versions w) (Deployment.version_id deployment)
    = Some version ->
  let read := fst (App.get_active_prompt response_dict e name w) in
  (exists c, read = Return (inl c)) \/
  read = match App.validate_prompt_response
                 (Reach.built_response e deployment version) with
         | Return response => Return (inr response)
         | Raise err => Raise err
         end.
Proof.
  intros Hd Hv. cbv zeta.
  destruct (read_without_redis response_dict e name w) as [[Hcached|Halone] _];
    [now left|].
  right. rewrite Halone.
  unfold App.get_active_prompt, App.bindH, App.cache, App.retH. simpl.
  rewrite Hd, Hv. unfold Reach.built_response.
  destruct (App.validate_prompt_response _); reflexivity.
Qed.

(** X10: a read that follows a deploy. After [deploy_version] has returned
    for a version hash and an environment (the ids of the versions table
    being distinct), [get_active_prompt] for that environment answers either
    with a payload found in the cache or with what pydantic makes of the
    response built from the version with that hash and the deployment just
    made: the validated response, or its [ValidationError]. It does not raise
    404 and does not answer from another row of the tables. With no Redis it
    is what pydantic makes of the response built from the tables. *)
Theorem read_after_deploy (amb : Ambient) (r : App.DeployRequest)
    (name : option string) (w w' : App.World S) (resp : App.DeployResponse) :
  NoDup (PromptVersion.id <$> App.prompt_versions w) ->
  App.deploy_version amb r w = (Return resp, w') ->
  exists version,
    Versioning.get_version_by_hash (App.prompt_versions w) (App.version_hash r)
      = Some version /\
    PromptVersion.hash version = App.version_hash r /\
    let built :=
      {| App.response_content := PromptVersion.content version;
         App.response_hash := PromptVersion.hash version;
         App.response_version :=
           dict_get (PromptVersion.prompt_metadata version) "version" (PStr "1.0.0");
         App.response_model :=
           dict_get (PromptVersion.prompt_metadata version) "model" (PStr "gpt-4");
         App.response_temperature :=
           dict_get (PromptVersion.prompt_metadata version) "temperature"
             (PFloat float_0_7);
         App.response_metadata := PromptVersion.prompt_metadata version;
         App.response_tags := PromptVersion.tags version;
         App.response_deployed_at := utcnow amb;
         App.response_environment := App.environment r |} in
    let from_tables : result (P + App.PromptResponse) :=
      match App.validate_prompt_response built with
      | Return response => Return (inr response)
      | Raise err => Raise err
      end in
    ((exists c, fst (App.get_active_prompt response_dict (App.environment r) name w')
                = Return (inl c)) \/
     fst (App.get_active_prompt response_dict (App.environment r) name w')
       = from_tables) /\
    fst (App.get_active_prompt (RC:=Doubles.absent_redis) response_dict
           (App.environment r) name (Doubles.without_redis w'))
      = from_tables.
Proof.
  intros Hnd Hdeploy.
  destruct (deploy_version_effect amb r w) as (s' & Heff). rewrite Heff in Hdeploy.
  destruct (Versioning.get_version_by_hash _ _) as [version|] eqn:Hv; [|discriminate].
  cbv zeta in Hdeploy.
  destruct (App.insert_deployment _ _ _) as [rows|] eqn:Hi; [|discriminate].
  injection Hdeploy as _ <-. apply insert_deployment_inv in Hi as [-> _].
  exists version. split; [reflexivity|].
  split; [now apply query_by_hash_hash in Hv|].
  set (row := Deployment.mk (uuid4 amb) (PromptVersion.id version) (App.environment r)
                (utcnow amb) (App.deployed_by r) None true).
  assert (Hrow : App.active_in (App.environment r) row = true).
  { unfold App.active_in, App.in_environment. simpl. now rewrite String.eqb_refl. }
  assert (Hq : Versioning.query_by_id (App.prompt_versions w) (PromptVersion.id version)
               = Some version).
  { unfold Versioning.query_by_id.
    apply (find_key_row PromptVersion.id Nat.eqb Nat.eqb_eq); [exact Hnd|].
    apply list_elem_of_In. now apply query_by_hash_In in Hv. }
  cbv zeta. split.
  - apply (read_from_database _ name _ row version); simpl.
    + now apply deployed_row_is_active.
    + exact Hq.
  - unfold App.get_active_prompt, App.bindH, App.cache, App.retH. simpl.
    rewrite (deployed_row_is_active _ _ row Hrow). simpl. rewrite Hq. simpl.
    destruct (App.validate_prompt_response _); reflexivity.
Qed.

End ReadAfterDeploy.

(** ** The deploy command of the CLI *)

Section CliDeployProperties.
Context {S : Type} {RC : Engine.RedisClient S} {pg : Postgres}.



End CliDeployProperties.

(** ** The cache over a Redis that behaves as a map *)

Lemma prefix_append p r : String.prefix p (p +:+ r) = true.
Proof.
  induction p as [|a p IH]; simpl; [now destruct r|].
  destruct (ascii_dec a a); [exact IH | contradiction].
Qed.

Lemma cache_key_split e name :
  exists suffix, Engine._get_cache_key e name = RedisLaws.key_prefix e +:+ suffix.
Proof.
  unfold RedisLaws.key_prefix, Engine._get_cache_key.
  destruct name as [n|]; [destruct (String.eqb n "")|].
  - exists "default". now rewrite !append_assoc.
  - exists n. now rewrite !append_assoc.
  - exists "default". now rewrite !append_assoc.
Qed.

Lemma cache_key_prefix e name :
  String.prefix (RedisLaws.key_prefix e) (Engine._get_cache_key e name) = true.
Proof.
  destruct (cache_key_split e name) as (suffix & ->). apply prefix_append.
Qed.

Lemma glob_free_append a b :
  RedisLaws.glob_free (a +:+ b) = RedisLaws.glob_free a && RedisLaws.glob_free b.
Proof.
  induction a as [|x a IH]; [reflexivity|].
  change (negb (RedisLaws.glob_special x) && RedisLaws.glob_free (a +:+ b)
          = negb (RedisLaws.glob_special x) && RedisLaws.glob_free a
            && RedisLaws.glob_free b).
  rewrite IH. now rewrite andb_assoc.
Qed.

Lemma key_prefix_glob_free e :
  RedisLaws.glob_free e = true -> RedisLaws.glob_free (RedisLaws.key_prefix e) = true.
Proof.
  intros He. unfold RedisLaws.key_prefix.
  rewrite !glob_free_append, He. reflexivity.
Qed.

Lemma lookup_foldr_delete (m : gmap string string) ks k :
  foldr delete m ks !! k = if existsb (String.eqb k) ks then None else m !! k.
Proof.
  induction ks as [|x ks IH]; simpl; [reflexivity|].
  destruct (String.eqb_spec k x) as [->|Hne]; simpl.
  - apply lookup_delete_eq.
  - rewrite lookup_delete_ne by congruence. exact IH.
Qed.

Section LawfulCache.
Context {S : Type} {RC : Engine.RedisClient S} {P : Type} {JC : Engine.JsonCodec P}.
Context (contents : S -> gmap string string) (law : RedisLaws.Lawful RC contents).

Lemma lawful_engine (s : S) :
  exists engine s',
    Engine.new_engine s = (Return engine, s') /\
    Engine.redis_available engine = true /\ contents s' = contents s.
Proof.
  unfold Engine.new_engine.
  destruct (RedisLaws.lawful_from_url Engine.REDIS_URL s) as (s1 & -> & H1).
  destruct (RedisLaws.lawful_ping s1) as (s2 & -> & H2).
  eexists _, _. split; [reflexivity|]. split; [reflexivity | congruence].
Qed.

Lemma lawful_lookup self e name (s : S) :
  Engine.redis_available self = true ->
  exists s',
    Engine.get_from_cache (P:=P) self e name s
      = (match contents s !! Engine._get_cache_key e name with
         | Some c => if negb (String.eqb c "")
                     then match Engine.json_loads c with
                          | Return v => Return (Some v)
                          | Raise _ => Return None
                          end
                     else Return None
         | None => Return None
         end, s') /\
    contents s' = contents s.
Proof.
  intros Ha. unfold Engine.get_from_cache, Engine.try_except, Engine.bind,
    Engine.lift, Engine.ret.
  rewrite Ha. simpl.
  destruct (RedisLaws.lawful_get (Engine._get_cache_key e name) s) as (s1 & -> & H1).
  destruct (contents s !! Engine._get_cache_key e name) as [c|]; [|eauto].
  destruct (negb (String.eqb c "")); [|eauto].
  destruct (Engine.json_loads c); eauto.
Qed.

Lemma lawful_populate self e (p : P) name ttl (s : S) :
  Engine.redis_available self = true -> (0 < ttl)%Z ->
  exists s',
    Engine.set_cache self e p name ttl s = (Return tt, s') /\
    contents s' = match Engine.json_dumps_default_str p with
                  | Return t => <[Engine._get_cache_key e name := t]> (contents s)
                  | Raise _ => contents s
                  end.
Proof.
  intros Ha Httl. unfold Engine.set_cache, Engine.try_except, Engine.bind,
    Engine.lift, Engine.ret.
  rewrite Ha. simpl.
  destruct (Engine.json_dumps_default_str p) as [t|err]; [|eauto].
  destruct (RedisLaws.lawful_setex (Engine._get_cache_key e name) ttl t s Httl)
    as (s1 & -> & H1).
  eauto.
Qed.

Lemma lawful_invalidate self e (s : S) :
  Engine.redis_available self = true -> RedisLaws.glob_free e = true ->
  exists s',
    Engine.invalidate_cache self e s = (Return tt, s') /\
    forall k, contents s' !! k
              = if String.prefix (RedisLaws.key_prefix e) k then None
                else contents s !! k.
Proof.
  intros Ha He. unfold Engine.invalidate_cache, Engine.try_except, Engine.bind,
    Engine.ret.
  rewrite Ha. simpl.
  destruct (RedisLaws.lawful_keys (RedisLaws.key_prefix e) s
              (key_prefix_glob_free e He)) as (ks & s1 & Hk & H1 & Hks).
  unfold RedisLaws.key_prefix in Hk. rewrite append_assoc in Hk.
  simpl in Hk. rewrite append_assoc in Hk. simpl in Hk.
  replace ("promptops:prompt:" +:+ e +:+ ":*") with
    ("promptops:prompt:" +:+ e +:+ ":" +:+ "*") by reflexivity.
  rewrite Hk.
  assert (Hlookup : forall k,
    (if existsb (String.eqb k) ks then None else contents s !! k)
    = if String.prefix (RedisLaws.key_prefix e) k then None else contents s !! k).
  { intros k. destruct (existsb (String.eqb k) ks) eqn:Ek.
    - apply existsb_exists in Ek as (x & Hx & Heq). apply String.eqb_eq in Heq.
      subst x. apply Hks in Hx as [_ ->]. reflexivity.
    - destruct (String.prefix (RedisLaws.key_prefix e) k) eqn:Ep; [|reflexivity].
      destruct (contents s !! k) eqn:El; [|reflexivity].
      assert (In k ks) as Hin by (apply Hks; eauto).
      assert (existsb (String.eqb k) ks = true) as Hc
        by (apply existsb_exists; exists k; split; [exact Hin | apply String.eqb_refl]).
      congruence. }
  destruct ks as [|k0 ks'].
  - exists s1. split; [reflexivity|]. intros k. rewrite H1. apply (Hlookup k).
  - destruct (RedisLaws.lawful_delete (k0 :: ks') s1) as (n & s2 & -> & H2).
    exists s2. split; [reflexivity|]. intros k.
    rewrite H2, lookup_foldr_delete, H1. apply Hlookup.
Qed.

End LawfulCache.

Lemma prefix_common a x y : String.prefix (a +:+ x) (a +:+ y) = String.prefix x y.
Proof.
  induction a as [|c a IH]; [reflexivity|].
  change (String.prefix (String c (a +:+ x)) (String c (a +:+ y)) = String.prefix x y).
  simpl. destruct (ascii_dec c c); [exact IH | contradiction].
Qed.

Lemma prefix_cons a s1 b s2 :
  String.prefix (String a s1) (String b s2)
  = if ascii_dec a b then String.prefix s1 s2 else false.
Proof. reflexivity. Qed.

Lemma prefix_colon_free e e' r :
  RedisLaws.colon_free e = true -> RedisLaws.colon_free e' = true ->
  String.prefix (e +:+ ":") (e' +:+ ":" +:+ r) = true -> e = e'.
Proof.
  revert e'. induction e as [|c e IH]; intros [|c' e'] He He' Hp.
  - reflexivity.
  - change (String.prefix (String ":"%char "") (String c' (e' +:+ ":" +:+ r)) = true)
      in Hp.
    rewrite prefix_cons in Hp.
    destruct (ascii_dec ":"%char c') as [<-|]; [|discriminate].
    simpl in He'. discriminate.
  - change (String.prefix (String c (e +:+ ":")) (String ":"%char r) = true) in Hp.
    rewrite prefix_cons in Hp.
    destruct (ascii_dec c ":"%char) as [->|]; [|discriminate].
    simpl in He. discriminate.
  - change (String.prefix (String c (e +:+ ":")) (String c' (e' +:+ ":" +:+ r)) = true)
      in Hp.
    rewrite prefix_cons in Hp. simpl in He, He'.
    destruct (ascii_dec c c') as [->|]; [|discriminate].
    apply andb_prop in He as [_ He]. apply andb_prop in He' as [_ He'].
    f_equal. now apply IH.
Qed.

(** The keys of another environment do not start with the prefix of this
    one, as long as neither name holds a colon. *)
Lemma other_environment_key e e' name :
  RedisLaws.colon_free e = true -> RedisLaws.colon_free e' = true -> e <> e' ->
  String.prefix (RedisLaws.key_prefix e) (Engine._get_cache_key e' name) = false.
Proof.
  intros He He' Hne.
  destruct (String.prefix _ _) eqn:Hp; [|reflexivity]. exfalso. apply Hne.
  unfold RedisLaws.key_prefix, Engine._get_cache_key in Hp.
  destruct name as [n|]; [destruct (String.eqb n "")|];
    rewrite prefix_common in Hp; now apply prefix_colon_free in Hp.
Qed.

Section CacheOverMap.
Context {S : Type} {RC : Engine.RedisClient S} {P : Type} {JC : Engine.JsonCodec P}.
Variable contents : S -> gmap string string.

(** X12: what [set_cache] stores, [get_from_cache] reads back. With a Redis
    that is up and behaves as a map, an engine that found it available, a
    positive time to live and a payload that [json.dumps] turns into the
    text [t]: after [set_cache] for an environment and a name,
    [get_from_cache] for the same environment and name returns what
    [json.loads] makes of [t] (a miss when it raises), and the lookups under
    every other key answer as they did before. *)
Theorem cached_payload_is_read_back (self : Engine.DeploymentEngine)
    (e : string) (name : option string) (p : P) (ttl : Z) (t : string) (s : S) :
  RedisLaws.Lawful RC contents ->
  Engine.redis_available self = true ->
  (0 < ttl)%Z ->
  Engine.json_dumps_default_str p = Return t ->
  t <> "" ->
  let s' := snd (Engine.set_cache self e p name ttl s) in
  fst (Engine.get_from_cache self e name s')
    = match Engine.json_loads t with
      | Return v => Return (Some v)
      | Raise _ => Return None
      end /\
  forall e' name',
    Engine._get_cache_key e' name' <> Engine._get_cache_key e name ->
    fst (Engine.get_from_cache (P:=P) self e' name' s')
      = fst (Engine.get_from_cache self e' name' s).
Proof.
  intros law Ha Httl Hd Ht. cbv zeta.
  destruct (lawful_populate contents law self e p name ttl s Ha Httl) as (s1 & -> & H1).
  rewrite Hd in H1. simpl. split.
  - destruct (lawful_lookup (P:=P) contents law self e name s1 Ha) as (s2 & -> & _).
    simpl. rewrite H1, lookup_insert_eq.
    destruct (String.eqb_spec t ""); [contradiction | reflexivity].
  - intros e' name' Hne.
    destruct (lawful_lookup (P:=P) contents law self e' name' s1 Ha) as (s2 & -> & _).
    destruct (lawful_lookup (P:=P) contents law self e' name' s Ha) as (s3 & -> & _).
    simpl. rewrite H1, lookup_insert_ne by congruence. reflexivity.
Qed.

(** X13: [invalidate_cache] empties the cache of one environment and of no
    other. With a Redis that is up and behaves as a map and an environment
    name without glob characters: after [invalidate_cache] every lookup for
    that environment is a miss, whatever the name; and for another
    environment, neither name holding a colon, every lookup answers as it did
    before. *)
Theorem invalidate_cache_clears_environment (self : Engine.DeploymentEngine)
    (e : string) (s : S) :
  RedisLaws.Lawful RC contents ->
  Engine.redis_available self = true ->
  RedisLaws.glob_free e = true ->
  let s' := snd (Engine.invalidate_cache self e s) in
  (forall name, fst (Engine.get_from_cache (P:=P) self e name s') = Return None) /\
  (forall e' name,
     RedisLaws.colon_free e = true -> RedisLaws.colon_free e' = true -> e' <> e ->
     fst (Engine.get_from_cache (P:=P) self e' name s')
       = fst (Engine.get_from_cache self e' name s)).
Proof.
  intros law Ha He. cbv zeta.
  destruct (lawful_invalidate contents law self e s Ha He) as (s1 & -> & H1).
  simpl. split.
  - intros name.
    destruct (lawful_lookup (P:=P) contents law self e name s1 Ha) as (s2 & -> & _).
    simpl. now rewrite H1, cache_key_prefix.
  - intros e' name Hc Hc' Hne.
    destruct (lawful_lookup (P:=P) contents law self e' name s1 Ha) as (s2 & -> & _).
    destruct (lawful_lookup (P:=P) contents law self e' name s Ha) as (s3 & -> & _).
    simpl. rewrite H1, other_environment_key by auto. reflexivity.
Qed.

End CacheOverMap.

(** ** The cache and the tables together *)

Section ReadThroughCache.
Context {S : Type} {RC : Engine.RedisClient S} {P : Type} {JC : Engine.JsonCodec P}
  {PV : App.Pydantic} {pg : Postgres}.
Variable response_dict : App.PromptResponse -> P.
Variable contents : S -> gmap string string.
Hypothesis law : RedisLaws.Lawful RC contents.

Lemma lawful_deploy amb r (w w' : App.World S) resp :
  RedisLaws.glob_free (App.environment r) = true ->
  App.deploy_version amb r w = (Return resp, w') ->
  forall k, contents (App.redis w') !! k
            = if String.prefix (RedisLaws.key_prefix (App.environment r)) k then None
              else contents (App.redis w) !! k.
Proof.
  intros He. unfold App.deploy_version.
  destruct (Versioning.get_version_by_hash _ _) as [version|]; [|discriminate].
  cbv zeta.
  destruct (App.insert_deployment _ _ _) as [rows|]; [|discriminate].
  unfold App.bindH, App.cache, App.retH, App.with_deployments. simpl.
  destruct (lawful_engine contents law (App.redis w))
    as (engine & s1 & -> & Hav & H1).
  simpl.
  destruct (lawful_invalidate contents law engine (App.environment r) s1 Hav He)
    as (s2 & -> & H2).
  simpl. intros [= _ <-] k. simpl. now rewrite H2, H1.
Qed.

(** What a read answers and what it leaves in the cache. *)
Lemma lawful_read e name (w : App.World S) :
  exists w1,
    App.get_active_prompt response_dict e name w
      = (match Reach.served (contents (App.redis w)) (Engine._get_cache_key e name) with
         | Some v => Return (inl v)
         | None => Reach.from_tables e w
         end, w1) /\
    contents (App.redis w1)
      = match Reach.served (P:=P) (contents (App.redis w))
                (Engine._get_cache_key e name) with
        | Some _ => contents (App.redis w)
        | None =>
            match Reach.from_tables (P:=P) e w with
            | Return (inr response) =>
                match Engine.json_dumps_default_str (response_dict response) with
                | Return t =>
                    <[Engine._get_cache_key e name := t]> (contents (App.redis w))
                | Raise _ => contents (App.redis w)
                end
            | _ => contents (App.redis w)
            end
        end.
Proof.
  unfold App.get_active_prompt, App.bindH, App.cache, App.retH.
  destruct (lawful_engine contents law (App.redis w))
    as (engine & s1 & -> & Hav & H1).
  simpl.
  destruct (lawful_lookup (P:=P) contents law engine e name s1 Hav) as (s2 & -> & H2).
  rewrite H1. unfold Reach.served.
  assert (Hdb : exists w1,
    match first_desc Deployment.deployed_at
            (List.filter (App.active_in e) (App.deployments w)) with
    | None =>
        (Raise (HTTPException 404
           ("No active prompt found for environment: " +:+ e)),
         {| App.prompt_versions := App.prompt_versions w;
            App.deployments := App.deployments w; App.redis := s2 |})
    | Some deployment =>
        match Versioning.query_by_id (App.prompt_versions w)
                (Deployment.version_id deployment) with
        | None =>
            (Raise (AttributeError "'NoneType' object has no attribute 'content'"),
             {| App.prompt_versions := App.prompt_versions w;
                App.deployments := App.deployments w; App.redis := s2 |})
        | Some version =>
            match App.validate_prompt_response
                    (Reach.built_response e deployment version) with
            | Raise err =>
                (Raise err,
                 {| App.prompt_versions := App.prompt_versions w;
                    App.deployments := App.deployments w; App.redis := s2 |})
            | Return response =>
                let (r, w') :=
                  let (r, s') :=
                    Engine.set_cache engine e (response_dict response) name 3600 s2 in
                  (r, {| App.prompt_versions := App.prompt_versions w;
                         App.deployments := App.deployments w; App.redis := s' |}) in
                match r with
                | Return _ => (Return (inr (A:=P) response), w')
                | Raise err => (Raise err, w')
                end
            end
        end
    end = (Reach.from_tables (P:=P) e w, w1) /\
    contents (App.redis w1)
    = match Reach.from_tables (P:=P) e w with
      | Return (inr response) =>
          match Engine.json_dumps_default_str (response_dict response) with
          | Return t => <[Engine._get_cache_key e name := t]> (contents (App.redis w))
          | Raise _ => contents (App.redis w)
          end
      | _ => contents (App.redis w)
      end).
  { unfold Reach.from_tables.
    destruct (first_desc _ _) as [deployment|];
      [|eexists; split; [reflexivity | simpl; congruence]].
    destruct (Versioning.query_by_id _ _) as [version|];
      [|eexists; split; [reflexivity | simpl; congruence]].
    destruct (App.validate_prompt_response _) as [response|err];
      [|eexists; split; [reflexivity | simpl; congruence]].
    destruct (lawful_populate contents law engine e (response_dict response) name
                3600 s2 Hav ltac:(lia)) as (s3 & -> & H3).
    eexists. split; [reflexivity|]. simpl. rewrite H3, H2, H1. reflexivity. }
  destruct Hdb as (w1 & Hrun & Hcache).
  destruct (contents (App.redis w) !! Engine._get_cache_key e name) as [c|];
    [destruct (negb (String.eqb c ""));
     [destruct (Engine.json_loads c) as [v|];
      [destruct (Engine.payload_truthy v)|]|]|]; simpl;
    first [ exists w1; split; [exact Hrun | exact Hcache]
          | eexists; split; [reflexivity | simpl; congruence] ].
Qed.

(** A read that misses the cache answers from the tables and stores what it
    answered, if pydantic accepts the response built. *)
Lemma lawful_read_miss e name (w : App.World S) deployment version :
  contents (App.redis w) !! Engine._get_cache_key e name = None ->
  first_desc Deployment.deployed_at
    (List.filter (App.active_in e) (App.deployments w)) = Some deployment ->
  Versioning.query_by_id (App.prompt_versions w) (Deployment.version_id deployment)
    = Some version ->
  fst (App.get_active_prompt response_dict e name w)
  = match App.validate_prompt_response
            (Reach.built_response e deployment version) with
    | Return response => Return (inr response)
    | Raise err => Raise err
    end.
Proof.
  intros Hmiss Hd Hv. destruct (lawful_read e name w) as (w1 & -> & _).
  unfold Reach.served, Reach.from_tables. now rewrite Hmiss, Hd, Hv.
Qed.

(** A read that finds a text in the cache answers with what [json.loads]
    makes of it, if that is truthy, and does not look at the tables. *)
Lemma lawful_read_hit e name (w : App.World S) t p :
  contents (App.redis w) !! Engine._get_cache_key e name = Some t ->
  t <> "" ->
  Engine.json_loads t = Return p ->
  Engine.payload_truthy p = true ->
  fst (App.get_active_prompt response_dict e name w) = Return (inl p).
Proof.
  intros Hhit Ht Hl Hp. destruct (lawful_read e name w) as (w1 & -> & _).
  unfold Reach.served. rewrite Hhit.
  destruct (String.eqb_spec t ""); [contradiction|]. simpl. now rewrite Hl, Hp.
Qed.

(** What a read that answered from the tables has left in the cache. *)
Lemma lawful_read_stores e name (w w1 : App.World S) response t :
  App.get_active_prompt response_dict e name w = (Return (inr response), w1) ->
  Engine.json_dumps_default_str (response_dict response) = Return t ->
  contents (App.redis w1) !! Engine._get_cache_key e name = Some t.
Proof.
  destruct (lawful_read e name w) as (w2 & -> & Hcache).
  destruct (Reach.served _ _) as [v|]; [discriminate|].
  intros [= Hfrom <-] Hd. rewrite Hcache, Hfrom, Hd. apply lookup_insert_eq.
Qed.

(** X14: a read that follows a deploy is not served from a stale cache.
    With a Redis that is up and behaves as a map, an environment name
    without glob characters and distinct ids in the versions table: after
    [deploy_version] has returned, [get_active_prompt] for that environment
    and any name answers with what pydantic makes of the response built from
    the version with the deployed hash and the time of this deployment (the
    validated response, or its [ValidationError]), whatever the cache held
    before the deploy. *)
Theorem read_after_deploy_is_fresh (amb : Ambient) (r : App.DeployRequest)
    (name : option string) (w w' : App.World S) (resp : App.DeployResponse) :
  RedisLaws.glob_free (App.environment r) = true ->
  NoDup (PromptVersion.id <$> App.prompt_versions w) ->
  App.deploy_version amb r w = (Return resp, w') ->
  exists version,
    Versioning.get_version_by_hash (App.prompt_versions w) (App.version_hash r)
      = Some version /\
    fst (App.get_active_prompt response_dict (App.environment r) name w')
      = match App.validate_prompt_response
                {| App.response_content := PromptVersion.content version;
                   App.response_hash := App.version_hash r;
                   App.response_version :=
                     dict_get (PromptVersion.prompt_metadata version) "version"
                       (PStr "1.0.0");
                   App.response_model :=
                     dict_get (PromptVersion.prompt_metadata version) "model"
                       (PStr "gpt-4");
                   App.response_temperature :=
                     dict_get (PromptVersion.prompt_metadata version) "temperature"
                       (PFloat float_0_7);
                   App.response_metadata := PromptVersion.prompt_metadata version;
                   App.response_tags := PromptVersion.tags version;
                   App.response_deployed_at := utcnow amb;
                   App.response_environment := App.environment r |} with
        | Return response => Return (inr response)
        | Raise err => Raise err
        end.
Proof.
  intros He Hnd Hdeploy.
  pose proof (lawful_deploy amb r w w' resp He Hdeploy) as Hcache.
  destruct (deploy_version_effect amb r w) as (s' & Heff). rewrite Heff in Hdeploy.
  destruct (Versioning.get_version_by_hash _ _) as [version|] eqn:Hv; [|discriminate].
  cbv zeta in Hdeploy.
  destruct (App.insert_deployment _ _ _) as [rows|] eqn:Hi; [|discriminate].
  injection Hdeploy as _ <-. apply insert_deployment_inv in Hi as [-> _].
  exists version. split; [reflexivity|].
  set (row := Deployment.mk (uuid4 amb) (PromptVersion.id version) (App.environment r)
                (utcnow amb) (App.deployed_by r) None true).
  assert (Hrow : App.active_in (App.environment r) row = true).
  { unfold App.active_in, App.in_environment. simpl. now rewrite String.eqb_refl. }
  assert (Hq : Versioning.query_by_id (App.prompt_versions w) (PromptVersion.id version)
               = Some version).
  { unfold Versioning.query_by_id.
    apply (find_key_row PromptVersion.id Nat.eqb Nat.eqb_eq); [exact Hnd|].
    apply list_elem_of_In. now apply query_by_hash_In in Hv. }
  match goal with
  | |- context [App.get_active_prompt _ _ _ ?w1] =>
      rewrite (lawful_read_miss (App.environment r) name w1 row version)
  end.
  - unfold Reach.built_response. simpl.
    now rewrite (query_by_hash_hash _ _ _ Hv).
  - rewrite Hcache. now rewrite cache_key_prefix.
  - simpl. now apply deployed_row_is_active.
  - exact Hq.
Qed.

Lemma lawful_invalidation_passes {A} e (k : App.Handler (S:=S) A) (w : App.World S) :
  RedisLaws.glob_free e = true ->
  exists s',
    App.bindH (App.cache Engine.new_engine) (fun engine =>
      App.bindH (App.cache (Engine.invalidate_cache engine e)) (fun _ => k)) w
    = k {| App.prompt_versions := App.prompt_versions w;
           App.deployments := App.deployments w;
           App.redis := s' |} /\
    forall key, contents s' !! key
                = if String.prefix (RedisLaws.key_prefix e) key then None
                  else contents (App.redis w) !! key.
Proof.
  intros He. unfold App.bindH, App.cache.
  destruct (lawful_engine contents law (App.redis w))
    as (engine & s1 & -> & Hav & H1).
  simpl.
  destruct (lawful_invalidate contents law engine e s1 Hav He) as (s2 & -> & H2).
  exists s2. split; [reflexivity|]. intros key. now rewrite H2, H1.
Qed.

Lemma lawful_rollback e (w w' : App.World S) resp :
  RedisLaws.glob_free e = true ->
  App.rollback_deployment e w = (Return resp, w') ->
  forall k, contents (App.redis w') !! k
            = if String.prefix (RedisLaws.key_prefix e) k then None
              else contents (App.redis w) !! k.
Proof.
  intros He. unfold App.rollback_deployment.
  destruct (first_desc _ (List.filter (App.active_in _) _)) as [current|];
    [|discriminate].
  destruct (first_desc _ (List.filter (App.other_in _ _) _)) as [previous|];
    [|discriminate].
  cbv zeta.
  match goal with
  | |- context [App.bindH (App.cache (Engine.invalidate_cache _ e)) (fun _ => ?k)] =>
      destruct (lawful_invalidation_passes e k
                  (App.with_deployments
                     (App.set_is_active (Deployment.id previous) true
                        (App.set_is_active (Deployment.id current) false
                           (App.deployments w))) w) He) as (s' & -> & Hs)
  end.
  unfold App.bindH, App.retH. simpl.
  destruct (App.version_hash8 _ current); [|discriminate].
  destruct (App.version_hash8 _ previous); [|discriminate].
  intros [= _ <-] k. simpl. apply Hs.
Qed.

(** A request leaves the cache keys of the other environments alone. *)
Lemma lawful_handle_cache q (w : App.World S) k :
  RedisLaws.glob_free (Reach.target q) = true ->
  String.prefix (RedisLaws.key_prefix (Reach.target q)) k = false ->
  contents (App.redis (App.handle q w)) !! k = contents (App.redis w) !! k.
Proof.
  intros He Hk. destruct q as [amb r|e]; simpl in *.
  - unfold App.deploy_version.
    destruct (Versioning.get_version_by_hash _ _) as [version|]; [|reflexivity].
    cbv zeta.
    destruct (App.insert_deployment _ _ _) as [rows|]; [|reflexivity].
    match goal with
    | |- context [App.bindH (App.cache (Engine.invalidate_cache _ _)) (fun _ => ?k)] =>
        destruct (lawful_invalidation_passes (App.environment r) k
                    (App.with_deployments rows w) He) as (s' & -> & Hs)
    end.
    unfold App.retH. simpl. now rewrite Hs, Hk.
  - unfold App.rollback_deployment.
    destruct (first_desc _ (List.filter (App.active_in _) _)) as [current|];
      [|reflexivity].
    destruct (first_desc _ (List.filter (App.other_in _ _) _)) as [previous|];
      [|reflexivity].
    cbv zeta.
    match goal with
    | |- context [App.bindH (App.cache (Engine.invalidate_cache _ e)) (fun _ => ?k)] =>
        destruct (lawful_invalidation_passes e k
                    (App.with_deployments
                       (App.set_is_active (Deployment.id previous) true
                          (App.set_is_active (Deployment.id current) false
                             (App.deployments w))) w) He) as (s' & -> & Hs)
    end.
    unfold App.bindH, App.retH. simpl.
    destruct (App.version_hash8 _ current); [|simpl; now rewrite Hs, Hk].
    destruct (App.version_hash8 _ previous); simpl; now rewrite Hs, Hk.
Qed.

(** A request leaves the rows of the other environments alone. *)
Lemma handle_elsewhere q (w : App.World S) e' :
  NoDup (Deployment.id <$> App.deployments w) -> e' <> Reach.target q ->
  List.filter (App.in_environment e') (App.deployments (App.handle q w))
    = List.filter (App.in_environment e') (App.deployments w).
Proof.
  intros Hnd Hne.
  destruct (handle_cases q w) as
    [_ [->|[(amb & r & version & -> & _ & _ & ->)
           |(e & current & previous & -> & Hc & Hp & ->)]]];
    [reflexivity | |]; simpl in Hne.
  - rewrite List.filter_app, deactivate_all_elsewhere by congruence. simpl.
    unfold App.in_environment at 2. simpl.
    rewrite (proj2 (String.eqb_neq _ _)) by congruence. apply app_nil_r.
  - apply first_desc_In, filter_In in Hc as [Hcin Hc].
    apply first_desc_In, filter_In in Hp as [Hpin Hp].
    apply andb_true_iff in Hc as [Hc _]. apply andb_true_iff in Hp as [Hp _].
    rewrite !set_is_active_in_environment.
    rewrite (set_is_active_absent (Deployment.id current))
      by (now apply (id_not_elsewhere e e' _ current)).
    apply set_is_active_absent. now apply (id_not_elsewhere e e' _ previous).
Qed.

(** What a read answers is decided by the cached text under its key, the
    active rows of its environment and the versions table. *)
Lemma lawful_read_depends e name (w w' : App.World S) :
  contents (App.redis w') !! Engine._get_cache_key e name
    = contents (App.redis w) !! Engine._get_cache_key e name ->
  List.filter (App.active_in e) (App.deployments w')
    = List.filter (App.active_in e) (App.deployments w) ->
  App.prompt_versions w' = App.prompt_versions w ->
  fst (App.get_active_prompt response_dict e name w')
    = fst (App.get_active_prompt response_dict e name w).
Proof.
  intros Hk Hrows Hv.
  destruct (lawful_read e name w') as (w1' & -> & _).
  destruct (lawful_read e name w) as (w1 & -> & _).
  unfold Reach.served, Reach.from_tables. simpl. now rewrite Hk, Hrows, Hv.
Qed.

(** X15: once a read has answered from the tables, the next reads are
    served from the cache alone. With a Redis that is up and behaves as a
    map: if [get_active_prompt] returned a response built from the tables,
    and [json.dumps] turns its dict into a text [t] that [json.loads] turns
    into a truthy payload [p], then on every world whose cache holds what
    this read left, [get_active_prompt] for the same environment and name
    returns [p], whatever the tables of that world hold. *)
Theorem next_read_is_served_from_cache (e : string) (name : option string)
    (w w1 : App.World S) (response : App.PromptResponse) (t : string) (p : P) :
  App.get_active_prompt response_dict e name w = (Return (inr response), w1) ->
  Engine.json_dumps_default_str (response_dict response) = Return t ->
  t <> "" ->
  Engine.json_loads t = Return p ->
  Engine.payload_truthy p = true ->
  forall w2 : App.World S,
    contents (App.redis w2) = contents (App.redis w1) ->
    fst (App.get_active_prompt response_dict e name w2) = Return (inl p).
Proof.
  intros Hread Hd Ht Hl Hp w2 Hw2.
  apply (lawful_read_hit e name w2 t p); auto.
  rewrite Hw2. exact (lawful_read_stores e name w w1 response t Hread Hd).
Qed.

(** X16: a read that follows a rollback serves the version rolled back
    to. In an environment whose rows are [D1], deployed first and inactive,
    and [D2], deployed second and active (the primary key holding and both
    rows referring to stored versions), with a Redis that is up and behaves
    as a map and an environment name without glob characters: the rollback
    returns, and [get_active_prompt] then answers with what pydantic makes of
    the response built from the version of [D1], dated with the time [D1] was
    deployed at (the validated response, or its [ValidationError]), not with
    anything cached while [D2] was active. *)
Theorem read_after_rollback_is_fresh (w : App.World S) (e : string)
    (name : option string) (D1 D2 : Deployment.t) (v1 : PromptVersion.t) :
  RedisLaws.glob_free e = true ->
  NoDup (Deployment.id <$> App.deployments w) ->
  List.filter (App.in_environment e) (App.deployments w) = [D1; D2] ->
  Deployment.is_active D1 = false ->
  Deployment.is_active D2 = true ->
  Versioning.query_by_id (App.prompt_versions w) (Deployment.version_id D1) = Some v1 ->
  is_Some (Versioning.query_by_id (App.prompt_versions w) (Deployment.version_id D2)) ->
  exists resp w',
    App.rollback_deployment e w = (Return resp, w') /\
    fst (App.get_active_prompt response_dict e name w')
      = match App.validate_prompt_response (Reach.built_response e D1 v1) with
        | Return response => Return (inr response)
        | Raise err => Raise err
        end.
Proof.
  intros He Hnd Hrows H1 H2 Hv1 Hv2.
  destruct (rollback_two_rows w e D1 D2 Hnd Hrows) as
    (resp & w' & Hr & Hf & _ & _ & _ & Hp & _); eauto.
  { now rewrite H1, H2. }
  rewrite H1, H2 in Hf. simpl in Hf.
  exists resp, w'. split; [exact Hr|].
  rewrite (lawful_read_miss e name w' (Deployment.with_is_active true D1) v1).
  - reflexivity.
  - rewrite (lawful_rollback e w w' resp He Hr). now rewrite cache_key_prefix.
  - rewrite active_in_environment, Hf. reflexivity.
  - rewrite Hp. exact Hv1.
Qed.

(** X17: a deploy or a rollback in one environment does not change what the
    others serve. With a Redis that is up and behaves as a map, distinct
    deployment ids, and environment names without colons (the target's also
    without glob characters): after a deploy or rollback request for one
    environment, whether it returned or raised, [get_active_prompt] for any
    other environment answers exactly as it did before the request. *)
Theorem other_environments_keep_serving (q : App.request) (e' : string)
    (name : option string) (w : App.World S) :
  RedisLaws.glob_free (Reach.target q) = true ->
  RedisLaws.colon_free (Reach.target q) = true ->
  RedisLaws.colon_free e' = true ->
  e' <> Reach.target q ->
  NoDup (Deployment.id <$> App.deployments w) ->
  fst (App.get_active_prompt response_dict e' name (App.handle q w))
    = fst (App.get_active_prompt response_dict e' name w).
Proof.
  intros Hg Hc Hc' Hne Hnd. apply lawful_read_depends.
  - apply lawful_handle_cache; [exact Hg|].
    apply other_environment_key; auto.
  - rewrite !active_in_environment. f_equal. now apply handle_elsewhere.
  - apply handle_cases.
Qed.

End ReadThroughCache.

(** ** The hypotheses of the further properties hold on concrete inputs *)

Lemma drop_last_star p : Doubles.drop_last (p +:+ "*") = p.
Proof.
  unfold Doubles.drop_last.
  assert (Hlen : String.length (p +:+ "*") = Datatypes.S (String.length p)).
  { induction p as [|c p IH]; [reflexivity|].
    change (Datatypes.S (String.length (p +:+ "*"))
            = Datatypes.S (Datatypes.S (String.length p))).
    now rewrite IH. }
  rewrite Hlen.
  replace (Datatypes.S (String.length p) - 1) with (String.length p) by lia.
  clear Hlen. induction p as [|c p IH]; [reflexivity|].
  change (String c (String.substring 0 (String.length p) (p +:+ "*")) = String c p).
  now rewrite IH.
Qed.

(** The in-memory Redis behaves as a map. *)
Lemma memory_redis_lawful :
  RedisLaws.Lawful Doubles.memory_redis (fun s : gmap string string => s).
Proof.
  split; simpl.
  - intros _ s. now exists s.
  - intros s. now exists s.
  - intros k s. now exists s.
  - intros k ttl v s _. now eexists.
  - intros p s _. eexists _, _. split; [reflexivity|]. split; [reflexivity|].
    intros k. rewrite drop_last_star, filter_In, <- list_elem_of_In, list_elem_of_fmap.
    split.
    + intros [([k' v] & -> & Hkv) Hp]. apply elem_of_map_to_list in Hkv.
      simpl. eauto.
    + intros [[v Hv] Hp]. split; [|exact Hp].
      exists (k, v). split; [reflexivity|]. now apply elem_of_map_to_list.
  - intros ks s. now eexists _, _.
Qed.

Lemma same_prompt_commits_once_witness :
  exists n db1,
    @Cli.commit_file Doubles.plain_lib Doubles.plain_postgres (Doubles.amb 1 10)
      {| Versioning.path_str := "prompts/summary.yaml"; Versioning.stem := "summary" |}
      (Versioning.Mapping (<["content" := PStr "Summarize: {text}  "]> ∅)) "alice" "first" []
    = (Return n, db1) /\
    @Cli.commit_file Doubles.plain_lib Doubles.plain_postgres (Doubles.amb 2 20)
      {| Versioning.path_str := "prompts/digest.yaml"; Versioning.stem := "digest" |}
      (Versioning.Mapping (<["content" := PStr "  Summarize: {text}"]>
               (<["tags" := PList [PStr "short"]]> (<["model" := PStr "gpt-4"]> ∅))))
      "bob" "second" db1
    = (Return n, db1).
Proof.
  eexists _, _. split; [reflexivity|].
  apply (@same_prompt_commits_once Doubles.plain_lib Doubles.plain_postgres (Doubles.amb 1 10)
           (Doubles.amb 2 20)
           {| Versioning.path_str := "prompts/summary.yaml";
              Versioning.stem := "summary" |}
           {| Versioning.path_str := "prompts/digest.yaml";
              Versioning.stem := "digest" |}
           (<["content" := PStr "Summarize: {text}  "]> ∅)
           (<["content" := PStr "  Summarize: {text}"]>
              (<["tags" := PList [PStr "short"]]> (<["model" := PStr "gpt-4"]> ∅)))
           "Summarize: {text}  " "  Summarize: {text}" "alice" "bob" "first" "second" []);
    try reflexivity.
  discriminate.
Defined.

Lemma read_after_deploy_witness :
  let w := {| App.prompt_versions := App.prompt_versions Doubles.staging_twice;
              App.deployments := [];
              App.redis := tt |} in
  let r := {| App.version_hash := "aaaa"; App.environment := "staging";
              App.deployed_by := "alice" |} in
  exists resp w' response,
    App.deploy_version (RC:=Doubles.absent_redis)
        (pg:=Doubles.plain_postgres) (Doubles.amb 11 100) r w
      = (Return resp, w') /\
    fst (App.get_active_prompt (RC:=Doubles.absent_redis) (JC:=Doubles.text_codec)
           (PV:=Doubles.strict_pydantic)
           App.response_content "staging" None (Doubles.without_redis w'))
      = Return (inr response) /\
    App.response_hash response = "aaaa".
Proof.
  cbv zeta.
  edestruct (read_after_deploy (RC:=Doubles.absent_redis)
      (pg:=Doubles.plain_postgres) (JC:=Doubles.text_codec)
           (PV:=Doubles.strict_pydantic)
               App.response_content (Doubles.amb 11 100)
               {| App.version_hash := "aaaa"; App.environment := "staging";
                  App.deployed_by := "alice" |} None
               {| App.prompt_versions := App.prompt_versions Doubles.staging_twice;
                  App.deployments := [];
                  App.redis := tt |})
    as (version & Hv & Hh & _ & Hread).
  - compute_done.
  - reflexivity.
  - vm_compute in Hv. injection Hv as <-.
    eexists _, _, _. split; [reflexivity|]. split; [exact Hread | exact Hh].
Defined.

Lemma cached_payload_is_read_back_witness :
  let self := {| Engine.redis_available := true;
                 Engine.redis_client := Some Engine.REDIS_URL |} in
  let s' := snd (Engine.set_cache (RC:=Doubles.memory_redis) (JC:=Doubles.text_codec)
                   self "prod" "Summarize: {text}" None 3600 ∅) in
  fst (Engine.get_from_cache (RC:=Doubles.memory_redis) (JC:=Doubles.text_codec)
         self "prod" None s')
    = Return (Some "Summarize: {text}") /\
  fst (Engine.get_from_cache (RC:=Doubles.memory_redis) (JC:=Doubles.text_codec)
         self "prod" (Some "summary") s')
    = Return None.
Proof.
  cbv zeta.
  destruct (cached_payload_is_read_back (RC:=Doubles.memory_redis)
              (JC:=Doubles.text_codec) (fun s => s)
              {| Engine.redis_available := true;
                 Engine.redis_client := Some Engine.REDIS_URL |}
              "prod" None "Summarize: {text}" 3600 "Summarize: {text}" ∅
              memory_redis_lawful eq_refl ltac:(lia) eq_refl ltac:(discriminate))
    as [Hsame Hother].
  split; [exact Hsame|].
  rewrite (Hother "prod" (Some "summary")) by discriminate. reflexivity.
Defined.

Lemma invalidate_cache_clears_environment_witness :
  let self := {| Engine.redis_available := true;
                 Engine.redis_client := Some Engine.REDIS_URL |} in
  let s : gmap string string :=
    <["promptops:prompt:prod:default" := "Summarize: {text}"]>
      (<["promptops:prompt:dev:default" := "Summarise: {text}"]> ∅) in
  let s' := snd (Engine.invalidate_cache (RC:=Doubles.memory_redis) self "prod" s) in
  fst (Engine.get_from_cache (RC:=Doubles.memory_redis) (JC:=Doubles.text_codec)
         self "prod" None s') = Return None /\
  fst (Engine.get_from_cache (RC:=Doubles.memory_redis) (JC:=Doubles.text_codec)
         self "dev" None s') = Return (Some "Summarise: {text}").
Proof.
  cbv zeta.
  destruct (invalidate_cache_clears_environment (RC:=Doubles.memory_redis)
              (JC:=Doubles.text_codec) (fun s => s)
              {| Engine.redis_available := true;
                 Engine.redis_client := Some Engine.REDIS_URL |}
              "prod"
              (<["promptops:prompt:prod:default" := "Summarize: {text}"]>
                 (<["promptops:prompt:dev:default" := "Summarise: {text}"]> ∅))
              memory_redis_lawful eq_refl eq_refl)
    as [Hcleared Hkept].
  split; [exact (Hcleared None)|].
  rewrite (Hkept "dev" None eq_refl eq_refl) by discriminate. reflexivity.
Defined.

Lemma read_after_deploy_is_fresh_witness :
  let w : App.World (gmap string string) :=
    {| App.prompt_versions :=
         App.prompt_versions Doubles.staging_twice
         ++ [PromptVersion.mk 3 "Translate: {text}" "cccc" None "alice" 3 (PList [])
               (<["version" := PInt 2]> ∅)];
       App.deployments := [];
       App.redis := <["promptops:prompt:staging:default" := "Stale: {text}"]> ∅ |} in
  let deploy (h : string) :=
    App.deploy_version (RC:=Doubles.memory_redis) (pg:=Doubles.plain_postgres) (Doubles.amb 11 100)
      {| App.version_hash := h; App.environment := "staging";
         App.deployed_by := "alice" |} w in
  let read :=
    App.get_active_prompt (RC:=Doubles.memory_redis) (JC:=Doubles.text_codec)
      (PV:=Doubles.strict_pydantic) App.response_content "staging" None in
  fst (read w) = Return (inl "Stale: {text}") /\
  (exists resp w' response,
     deploy "aaaa" = (Return resp, w') /\
     fst (read w') = Return (inr response) /\
     App.response_content response = "Summarize: {text}") /\
  (exists resp w' msg,
     deploy "cccc" = (Return resp, w') /\
     fst (read w') = Raise (ValueError msg)).
Proof.
  cbv zeta. split; [reflexivity|]. split.
  - edestruct (read_after_deploy_is_fresh (RC:=Doubles.memory_redis) (pg:=Doubles.plain_postgres)
                 (JC:=Doubles.text_codec) (PV:=Doubles.strict_pydantic)
                 App.response_content (fun s => s) memory_redis_lawful
                 (Doubles.amb 11 100)
                 {| App.version_hash := "aaaa"; App.environment := "staging";
                    App.deployed_by := "alice" |} None
                 {| App.prompt_versions :=
                      App.prompt_versions Doubles.staging_twice
                      ++ [PromptVersion.mk 3 "Translate: {text}" "cccc" None "alice" 3
                            (PList []) (<["version" := PInt 2]> ∅)];
                    App.deployments := [];
                    App.redis :=
                      <["promptops:prompt:staging:default" := "Stale: {text}"]> ∅ |})
      as (version & Hv & Hread).
    + reflexivity.
    + compute_done.
    + reflexivity.
    + vm_compute in Hv. injection Hv as <-.
      eexists _, _, _. split; [reflexivity|]. split; [exact Hread | reflexivity].
  - edestruct (read_after_deploy_is_fresh (RC:=Doubles.memory_redis) (pg:=Doubles.plain_postgres)
                 (JC:=Doubles.text_codec) (PV:=Doubles.strict_pydantic)
                 App.response_content (fun s => s) memory_redis_lawful
                 (Doubles.amb 11 100)
                 {| App.version_hash := "cccc"; App.environment := "staging";
                    App.deployed_by := "alice" |} None
                 {| App.prompt_versions :=
                      App.prompt_versions Doubles.staging_twice
                      ++ [PromptVersion.mk 3 "Translate: {text}" "cccc" None "alice" 3
                            (PList []) (<["version" := PInt 2]> ∅)];
                    App.deployments := [];
                    App.redis :=
                      <["promptops:prompt:staging:default" := "Stale: {text}"]> ∅ |})
      as (version & Hv & Hread).
    + reflexivity.
    + compute_done.
    + reflexivity.
    + vm_compute in Hv. injection Hv as <-.
      eexists _, _, _. split; [reflexivity|]. exact Hread.
Defined.

Lemma next_read_is_served_from_cache_witness :
  let w : App.World (gmap string string) :=
    {| App.prompt_versions := App.prompt_versions Doubles.staging_twice;
       App.deployments := App.deployments Doubles.staging_twice;
       App.redis := ∅ |} in
  let w1 := snd (App.get_active_prompt (RC:=Doubles.memory_redis)
                   (JC:=Doubles.text_codec)
                   (PV:=Doubles.lenient_pydantic) App.response_content "staging" None w) in
  fst (App.get_active_prompt (RC:=Doubles.memory_redis) (JC:=Doubles.text_codec)
         (PV:=Doubles.lenient_pydantic)
         App.response_content "staging" None
         {| App.prompt_versions := []; App.deployments := [];
            App.redis := App.redis w1 |})
    = Return (inl "Summarise: {text}").
Proof.
  cbv zeta.
  eapply (next_read_is_served_from_cache (RC:=Doubles.memory_redis)
            (JC:=Doubles.text_codec)
            (PV:=Doubles.lenient_pydantic) App.response_content (fun s => s)
            memory_redis_lawful "staging" None
            {| App.prompt_versions := App.prompt_versions Doubles.staging_twice;
               App.deployments := App.deployments Doubles.staging_twice;
               App.redis := ∅ |}
            _ _ "Summarise: {text}" "Summarise: {text}").
  - vm_compute. reflexivity.
  - reflexivity.
  - discriminate.
  - reflexivity.
  - reflexivity.
  - reflexivity.
Defined.

Lemma read_after_rollback_is_fresh_witness :
  let w : App.World (gmap string string) :=
    {| App.prompt_versions := App.prompt_versions Doubles.staging_twice;
       App.deployments := App.deployments Doubles.staging_twice;
       App.redis := <["promptops:prompt:staging:default" := "Summarise: {text}"]> ∅ |} in
  exists resp w' response,
    App.rollback_deployment (RC:=Doubles.memory_redis) "staging" w = (Return resp, w') /\
    fst (App.get_active_prompt (RC:=Doubles.memory_redis) (JC:=Doubles.text_codec)
           (PV:=Doubles.strict_pydantic)
           App.response_content "staging" None w')
      = Return (inr response) /\
    App.response_content response = "Summarize: {text}" /\
    App.response_deployed_at response = 100%Z.
Proof.
  cbv zeta.
  destruct (read_after_rollback_is_fresh (RC:=Doubles.memory_redis)
              (JC:=Doubles.text_codec)
              (PV:=Doubles.strict_pydantic) App.response_content (fun s => s)
              memory_redis_lawful
              {| App.prompt_versions := App.prompt_versions Doubles.staging_twice;
                 App.deployments := App.deployments Doubles.staging_twice;
                 App.redis :=
                   <["promptops:prompt:staging:default" := "Summarise: {text}"]> ∅ |}
              "staging" None
              (Deployment.mk 11 1 "staging" 100 "alice" None false)
              (Deployment.mk 12 2 "staging" 200 "alice" None true)
              (Doubles.version 1 "Summarize: {text}" "aaaa" None)
              eq_refl ltac:(compute_done) eq_refl eq_refl eq_refl eq_refl
              ltac:(eexists; reflexivity))
    as (resp & w' & Hr & Hread).
  exists resp, w'. eexists. split; [exact Hr|]. split; [exact Hread|].
  split; reflexivity.
Defined.

Lemma other_environments_keep_serving_witness :
  let w : App.World (gmap string string) :=
    {| App.prompt_versions := App.prompt_versions Doubles.staging_twice;
       App.deployments := [Deployment.mk 11 1 "prod" 100 "alice" None true];
       App.redis := <["promptops:prompt:prod:default" := "Cached: {text}"]> ∅ |} in
  let q := App.Deploy (Doubles.amb 12 200)
             {| App.version_hash := "bbbb"; App.environment := "staging";
                App.deployed_by := "alice" |} in
  fst (App.get_active_prompt (RC:=Doubles.memory_redis) (JC:=Doubles.text_codec)
         (PV:=Doubles.lenient_pydantic)
         App.response_content "prod" None
         (App.handle (RC:=Doubles.memory_redis) (pg:=Doubles.plain_postgres) q w))
    = Return (inl "Cached: {text}") /\
  length (App.deployments (App.handle (RC:=Doubles.memory_redis)
      (pg:=Doubles.plain_postgres) q w)) = 2.
Proof.
  cbv zeta. split; [|reflexivity].
  rewrite (other_environments_keep_serving (RC:=Doubles.memory_redis) (pg:=Doubles.plain_postgres)
             (JC:=Doubles.text_codec)
             (PV:=Doubles.lenient_pydantic) App.response_content (fun s => s)
             memory_redis_lawful
             (App.Deploy (Doubles.amb 12 200)
                {| App.version_hash := "bbbb"; App.environment := "staging";
                   App.deployed_by := "alice" |})
             "prod" None); [reflexivity | reflexivity.. | discriminate | compute_done].
Defined.

Lemma rollback_outcome_by_row_count_witness :
  let start : App.World unit :=
    {| App.prompt_versions := App.prompt_versions Doubles.staging_twice;
       App.deployments := [];
       App.redis := tt |} in
  let once := App.run (RC:=Doubles.absent_redis)
      (pg:=Doubles.plain_postgres) (firstn 1 Doubles.deploy_twice) start in
  let twice := App.run (RC:=Doubles.absent_redis)
      (pg:=Doubles.plain_postgres) Doubles.deploy_twice start in
  App.rollback_deployment (RC:=Doubles.absent_redis) "staging" start
    = (Raise (HTTPException 404 "No active deployment in staging"), start) /\
  App.rollback_deployment (RC:=Doubles.absent_redis) "staging" once
    = (Raise (HTTPException 400 "No previous deployment to rollback to"), once) /\
  exists resp w',
    App.rollback_deployment (RC:=Doubles.absent_redis) "staging" twice
      = (Return resp, w').
Proof.
  cbv zeta. split; [|split].
  - exact (proj1 (rollback_outcome_by_row_count (RC:=Doubles.absent_redis)
      (pg:=Doubles.plain_postgres)
                    (App.prompt_versions Doubles.staging_twice) tt [] "staging")
             eq_refl).
  - exact (proj1 (proj2 (rollback_outcome_by_row_count (RC:=Doubles.absent_redis)
      (pg:=Doubles.plain_postgres)
                           (App.prompt_versions Doubles.staging_twice) tt
                           (firstn 1 Doubles.deploy_twice) "staging"))
             eq_refl).
  - apply (proj2 (proj2 (rollback_outcome_by_row_count (RC:=Doubles.absent_redis)
      (pg:=Doubles.plain_postgres)
                           (App.prompt_versions Doubles.staging_twice) tt
                           Doubles.deploy_twice "staging"))).
    vm_compute. lia.
Defined.

(** * The evaluation engine *)

(** ** Comparisons and differences of binary64 numbers *)

Lemma ltb_leb x y : PrimFloat.ltb x y = true -> PrimFloat.leb x y = true.
Proof.
  rewrite FloatAxioms.ltb_spec, FloatAxioms.leb_spec.
  unfold SpecFloat.SFltb, SpecFloat.SFleb.
  destruct (SpecFloat.SFcompare _ _) as [[| |]|]; congruence.
Qed.

(** [x - x] is a zero, or not a number when [x] is infinite or not a number. *)
Lemma sub_self (x : float) :
  FloatOps.Prim2SF (x - x) = SpecFloat.S754_nan \/
  exists s, FloatOps.Prim2SF (x - x) = SpecFloat.S754_zero s.
Proof.
  rewrite FloatAxioms.sub_spec. unfold FloatAxioms.SF64sub.
  destruct (FloatOps.Prim2SF x) as [s|s| |s m e]; simpl.
  - right. destruct s; eauto.
  - left. now destruct s.
  - now left.
  - right. rewrite Z.sub_diag. simpl. eauto.
Qed.

Lemma sub_self_no_drop x : PrimFloat.ltb (x - x) EvalEngine.minus_0_05 = false.
Proof.
  rewrite FloatAxioms.ltb_spec.
  destruct (sub_self x) as [->|[s ->]]; [reflexivity|].
  vm_compute. reflexivity.
Qed.

Lemma sub_self_no_rise x :
  PrimFloat.ltb (Number.float_of_int 200) (x - x) = false.
Proof.
  rewrite FloatAxioms.ltb_spec.
  destruct (sub_self x) as [->|[s ->]]; vm_compute; reflexivity.
Qed.

Lemma SFltb_opp a b :
  SpecFloat.SFltb a b = true ->
  SpecFloat.SFltb (SpecFloat.SFopp b) (SpecFloat.SFopp a) = true.
Proof.
  unfold SpecFloat.SFltb.
  destruct a as [sa|sa| |sa ma ea], b as [sb|sb| |sb mb eb]; simpl;
    try discriminate; try (destruct sa; simpl; congruence);
    try (destruct sb; simpl; congruence);
    try (destruct sa, sb; simpl; congruence).
  destruct sa, sb; simpl; try congruence;
    rewrite (Z.compare_antisym ea eb);
    (destruct (ea ?= eb)%Z; simpl; try congruence);
    rewrite !Pos.compare_cont_spec; simpl;
    rewrite (Pos.compare_antisym ma mb);
    destruct (ma ?= mb)%positive; simpl; congruence.
Qed.

(** A score above [0.05] taken from nothing is a drop below [-0.05]. *)
Lemma zero_sub x :
  PrimFloat.ltb 0x1.999999999999ap-5 x = true ->
  PrimFloat.ltb (Number.float_of_int 0 - x) EvalEngine.minus_0_05 = true.
Proof.
  rewrite !FloatAxioms.ltb_spec, FloatAxioms.sub_spec. intros H.
  apply SFltb_opp in H.
  replace (FloatOps.Prim2SF EvalEngine.minus_0_05)
    with (SpecFloat.SFopp (FloatOps.Prim2SF 0x1.999999999999ap-5))
    by (vm_compute; reflexivity).
  replace (FloatAxioms.SF64sub (FloatOps.Prim2SF (Number.float_of_int 0))
             (FloatOps.Prim2SF x))
    with (SpecFloat.SFopp (FloatOps.Prim2SF x)); [exact H|].
  change (FloatOps.Prim2SF (Number.float_of_int 0)) with (SpecFloat.S754_zero false).
  destruct (FloatOps.Prim2SF x) as [s|s| |s m e]; try reflexivity.
  destruct s; discriminate.
Qed.

(** A float above [0.05] is truthy. *)
Lemma above_is_truthy x :
  PrimFloat.ltb 0x1.999999999999ap-5 x = true -> truthy (PFloat x) = true.
Proof.
  simpl. rewrite FloatAxioms.ltb_spec, FloatAxioms.eqb_spec.
  change (FloatOps.Prim2SF 0) with (SpecFloat.S754_zero false).
  destruct (FloatOps.Prim2SF x) as [s|s| |s m e]; try discriminate;
    destruct s; try discriminate; reflexivity.
Qed.

(** ** [EvaluationEngine.evaluate] *)

Lemma last_None_nil {A} (l : list A) : last l = None -> l = [].
Proof. destruct l as [|x l]; [reflexivity|]. intros H. now apply last_None in H. Qed.

(** After the loop, the dict holds under each name what the last scorer of
    that name did. *)
Lemma scores_last version n scorers acc k :
  fold_left (EvalEngine.run_scorer version n) scorers acc !! k
  = match last (List.filter (fun s => String.eqb (EvalEngine.name s) k) scorers) with
    | Some s =>
        Some match EvalEngine.score s (PromptVersion.content version)
                     (PromptVersion.prompt_metadata version) n with
             | Return x => Some x
             | Raise _ => None
             end
    | None => acc !! k
    end.
Proof.
  revert acc. induction scorers as [|s scorers IH]; intros acc; [reflexivity|].
  simpl. rewrite IH.
  destruct (String.eqb_spec (EvalEngine.name s) k) as [Hk|Hk].
  - destruct (List.filter _ scorers) as [|s' l] eqn:Hf.
    + simpl. unfold EvalEngine.run_scorer. rewrite Hk.
      destruct (EvalEngine.score s _ _ _); apply lookup_insert_eq.
    + rewrite (last_cons_cons s s' l).
      destruct (last (s' :: l)) eqn:Hl; [reflexivity | now apply last_None in Hl].
  - destruct (last _) as [s'|]; [reflexivity|].
    unfold EvalEngine.run_scorer.
    destruct (EvalEngine.score s _ _ _); now apply lookup_insert_ne.
Qed.

Lemma scores_get_last version n scorers k :
  EvalEngine.scores_get (fold_left (EvalEngine.run_scorer version n) scorers ∅) k
  = EvalObserve.last_outcome scorers version n k.
Proof.
  unfold EvalEngine.scores_get, EvalObserve.last_outcome. rewrite scores_last.
  destruct (last _); reflexivity.
Qed.

Lemma insert_eval_result_inv row versions rows rows' :
  EvalEngine.insert_eval_result row versions rows = Return rows' ->
  rows' = rows ++ [row].
Proof.
  unfold EvalEngine.insert_eval_result.
  destruct (existsb _ rows); [discriminate|].
  destruct (existsb _ versions); [|discriminate]. congruence.
Qed.

(** X18: a scorer that fails does not fail the evaluation. Whatever the
    registered scorers do, [evaluate] either returns the row it appended to
    [eval_results] or raises [IntegrityError] and leaves the table as it was;
    it returns whenever the id drawn is new and the version is stored. In the
    row, each of the five score columns holds what the last scorer registered
    under the name of the column returned, and is NULL when that scorer
    raised or when no scorer has the name; scorers under other names are
    dropped. *)
Theorem evaluate_records_last_scorer (amb : Ambient)
    (scorers : list EvalEngine.Scorer) (version : PromptVersion.t)
    (dataset_id : option UUID) (num_samples : Z)
    (versions : Versioning.table) (rows : list EvalResult.t) :
  match EvalEngine.evaluate amb scorers version dataset_id num_samples versions rows with
  | (Return row, rows') =>
      rows' = rows ++ [row] /\
      EvalResult.id row = uuid4 amb /\
      EvalResult.version_id row = PromptVersion.id version /\
      forall metric,
        In metric ["accuracy"; "hallucination"; "relevance"; "latency_p95";
                   "consistency"] ->
        EvalObserve.column metric row
        = EvalObserve.last_outcome scorers version num_samples metric
  | (Raise e, rows') =>
      rows' = rows /\ exists msg, e = IntegrityError msg
  end /\
  ((uuid4 amb ∉ EvalResult.id <$> rows) ->
   (PromptVersion.id version ∈ PromptVersion.id <$> versions) ->
   returned (fst (EvalEngine.evaluate amb scorers version dataset_id num_samples
                    versions rows)) = true).
Proof.
  unfold EvalEngine.evaluate. cbv zeta. split.
  - destruct (EvalEngine.insert_eval_result _ _ _) as [rows'|e] eqn:Hi.
    + apply insert_eval_result_inv in Hi. split; [exact Hi|].
      split; [reflexivity|]. split; [reflexivity|].
      intros metric Hm. simpl in Hm.
      destruct Hm as [<-|[<-|[<-|[<-|[<-|[]]]]]]; apply scores_get_last.
    + split; [reflexivity|]. unfold EvalEngine.insert_eval_result in Hi.
      destruct (existsb _ rows); [injection Hi as <-; eauto|].
      destruct (existsb _ versions); [discriminate | injection Hi as <-; eauto].
  - intros Hid Hv. unfold EvalEngine.insert_eval_result. simpl.
    rewrite (proj2 (existsb_key_false EvalResult.id Nat.eqb Nat.eqb_eq rows _) Hid).
    rewrite (proj2 (existsb_key_true PromptVersion.id Nat.eqb Nat.eqb_eq versions _) Hv).
    reflexivity.
Qed.

(** ** [EvaluationEngine.compare_versions] *)

Lemma regression_sticks l : fold_left EvalEngine.regression_step l true = true.
Proof.
  induction l as [|[metric delta] l IH]; [reflexivity|].
  cbn [fold_left EvalEngine.regression_step].
  destruct (String.eqb metric "latency_p95");
    [destruct (Number.gt delta (Number.Int 200))
    |destruct (Number.lt delta (Number.Float EvalEngine.minus_0_05))]; exact IH.
Qed.

(** A drop of a metric other than the latency raises the flag, wherever it
    stands among the deltas. *)
Lemma regression_on_drop l metric delta flag :
  In (metric, delta) l ->
  String.eqb metric "latency_p95" = false ->
  Number.lt delta (Number.Float EvalEngine.minus_0_05) = true ->
  fold_left EvalEngine.regression_step l flag = true.
Proof.
  revert flag. induction l as [|item l IH]; intros flag Hin Hm Hd; [destruct Hin|].
  destruct Hin as [->|Hin].
  - cbn [fold_left EvalEngine.regression_step]. rewrite Hm, Hd.
    apply regression_sticks.
  - cbn [fold_left]. now apply IH.
Qed.

(** The difference of a score with itself raises no flag. *)
Lemma self_delta x :
  let delta := Number.sub (Number.or_zero x) (Number.or_zero x) in
  Number.gt delta (Number.Int 200) = false /\
  Number.lt delta (Number.Float EvalEngine.minus_0_05) = false.
Proof.
  cbv zeta. unfold Number.or_zero.
  destruct x as [f|]; [destruct (truthy (PFloat f))|]; simpl.
  - split; [apply sub_self_no_rise | apply sub_self_no_drop].
  - split; vm_compute; reflexivity.
  - split; vm_compute; reflexivity.
Qed.

(** X19: a score that is missing counts as zero. When both versions have
    results, and the latest result of the second version has no score under
    a metric for which higher is better (the scorer raised, or none was
    registered) while the latest result of the first version has a score
    above [0.05] there, [compare_versions] reports a regression. *)
Theorem unscored_metric_is_a_regression (rows : list EvalResult.t)
    (version_a_id version_b_id : UUID) (latest_a latest_b : EvalResult.t)
    (metric : string) (x : float) :
  last (EvalEngine.get_results rows version_a_id) = Some latest_a ->
  last (EvalEngine.get_results rows version_b_id) = Some latest_b ->
  In metric EvalObserve.higher_is_better ->
  EvalObserve.column metric latest_b = None ->
  EvalObserve.column metric latest_a = Some x ->
  PrimFloat.ltb 0x1.999999999999ap-5 x = true ->
  exists comparison,
    EvalEngine.compare_versions rows version_a_id version_b_id = inr comparison /\
    EvalEngine.regression_detected comparison = true.
Proof.
  intros Ha Hb Hm Hnone Hx Habove.
  unfold EvalEngine.compare_versions. rewrite Ha, Hb. cbv zeta.
  eexists. split; [reflexivity|]. cbn [EvalEngine.regression_detected].
  assert (Hdrop : Number.lt (Number.sub (Number.or_zero None)
                               (Number.or_zero (Some x)))
                    (Number.Float EvalEngine.minus_0_05) = true).
  { unfold Number.or_zero. rewrite (above_is_truthy x Habove). simpl.
    now apply zero_sub. }
  simpl in Hm.
  destruct Hm as [<-|[<-|[<-|[<-|[]]]]];
    unfold EvalObserve.column in Hnone, Hx; simpl in Hnone, Hx;
    match type of Hnone with
    | ?column latest_b = None =>
        match goal with
        | |- context [(?metric, Number.sub (Number.or_zero (column latest_b)) _)] =>
            apply (regression_on_drop _ metric
                     (Number.sub (Number.or_zero (column latest_b))
                                 (Number.or_zero (column latest_a))));
            [simpl; auto 6 | reflexivity | rewrite Hnone, Hx; exact Hdrop]
        end
    end.
Qed.

(** X20: comparing a version with itself never reports a regression,
    whatever its scores are, infinite ones and NaN included; the answer is
    the error dict exactly when the version has no result. *)
Theorem comparison_with_itself_is_clean (rows : list EvalResult.t)
    (version_id : UUID) :
  match EvalEngine.compare_versions rows version_id version_id with
  | inr comparison =>
      EvalEngine.regression_detected comparison = false /\
      EvalEngine.get_results rows version_id <> []
  | inl _ => EvalEngine.get_results rows version_id = []
  end.
Proof.
  unfold EvalEngine.compare_versions. cbv zeta.
  destruct (last (EvalEngine.get_results rows version_id)) as [latest|] eqn:Hl.
  - split; [|intros Hnil; now rewrite Hnil in Hl].
    cbn [EvalEngine.regression_detected].
    destruct (self_delta (EvalResult.score_accuracy latest)) as [_ H1].
    destruct (self_delta (EvalResult.score_hallucination latest)) as [_ H2].
    destruct (self_delta (EvalResult.score_relevance latest)) as [_ H3].
    destruct (self_delta (EvalResult.score_latency_p95 latest)) as [H4 _].
    destruct (self_delta (EvalResult.score_consistency latest)) as [_ H5].
    cbv zeta in H1, H2, H3, H4, H5.
    cbn [fold_left EvalEngine.regression_step String.eqb Ascii.eqb Bool.eqb].
    now rewrite H1, H2, H3, H4, H5.
  - now apply last_None_nil.
Qed.

(** ** The scorers and [eval_command] *)

(** X21: the accuracy score is clamped. Whatever the prompt and whatever
    [random.uniform] returns, infinite values and NaN included,
    [AccuracyScorer.score] returns a number between 0 and 1, both included;
    in particular it never returns NaN. *)
Theorem accuracy_score_is_clamped (prompt : string) (variance : float)
    (metadata : gmap string pyval) (num_samples : Z) :
  exists x,
    EvalEngine.score (Scorers.AccuracyScorer variance) prompt metadata num_samples
      = Return x /\
    PrimFloat.leb 0 x = true /\ PrimFloat.leb x 1 = true.
Proof.
  eexists. split; [reflexivity|].
  unfold Scorers.accuracy_score. cbv zeta.
  set (y := (_ + variance)%float).
  unfold Number.max, Number.min.
  destruct (PrimFloat.ltb y 1) eqn:Hy1.
  - destruct (PrimFloat.ltb 0 y) eqn:Hy0.
    + split; now apply ltb_leb.
    + split; reflexivity.
  - split; reflexivity.
Qed.

Lemma select_version_stored version_hash versions version :
  CliEval.select_version version_hash versions = Some version ->
  PromptVersion.id version ∈ PromptVersion.id <$> versions.
Proof.
  intros Hs. apply list_elem_of_fmap. exists version. split; [reflexivity|].
  apply list_elem_of_In. unfold CliEval.select_version in Hs.
  destruct version_hash as [h|]; [destruct (String.eqb h "")|];
    first [now apply first_desc_In in Hs | now apply query_by_hash_In in Hs].
Qed.

(** The default scorers set every score. *)
Lemma default_scorers_score ragas_available draws version n :
  forall metric,
    In metric ["accuracy"; "hallucination"; "relevance"; "latency_p95"; "consistency"] ->
    is_Some (EvalObserve.last_outcome
               (Scorers.create_default_scorers ragas_available draws) version n metric).
Proof.
  intros metric Hm. simpl in Hm.
  destruct Hm as [<-|[<-|[<-|[<-|[<-|[]]]]]];
    unfold EvalObserve.last_outcome; simpl; try (destruct ragas_available; simpl);
    eauto.
Qed.

Lemma get_results_snoc rows row i :
  EvalEngine.get_results (rows ++ [row]) i
  = EvalEngine.get_results rows i
    ++ (if Nat.eqb (EvalResult.version_id row) i then [row] else []).
Proof. unfold EvalEngine.get_results. now rewrite List.filter_app. Qed.

(** X22: [eval --run --compare] needs results for the parent. For a version
    found by its hash (or HEAD) that has a parent other than itself, and an
    id for the new row that is not taken: the command stores one fully
    scored result for the version, and then completes when the parent has a
    result and ends with exit code 1 when it has none; the result stays
    stored in both cases. *)
Theorem eval_compare_needs_parent_results (amb : Ambient) (ragas_available : bool)
    (draws : Scorers.Draws) (version_hash : option string) (samples : Z)
    (versions : Versioning.table) (rows : list EvalResult.t)
    (version : PromptVersion.t) (parent : UUID) :
  CliEval.select_version version_hash versions = Some version ->
  PromptVersion.parent_id version = Some parent ->
  parent <> PromptVersion.id version ->
  (uuid4 amb ∉ EvalResult.id <$> rows) ->
  exists row,
    CliEval.eval_command amb ragas_available draws true version_hash true samples
      versions rows
    = (match EvalEngine.get_results rows parent with
       | [] => CliDeploy.Exit 1
       | _ => CliDeploy.Completed
       end, rows ++ [row]) /\
    EvalResult.id row = uuid4 amb /\
    EvalResult.version_id row = PromptVersion.id version /\
    EvalObserve.fully_scored row.
Proof.
  intros Hs Hp Hne Hid.
  pose proof (evaluate_records_last_scorer amb
                (Scorers.create_default_scorers ragas_available draws) version None
                samples versions rows) as [Hrow Hret].
  specialize (Hret Hid (select_version_stored _ _ _ Hs)).
  unfold CliEval.eval_command. rewrite Hs. simpl negb. cbv iota.
  destruct (EvalEngine.evaluate _ _ _ _ _ _ _) as [[row|e] rows'];
    [clear Hret | discriminate].
  destruct Hrow as (-> & Hrid & Hvid & Hcols).
  exists row. rewrite Hp. split; [|split; [exact Hrid|split; [exact Hvid|]]].
  - unfold EvalEngine.compare_versions. cbv zeta.
    rewrite !get_results_snoc, Hvid, Nat.eqb_refl.
    rewrite (proj2 (Nat.eqb_neq _ _)) by congruence.
    rewrite app_nil_r, last_snoc.
    destruct (EvalEngine.get_results rows parent) as [|r l] eqn:Hr; [reflexivity|].
    destruct (last (r :: l)) eqn:Hl; [reflexivity | now apply last_None in Hl].
  - pose proof (default_scorers_score ragas_available draws version samples) as Hd.
    assert (Hcol : forall metric,
              In metric ["accuracy"; "hallucination"; "relevance"; "latency_p95";
                         "consistency"] ->
              is_Some (EvalObserve.column metric row)).
    { intros metric Hm. rewrite (Hcols metric Hm). now apply Hd. }
    unfold EvalObserve.fully_scored.
    repeat split;
      [apply (Hcol "accuracy") | apply (Hcol "hallucination")
      |apply (Hcol "relevance") | apply (Hcol "latency_p95")
      |apply (Hcol "consistency")]; simpl; auto 6.
Qed.

(** ** The hypotheses of the properties of the evaluation hold on concrete inputs *)

Lemma evaluate_records_last_scorer_witness :
  let version := Doubles.version 1 "Summarize: {text}" "aaaa" None in
  let scorers :=
    [Scorers.AccuracyScorer 0;
     {| EvalEngine.name := "accuracy";
        EvalEngine.score := fun _ _ _ => Raise (ValueError "no golden dataset") |};
     {| EvalEngine.name := "bleu";
        EvalEngine.score := fun _ _ _ => Return 1%float |}] in
  exists row,
    EvalEngine.evaluate (Doubles.amb 21 300) scorers version None 10 [version] []
      = (Return row, [row]) /\
    EvalResult.score_accuracy row = None /\
    EvalResult.score_relevance row = None.
Proof.
  cbv zeta.
  pose proof (evaluate_records_last_scorer (Doubles.amb 21 300)
                [Scorers.AccuracyScorer 0;
                 {| EvalEngine.name := "accuracy";
                    EvalEngine.score :=
                      fun _ _ _ => Raise (ValueError "no golden dataset") |};
                 {| EvalEngine.name := "bleu";
                    EvalEngine.score := fun _ _ _ => Return 1%float |}]
                (Doubles.version 1 "Summarize: {text}" "aaaa" None) None 10
                [Doubles.version 1 "Summarize: {text}" "aaaa" None] [])
    as [Hrow _].
  destruct (EvalEngine.evaluate _ _ _ _ _ _ _) as [[row|e] rows'] eqn:He.
  - destruct Hrow as (-> & _ & _ & Hcols). exists row. split; [reflexivity|].
    split.
    + exact (Hcols "accuracy" ltac:(simpl; auto)).
    + exact (Hcols "relevance" ltac:(simpl; auto)).
  - vm_compute in He. discriminate.
Defined.

Lemma unscored_metric_is_a_regression_witness :
  let rows :=
    [EvalResult.mk 21 1 (Some 0x1.b333333333333p-1%float) None None None None None 300;
     EvalResult.mk 22 2 None None None None None None 400] in
  exists comparison,
    EvalEngine.compare_versions rows 1 2 = inr comparison /\
    EvalEngine.regression_detected comparison = true.
Proof.
  cbv zeta.
  apply (unscored_metric_is_a_regression
           [EvalResult.mk 21 1 (Some 0x1.b333333333333p-1%float) None None None None
              None 300;
            EvalResult.mk 22 2 None None None None None None 400]
           1 2
           (EvalResult.mk 21 1 (Some 0x1.b333333333333p-1%float) None None None None
              None 300)
           (EvalResult.mk 22 2 None None None None None None 400)
           "accuracy" 0x1.b333333333333p-1%float);
    try reflexivity.
  simpl. auto.
Defined.

Lemma eval_compare_needs_parent_results_witness :
  let versions := App.prompt_versions Doubles.staging_twice in
  let draws :=
    {| Scorers.accuracy_variance := 0; Scorers.hallucination_uniform := 0;
       Scorers.relevance_uniform := 0; Scorers.latency_uniform := 0;
       Scorers.consistency_uniform := 0 |} in
  let parent_result := EvalResult.mk 20 1 None None None None None None 250 in
  (exists row,
     CliEval.eval_command (Doubles.amb 21 300) false draws true (Some "bbbb") true 10
       versions []
     = (CliDeploy.Exit 1, [row]) /\
     EvalResult.version_id row = 2) /\
  (exists row,
     CliEval.eval_command (Doubles.amb 21 300) false draws true (Some "bbbb") true 10
       versions [parent_result]
     = (CliDeploy.Completed, [parent_result; row]) /\
     EvalResult.version_id row = 2).
Proof.
  cbv zeta. split.
  - destruct (eval_compare_needs_parent_results (Doubles.amb 21 300) false
                {| Scorers.accuracy_variance := 0; Scorers.hallucination_uniform := 0;
                   Scorers.relevance_uniform := 0; Scorers.latency_uniform := 0;
                   Scorers.consistency_uniform := 0 |}
                (Some "bbbb") 10 (App.prompt_versions Doubles.staging_twice) []
                (Doubles.version 2 "Summarise: {text}" "bbbb" (Some 1)) 1
                eq_refl eq_refl ltac:(discriminate) ltac:(compute_done))
      as (row & Hrun & _ & Hvid & _).
    exists row. split; [exact Hrun | exact Hvid].
  - destruct (eval_compare_needs_parent_results (Doubles.amb 21 300) false
                {| Scorers.accuracy_variance := 0; Scorers.hallucination_uniform := 0;
                   Scorers.relevance_uniform := 0; Scorers.latency_uniform := 0;
                   Scorers.consistency_uniform := 0 |}
                (Some "bbbb") 10 (App.prompt_versions Doubles.staging_twice)
                [EvalResult.mk 20 1 None None None None None None 250]
                (Doubles.version 2 "Summarise: {text}" "bbbb" (Some 1)) 1
                eq_refl eq_refl ltac:(discriminate) ltac:(compute_done))
      as (row & Hrun & _ & Hvid & _).
    exists row. split; [exact Hrun | exact Hvid].
Defined.
